(** * fits2js: a shallow embedding of the FITS codec

    The development follows the TypeScript sources of the library:
    [card.ts] (one 80-character keyword record), [header.ts] (the ordered
    collection of cards), [data.ts] (the N-dimensional data matrix) and
    [fits.ts] (header and data together, block padding).

    Conventions of the embedding:
    - a JavaScript string is a [string]; its characters are the code units
      below 256, which covers the printable ASCII range the FITS standard
      allows and lets the validation regexes meet characters outside it;
    - integers that index, count or address are [Z] (or [nat] for a length
      that cannot be negative); a number that can be [NaN] in the source is
      a [num]; the numbers a caller hands to [getPoint], and what the
      arithmetic of [getPoint] makes of them, are IEEE doubles, the
      [spec_float] of the Standard Library at 53 bits;
    - bytes are [Byte.byte], buffers are lists of bytes;
    - an exception is a value of [exn]; a function that can throw returns a
      [result]; a function that reads or writes the [lastIndex] of one of
      the module-level regular expressions runs in the state monad [M];
    - [Number.prototype.toString] and [Number.parseFloat] are built-ins on
      IEEE doubles: a number held by a card is carried by the text
      [toString] gives for it, and [parseFloat] is a parameter. *)

From Stdlib Require Import ZArith List String Ascii Bool Lia DecimalString.
From Stdlib Require Import SpecFloat.
From stdpp Require Import base list strings gmap.
Import ListNotations.

Open Scope string_scope.
Open Scope list_scope.
Open Scope Z_scope.

(** ** JavaScript strings *)

Module Js.

Definition chars (s : string) : list ascii := list_ascii_of_string s.
Definition str (l : list ascii) : string := string_of_list_ascii l.

Definition code (c : ascii) : nat := nat_of_ascii c.

(** [c] lies in the inclusive code range [lo..hi]. *)
Definition between (lo hi : nat) (c : ascii) : bool :=
  (Nat.leb lo (code c)) && (Nat.leb (code c) hi).

(** White space and line terminators of ECMAScript below code 256: TAB, LF,
    VT, FF, CR, SPACE and NBSP.  This is what [trim], [trimEnd] and the
    class [\s] strip or match. *)
Definition whitespace (c : ascii) : bool :=
  between 9 13 c || Nat.eqb (code c) 32 || Nat.eqb (code c) 160.

Fixpoint dropWhile {A} (p : A -> bool) (l : list A) : list A :=
  match l with
  | [] => []
  | x :: l' => if p x then dropWhile p l' else l
  end.

Definition trimStart (s : string) : string := str (dropWhile whitespace (chars s)).
Definition trimEnd (s : string) : string :=
  str (rev (dropWhile whitespace (rev (chars s)))).
Definition trim (s : string) : string := trimStart (trimEnd s).

Definition spaces (n : nat) : string := str (repeat " "%char n).

(** [s.padEnd(n, " ")] and [s.padStart(n, " ")]: a target length that is not
    above the length of [s] (negative included) leaves [s] as it is. *)
Definition padEnd (s : string) (n : Z) : string :=
  s +:+ spaces (Z.to_nat (n - Z.of_nat (String.length s))).
Definition padStart (s : string) (n : Z) : string :=
  spaces (Z.to_nat (n - Z.of_nat (String.length s))) +:+ s.

(** A relative index of [slice]: negative counts from the end, the result is
    clamped to [0..len]. *)
Definition clamp (len : nat) (i : Z) : nat :=
  if i <? 0 then Z.to_nat (Z.max (Z.of_nat len + i) 0)
  else Nat.min (Z.to_nat i) len.

(** [s.slice(from, to)] *)
Definition slice (s : string) (from to : Z) : string :=
  let len := String.length s in
  let a := clamp len from in
  let b := clamp len to in
  str (take (b - a) (drop a (chars s))).

(** [s.slice(from)] *)
Definition sliceFrom (s : string) (from : Z) : string :=
  str (drop (clamp (String.length s) from) (chars s)).

Definition startsWith (s p : string) : bool := String.prefix p s.

Definition endsWith (s p : string) : bool :=
  bool_decide (drop (length (chars s) - length (chars p)) (chars s) = chars p).

(** [s.indexOf(p)], [-1] when [p] does not occur. *)
Definition indexOf (s p : string) : Z :=
  match String.index 0 p s with
  | Some i => Z.of_nat i
  | None => -1
  end.

(** The upper case of one character, by the Unicode case mappings
    [toUpperCase] applies: [a-z] and the Latin-1 letters 224..254 except the
    division sign go 32 down, the sharp s (223) becomes two letters S, and
    the upper case of the micro sign (181) and of y with diaeresis (255) is
    a letter above code 255, U+039C and U+0178, which a [string] cannot
    hold: [None].  Every other character below 256 is its own upper
    case. *)
Definition upper (c : ascii) : option (list ascii) :=
  if Nat.eqb (code c) 223 then Some ["S"%char; "S"%char]
  else if Nat.eqb (code c) 181 || Nat.eqb (code c) 255 then None
  else if between 97 122 c || (between 224 254 c && negb (Nat.eqb (code c) 247))
  then Some [ascii_of_nat (code c - 32)]
  else Some [c].

Fixpoint upper_all (l : list ascii) : option (list ascii) :=
  match l with
  | [] => Some []
  | c :: l' =>
      match upper c, upper_all l' with
      | Some u, Some us => Some (u ++ us)
      | _, _ => None
      end
  end.

(** [s.toUpperCase()]; [None] when the result has a character above code
    255 and so is no [string]. *)
Definition toUpperCase (s : string) : option string :=
  option_map str (upper_all (chars s)).

(** [pieces.join("")] *)
Definition join (pieces : list string) : string :=
  fold_right String.append EmptyString pieces.

(** [s.replaceAll("'", "''")] *)
Fixpoint doubleQuotes (s : string) : string :=
  match s with
  | EmptyString => EmptyString
  | String c s' =>
      if Ascii.eqb c "'"%char then String c (String c (doubleQuotes s'))
      else String c (doubleQuotes s')
  end.

(** [s.replace("e", "E")]: the first occurrence only. *)
Fixpoint replaceFirst_e (s : string) : string :=
  match s with
  | EmptyString => EmptyString
  | String c s' =>
      if Ascii.eqb c "e"%char then String "E"%char s'
      else String c (replaceFirst_e s')
  end.

(** [s.split("E")] *)
Fixpoint splitE_go (cur : list ascii) (s : list ascii) : list string :=
  match s with
  | [] => [str (rev cur)]
  | c :: s' =>
      if Ascii.eqb c "E"%char then str (rev cur) :: splitE_go [] s'
      else splitE_go (c :: cur) s'
  end.
Definition splitE (s : string) : list string := splitE_go [] (chars s).

End Js.

(** ** Regular expressions

    A backtracking matcher for the fragment of ECMAScript regular expressions
    the sources use: character classes, sequence, ordered alternation, greedy
    and lazy bounded or unbounded repetition, named groups and the anchors
    [^] and [$] (no [m] flag anywhere).  The matcher is written in
    continuation-passing style, as the specification of the language is: a
    continuation is the rest of the pattern, and a failure of the
    continuation makes the matcher try its next choice. *)

Module Regex.

Inductive regex :=
| Eps
| Class (p : ascii -> bool)
| Cat (r1 r2 : regex)
| Or (r1 r2 : regex)
| Repeat (greedy : bool) (min : nat) (max : option nat) (r : regex)
| Group (name : string) (r : regex)
| Bol
| Eol.

(** Named groups that took part in the match, most recent first. *)
Definition captures := list (string * string).

(** The end index of a match and its groups. *)
Definition outcome := option (nat * captures).

(** A continuation receives what is left of the input. *)
Definition cont := list ascii -> captures -> outcome.

Definition max_is_zero (mx : option nat) : bool :=
  match mx with Some O => true | _ => false end.

Section Matcher.

(** Length of the whole input: the position of a suffix [s] is
    [total - length s]. *)
Variable total : nat.

Fixpoint rmatch (r : regex) (k : cont) (s : list ascii) (c : captures)
  {struct r} : outcome :=
  match r with
  | Eps => k s c
  | Class p =>
      match s with
      | a :: s' => if p a then k s' c else None
      | [] => None
      end
  | Cat r1 r2 => rmatch r1 (rmatch r2 k) s c
  | Or r1 r2 =>
      match rmatch r1 k s c with
      | Some z => Some z
      | None => rmatch r2 k s c
      end
  | Repeat g mn mx r' =>
      (* RepeatMatcher: an iteration that is not required and consumes
         nothing is rejected, so [mn + length s + 1] rounds are enough. *)
      (fix rep (fuel mn : nat) (mx : option nat) (s : list ascii)
           (c : captures) {struct fuel} : outcome :=
         match fuel with
         | O => None
         | S fuel' =>
             if max_is_zero mx then k s c
             else
               let d : cont := fun s' c' =>
                 if Nat.eqb mn 0 && Nat.eqb (length s') (length s) then None
                 else rep fuel' (Nat.pred mn) (option_map Nat.pred mx) s' c' in
               if negb (Nat.eqb mn 0) then rmatch r' d s c
               else if g then
                 match rmatch r' d s c with
                 | Some z => Some z
                 | None => k s c
                 end
               else
                 match k s c with
                 | Some z => Some z
                 | None => rmatch r' d s c
                 end
         end) (mn + length s + 1)%nat mn mx s c
  | Group name r' =>
      rmatch r'
        (fun s' c' =>
           k s' ((name, Js.str (take (length s - length s') s)) :: c'))
        s c
  | Bol => if Nat.eqb (length s) total then k s c else None
  | Eol => match s with [] => k s c | _ :: _ => None end
  end.

Definition final : cont := fun s c => Some ((total - length s)%nat, c).

(** The first position at or after the one of [s] where [r] matches. *)
Fixpoint search (r : regex) (s : list ascii) : outcome :=
  match rmatch r final s [] with
  | Some z => Some z
  | None =>
      match s with
      | [] => None
      | _ :: s' => search r s'
      end
  end.

End Matcher.

(** [r.exec(input)] for a regex without the [g] and [y] flags: the groups of
    the leftmost match. *)
Definition exec (r : regex) (input : string) : option captures :=
  let s := Js.chars input in
  match search (length s) r s with
  | Some (_, c) => Some c
  | None => None
  end.

(** [groups.name] *)
Fixpoint group (c : captures) (name : string) : option string :=
  match c with
  | [] => None
  | (n, v) :: c' => if String.eqb n name then Some v else group c' name
  end.

(** [r.test(input)] for a regex with the [g] flag, whose [lastIndex] is
    [lastIndex]: the search starts at [lastIndex]; a match moves [lastIndex]
    to its end, a failure puts it back to 0.  Returns the answer and the new
    [lastIndex]. *)
Definition test_g (r : regex) (lastIndex : nat) (input : string) : bool * nat :=
  let s := Js.chars input in
  if Nat.ltb (length s) lastIndex then (false, O)
  else
    match search (length s) r (drop lastIndex s) with
    | Some (e, _) => (true, e)
    | None => (false, O)
    end.

(** The longest text a pattern can match, when there is a bound. *)
Fixpoint max_len (r : regex) : option nat :=
  match r with
  | Eps | Bol | Eol => Some O
  | Class _ => Some 1%nat
  | Cat r1 r2 =>
      match max_len r1, max_len r2 with
      | Some n1, Some n2 => Some (n1 + n2)%nat
      | _, _ => None
      end
  | Or r1 r2 =>
      match max_len r1, max_len r2 with
      | Some n1, Some n2 => Some (Nat.max n1 n2)
      | _, _ => None
      end
  | Repeat _ _ mx r' =>
      match mx, max_len r' with
      | Some m, Some n => Some (m * n)%nat
      | _, _ => None
      end
  | Group _ r' => max_len r'
  end.

(** How many rounds a repetition runs at least. *)
Definition rounds (mn : nat) (mx : option nat) : nat :=
  match mx with
  | Some m => Nat.min mn m
  | None => mn
  end.

(** The shortest text a pattern can match. *)
Fixpoint min_len (r : regex) : nat :=
  match r with
  | Eps | Bol | Eol => O
  | Class _ => 1%nat
  | Cat r1 r2 => (min_len r1 + min_len r2)%nat
  | Or r1 r2 => Nat.min (min_len r1) (min_len r2)
  | Repeat _ mn mx r' => (rounds mn mx * min_len r')%nat
  | Group _ r' => min_len r'
  end.

(** The names of the groups of a pattern. *)
Fixpoint names (r : regex) : list string :=
  match r with
  | Cat r1 r2 | Or r1 r2 => names r1 ++ names r2
  | Repeat _ _ _ r' => names r'
  | Group name r' => name :: names r'
  | Eps | Class _ | Bol | Eol => []
  end.

(** Pattern syntax. *)
Definition chr (c : ascii) : regex := Class (Ascii.eqb c).
Definition oneOf (cs : string) : regex :=
  Class (fun c => existsb (Ascii.eqb c) (Js.chars cs)).
Definition digit : regex := Class (Js.between 48 57).
Definition star (r : regex) : regex := Repeat true 0 None r.
Definition plus (r : regex) : regex := Repeat true 1 None r.
Definition opt (r : regex) : regex := Repeat true 0 (Some 1%nat) r.
Definition lazy_star (r : regex) : regex := Repeat false 0 None r.
Definition lazy_plus (r : regex) : regex := Repeat false 1 None r.
Definition times (mn mx : nat) (r : regex) : regex := Repeat true mn (Some mx) r.

Fixpoint seq_of (rs : list regex) : regex :=
  match rs with
  | [] => Eps
  | [r] => r
  | r :: rs' => Cat r (seq_of rs')
  end.

Fixpoint alt_of (rs : list regex) : regex :=
  match rs with
  | [] => Class (fun _ => false)
  | [r] => r
  | r :: rs' => Or r (alt_of rs')
  end.

Definition lit (s : string) : regex := seq_of (map chr (Js.chars s)).

End Regex.

(** ** Exceptions, results and the state of the module-level regexes *)

(** One constructor for each [throw] of the sources, and for the two
    exceptions the engine raises on their behalf. *)
Inductive exn :=
(* card.ts *)
| HierarchTooLong      (* RangeError: HIERARCH keyword is too long *)
| InvalidKeyword       (* TypeError: Invalid keyword *)
| EndWithContent       (* TypeError: END card must have no value or comment *)
| ContinueNotString    (* TypeError: CONTINUE card must have a string value *)
| NonAsciiValue        (* TypeError: Invalid value, must be an ASCII string *)
| NonAsciiComment      (* TypeError: Invalid comment, must be an ASCII string *)
| CardTooLong          (* RangeError: Cannot create a card that exceeds 80 *)
| ImageLength          (* Error: Card image must be exactly 80 characters *)
| MalformedCard        (* Error: Failed to parse card image *)
(* header.ts *)
| NotRetrievable       (* TypeError: Cannot retrieve values for the keyword *)
| ExpectedInteger      (* TypeError: Expected an integer *)
| ExpectedReal         (* TypeError: Expected a real *)
| ExpectedLogical      (* TypeError: Expected a logical *)
| ExpectedString       (* TypeError: Expected a string *)
| KeywordNotMutable    (* TypeError: Cannot set value for the keyword *)
(* data.ts *)
| ArityMismatch        (* RangeError: Expected NAXIS coordinates *)
| NoData               (* RangeError: NAXIS is 0, no data available *)
| OutOfBounds          (* RangeError: Coordinates out of bounds *)
| UnsupportedBitDepth  (* TypeError: 64-bit integers are not supported *)
| ShapeMismatch        (* RangeError: Expected that many data points *)
(* raised by the engine *)
| UndefinedProperty    (* TypeError: cannot read properties of undefined/null *)
| DataViewRange        (* RangeError: offset is outside the bounds of the DataView *)
(* header.ts, copyWith and fromBuffer *)
| UnexpectedBITPIX     (* TypeError: Unexpected BITPIX value *)
| UnexpectedAxis       (* TypeError: Unexpected NAXISn value *)
| UnexpectedEndOfFile  (* Error: Unexpected end of file *)
| MissingSIMPLE        (* Error: Missing SIMPLE header *)
| UnexpectedSIMPLE     (* TypeError: Unexpected SIMPLE value *)
| MissingBITPIX        (* Error: Missing BITPIX header *)
| MissingNAXIS         (* Error: Missing NAXIS header *)
| UnexpectedNAXIS      (* TypeError: Unexpected NAXIS value *)
| MissingAxis          (* RangeError: Missing NAXISn header *)
(* fits.ts *)
| MismatchedNAXIS      (* Error: Mismatched NAXIS value *)
| DataLength.          (* RangeError: Expected that many bytes of data *)

Inductive result (A : Type) :=
| Ok (a : A)
| Throw (e : exn).
Arguments Ok {A} a.
Arguments Throw {A} e.

Definition rbind {A B} (r : result A) (k : A -> result B) : result B :=
  match r with
  | Ok a => k a
  | Throw e => Throw e
  end.

Notation "x <~ r ;; k" := (rbind r (fun x => k))
  (at level 62, r at next level, right associativity).

(** The [lastIndex] of every regex object created with the [g] flag at
    module level.  These objects live as long as the module: what one call
    leaves in [lastIndex] is what the next call of [test] starts from. *)
Record RegexState := mkRegexState {
  keywordRegex_lastIndex : nat;
  hierarchRegex_lastIndex : nat;
  asciiRegex_lastIndex : nat;
  fitsCardIntegerRegExp_lastIndex : nat;
  fitsCardRealRegExp_lastIndex : nat;
  fitsCardStringRegExp_lastIndex : nat;
  fitsCardLogicalRegExp_lastIndex : nat
}.

(** The state right after the modules are loaded. *)
Definition freshRegexState : RegexState := mkRegexState 0 0 0 0 0 0 0.

(** Computations over a state [S] that can throw. The state survives a
    throw: an exception does not undo what was written before it. *)
Definition M (S A : Type) : Type := S -> result A * S.

Definition ret {S A} (a : A) : M S A := fun st => (Ok a, st).
Definition throw {S A} (e : exn) : M S A := fun st => (Throw e, st).
Definition bind {S A B} (m : M S A) (k : A -> M S B) : M S B :=
  fun st =>
    match m st with
    | (Ok a, st') => k a st'
    | (Throw e, st') => (Throw e, st')
    end.
Definition lift {S A} (r : result A) : M S A := fun st => (r, st).

Notation "x <- m ;; k" := (bind m (fun x => k))
  (at level 62, m at next level, right associativity).

(** [r.test(input)] on one of the module-level regexes: [get] and [set] name
    the field of the state that holds its [lastIndex]. *)
Definition test (r : Regex.regex) (get : RegexState -> nat)
  (set : nat -> RegexState -> RegexState) (input : string) : M RegexState bool :=
  fun st =>
    let '(b, i) := Regex.test_g r (get st) input in
    (Ok b, set i st).

(** ** card.ts *)

Module Card.

Import Regex.

Definition CARD_LENGTH : Z := 80.
Definition KEYWORD_LENGTH : Z := 8.
Definition VALUE_INDICATOR : string := "= ".

Definition COMMENTARY_KEYWORDS : list string :=
  [EmptyString; "HISTORY"; "COMMENT"; "END"].
Definition SPECIAL_KEYWORDS : list string := COMMENTARY_KEYWORDS ++ ["CONTINUE"].

(** [list.includes(s)] *)
Definition includes (l : list string) (s : string) : bool :=
  existsb (String.eqb s) l.

(** A JavaScript number as a card holds it: [toString n] is the text
    [n.toString()] evaluates to (the shortest decimal form that reads back
    as the same double, [NaN], [Infinity] or [-Infinity]). *)
Record number := Number { toString : string }.

(** [FITSCardValue = string | number | [real, imaginary] | boolean | null] *)
Inductive FITSCardValue :=
| VString (s : string)
| VNumber (n : number)
| VComplex (re im : number)
| VBool (b : bool)
| VNull.

Definition is_string (v : FITSCardValue) : bool :=
  match v with VString _ => true | _ => false end.
Definition is_null (v : FITSCardValue) : bool :=
  match v with VNull => true | _ => false end.

(** [/^[A-Z0-9_-]{0,8}$/g] *)
Definition keywordRegex : regex :=
  seq_of [Bol;
          times 0 8 (Class (fun c => Js.between 65 90 c || Js.between 48 57 c
                                     || Ascii.eqb c "_" || Ascii.eqb c "-"));
          Eol].

(** The class [[A-Z0-9_-]] of [keywordRegex]. *)
Definition keyword_char (c : ascii) : bool :=
  Js.between 65 90 c || Js.between 48 57 c || Ascii.eqb c "_" || Ascii.eqb c "-".

(** [/^HIERARCH {2}[\x20-\x3C\x3E-\x7E]+$/g] *)
Definition hierarchRegex : regex :=
  seq_of [Bol; lit "HIERARCH"; times 2 2 (chr " ");
          plus (Class (fun c => Js.between 32 60 c || Js.between 62 126 c));
          Eol].

(** [/^[\x20-\x7E]*$/g] *)
Definition asciiRegex : regex :=
  seq_of [Bol; star (Class (Js.between 32 126)); Eol].

(** [numberRegex]: an optional sign; a point and digits, or digits with an
    optional point and optional digits; an optional exponent, [D] or [E]
    with an optional sign and digits. *)
Definition numberRegex : regex :=
  seq_of [opt (oneOf "+-");
          alt_of [Cat (chr ".") (plus digit);
                  Cat (plus digit) (opt (Cat (chr ".") (star digit)))];
          opt (seq_of [oneOf "DE"; opt (oneOf "+-"); plus digit])].

(** Any character but a line terminator. *)
Definition dot : regex :=
  Class (fun c => negb (Nat.eqb (Js.code c) 10 || Nat.eqb (Js.code c) 13)).

(** The pattern [valueCommentRegex] is assembled from: an optional [=] and
    blanks; one of a quoted string (group [value_str], lazy, followed by
    blanks and the closing quote), a logical (group [value_bool]), a real
    (group [value_real]) or a complex pair (groups [value_cplx_r] and
    [value_cplx_i]); blanks; an optional comment after a slash (group
    [comment], lazy); the end of the input. *)
Definition valueCommentRegex : regex :=
  seq_of [Bol; opt (chr "="); star (chr " ");
          alt_of [
            seq_of [chr "'";
                    Group "value_str"
                      (lazy_star (Or (Class (fun c => Js.between 32 38 c
                                                      || Js.between 40 126 c))
                                     (lit "''")));
                    star (chr " "); chr "'"];
            Group "value_bool" (oneOf "FT");
            Group "value_real" numberRegex;
            seq_of [chr "("; star (chr " "); Group "value_cplx_r" numberRegex;
                    star (chr " "); chr ","; star (chr " ");
                    Group "value_cplx_i" numberRegex; star (chr " "); chr ")"]];
          star (chr " ");
          opt (seq_of [chr "/"; star (chr " "); Group "comment" (lazy_plus dot);
                       star (chr " ")]);
          Eol].

Definition test_keywordRegex : string -> M RegexState bool :=
  test keywordRegex keywordRegex_lastIndex
    (fun i st => mkRegexState i (hierarchRegex_lastIndex st)
       (asciiRegex_lastIndex st) (fitsCardIntegerRegExp_lastIndex st)
       (fitsCardRealRegExp_lastIndex st) (fitsCardStringRegExp_lastIndex st)
       (fitsCardLogicalRegExp_lastIndex st)).

Definition test_hierarchRegex : string -> M RegexState bool :=
  test hierarchRegex hierarchRegex_lastIndex
    (fun i st => mkRegexState (keywordRegex_lastIndex st) i
       (asciiRegex_lastIndex st) (fitsCardIntegerRegExp_lastIndex st)
       (fitsCardRealRegExp_lastIndex st) (fitsCardStringRegExp_lastIndex st)
       (fitsCardLogicalRegExp_lastIndex st)).

Definition test_asciiRegex : string -> M RegexState bool :=
  test asciiRegex asciiRegex_lastIndex
    (fun i st => mkRegexState (keywordRegex_lastIndex st)
       (hierarchRegex_lastIndex st) i (fitsCardIntegerRegExp_lastIndex st)
       (fitsCardRealRegExp_lastIndex st) (fitsCardStringRegExp_lastIndex st)
       (fitsCardLogicalRegExp_lastIndex st)).

(** [realToString]: the text of the number with [E] for [e]; when that is
    longer than 20 characters it is split at [E] into mantissa and exponent
    and the mantissa is cut.  Without an [E] the split gives one piece,
    [exponent] is [undefined] and reading its [length] throws. *)
Definition realToString (n : number) : result string :=
  let output := Js.replaceFirst_e (toString n) in
  let len := String.length output in
  if Nat.ltb 20 len then
    match Js.splitE output with
    | mantissa :: exponent :: _ =>
        let mantissa :=
          Js.slice mantissa 0 (20 - Z.of_nat (String.length exponent)) in
        Ok (if Nat.ltb 0 (String.length exponent)
            then mantissa +:+ "E" +:+ exponent
            else mantissa)
    | _ => Throw UndefinedProperty
    end
  else Ok output.

(** The FITS fixed format of a value that is not a string: right-justified
    to column 30 when [fixFrom] is a number, as it is when [fixFrom] is
    [null] ([None]). *)
Definition fixed (raw : string) (fixFrom : option Z) : string :=
  match fixFrom with
  | Some f => Js.padStart raw (30 - f)
  | None => raw
  end.

(** [valueToString(value, fixFrom)] *)
Definition valueToString (value : FITSCardValue) (fixFrom : option Z)
  : result string :=
  match value with
  | VString s =>
      let raw := "'" +:+ Js.doubleQuotes s +:+ "'" in
      (* strings are left-justified *)
      match fixFrom with
      | Some f => Ok (Js.padEnd raw (30 - f))
      | None => Ok ("'" +:+ s +:+ "'")
      end
  | VNull => Ok (fixed EmptyString fixFrom)
  | VBool b => Ok (fixed (if b then "T" else "F") fixFrom)
  | VNumber n =>
      raw <~ realToString n ;;
      Ok (fixed raw fixFrom)
  | VComplex re im =>
      r <~ realToString re ;;
      i <~ realToString im ;;
      Ok (fixed ("(" +:+ r +:+ "," +:+ i +:+ ")") fixFrom)
  end.

(** A card: the 80-character image, the keyword, the value and the comment
    ([None] is [null]). *)
Record Card := mkCard {
  image : string;
  keyword : string;
  value : FITSCardValue;
  comment : option string
}.

(** [card.isBlank]: the pattern [/^\s+$/] is a literal without flags, so
    no [lastIndex] is involved. *)
Definition isBlank (card : Card) : bool :=
  match exec (seq_of [Bol; plus (Class Js.whitespace); Eol]) (image card) with
  | Some _ => true
  | None => false
  end.

(** [card.isHierarch] *)
Definition isHierarch (card : Card) : bool :=
  Js.startsWith (image card) "HIERARCH".

Definition len (s : string) : Z := Z.of_nat (String.length s).

(** The last statement of [fromValue]: pad the composed record to 80
    characters and build the card. *)
Definition finish (image imageValue commentValue keyword : string)
  (value : FITSCardValue) (comment : option string) : result Card :=
  Ok (mkCard (Js.padEnd (image +:+ imageValue +:+ commentValue) CARD_LENGTH)
        keyword value comment).

(** The second half of [fromValue], from [let image] on.  [hier] is the
    answer of the second [hierarchRegex.test(keyword)].  The two calls of
    [console.warn] are not part of the model. *)
Definition layout (hier : bool) (keyword : string) (value : FITSCardValue)
  (comment : option string) : result Card :=
  let image :=
    if hier then keyword +:+ " " else Js.padEnd keyword KEYWORD_LENGTH in
  let image :=
    image +:+ (if includes SPECIAL_KEYWORDS keyword then "  " else VALUE_INDICATOR) in
  imageValue <~ valueToString value (Some (len image)) ;;
  let commentValue :=
    match comment with
    | Some c => Js.trimEnd (" / " +:+ c)
    | None => EmptyString
    end in
  if CARD_LENGTH <? len image + len imageValue + len commentValue then
    imageValue <~ valueToString value None ;;
    if CARD_LENGTH <? len image + len imageValue + len commentValue then
      let maxCommentLength := CARD_LENGTH - len image - len imageValue in
      if maxCommentLength <? 0 then Throw CardTooLong
      else if maxCommentLength <? 6 then
        (* no comment whatsoever *)
        finish image imageValue EmptyString keyword value None
      else
        (* trimmed comment *)
        match comment with
        | Some c =>
            let comment := Js.slice c 0 (maxCommentLength - 6) +:+ "..." in
            finish image imageValue (" / " +:+ comment) keyword value (Some comment)
        | None => Throw UndefinedProperty
        end
    else finish image imageValue commentValue keyword value comment
  else finish image imageValue commentValue keyword value comment.

(** [Card.fromValue(keyword, value, comment)] *)
Definition fromValue (keyword : string) (value : FITSCardValue)
  (comment : option string) : M RegexState Card :=
  let keyword := Js.trimEnd keyword in
  h <- test_hierarchRegex keyword ;;
  if h && (CARD_LENGTH <? len keyword) then throw HierarchTooLong else
  k <- test_keywordRegex keyword ;;
  if negb k then throw InvalidKeyword else
  if String.eqb keyword "END" && (negb (is_null value) || bool_decide (comment <> None))
  then throw EndWithContent else
  if String.eqb keyword "CONTINUE" && negb (is_string value)
  then throw ContinueNotString else
  a <- match value with
       | VString s => test_asciiRegex s
       | _ => ret true
       end ;;
  if negb a then throw NonAsciiValue else
  b <- match comment with
       | Some c => test_asciiRegex c
       | None => ret true
       end ;;
  if negb b then throw NonAsciiComment else
  h2 <- test_hierarchRegex keyword ;;
  lift (layout h2 keyword value comment).

Section FromString.

(** [Number.parseFloat] on the texts [stringToReal] hands to it. *)
Variable parseFloat : string -> number.

(** [number.replace(/[de]/gi, "e")] *)
Definition exponent_e (s : string) : string :=
  Js.str (map (fun c => if existsb (Ascii.eqb c) (Js.chars "dDeE")
                        then "e"%char else c) (Js.chars s)).

Definition stringToReal (s : string) : number := parseFloat (exponent_e s).

(** A group that matched a non-empty text. *)
Definition truthy (g : option string) : option string :=
  match g with
  | Some s => if String.eqb s EmptyString then None else Some s
  | None => None
  end.

(** [Card.fromString(image, pad)] *)
Definition fromString (image : string) (pad : bool) : result Card :=
  image <~ (if pad then Ok (Js.padEnd image CARD_LENGTH)
            else if negb (len image =? CARD_LENGTH) then Throw ImageLength
            else Ok image) ;;
  let keyword := Js.trimEnd (Js.slice image 0 KEYWORD_LENGTH) in
  let valueComment := Js.sliceFrom image KEYWORD_LENGTH in
  if includes COMMENTARY_KEYWORDS keyword then
    let value :=
      if Js.startsWith valueComment VALUE_INDICATOR
      then Js.sliceFrom valueComment (len VALUE_INDICATOR)
      else valueComment in
    let value := Js.trim value in
    Ok (mkCard image keyword (VString value) None)
  else
    let '(keyword, valueComment) :=
      if String.eqb keyword "HIERARCH" then
        let vi := Js.indexOf valueComment VALUE_INDICATOR in
        (Js.trimEnd (Js.slice valueComment 0 vi),
         Js.sliceFrom valueComment (vi + len VALUE_INDICATOR))
      else (keyword, valueComment) in
    match exec valueCommentRegex valueComment with
    | None => Throw MalformedCard
    | Some groups =>
        let comment := group groups "comment" in
        let value :=
          match group groups "value_str" with
          | Some s => VString s
          | None =>
              match truthy (group groups "value_bool") with
              | Some b => VBool (String.eqb b "T")
              | None =>
                  match truthy (group groups "value_real") with
                  | Some r => VNumber (stringToReal r)
                  | None =>
                      match truthy (group groups "value_cplx_r"),
                            truthy (group groups "value_cplx_i") with
                      | Some r, Some i => VComplex (stringToReal r) (stringToReal i)
                      | _, _ => VNull
                      end
                  end
              end
          end in
        if String.eqb keyword "CONTINUE" && negb (is_string value)
        then Throw ContinueNotString
        else Ok (mkCard image keyword value comment)
    end.

End FromString.

End Card.

(** ** ArrayBuffer and DataView *)

Module DataView.

Definition buffer := list Byte.byte.

(** [new ArrayBuffer(n)] *)
Definition zeros (n : nat) : buffer := repeat Byte.x00 n.

Definition u8 (b : Byte.byte) : Z := Z.of_N (Byte.to_N b).

(** The unsigned integer a big-endian run of bytes stands for. *)
Definition big_endian (bs : buffer) : Z :=
  fold_left (fun acc b => acc * 256 + u8 b) bs 0.

(** Two's complement on [bits] bits. *)
Definition signed (bits : Z) (u : Z) : Z :=
  if u <? 2 ^ (bits - 1) then u else u - 2 ^ bits.

(** The [size] bytes at [offset].  A negative offset and a range that
    leaves the view are a RangeError. *)
Definition bytesAt (view : buffer) (offset : Z) (size : nat) : result buffer :=
  if (offset <? 0) || (Z.of_nat (length view) <? offset + Z.of_nat size)
  then Throw DataViewRange
  else Ok (take size (drop (Z.to_nat offset) view)).

(** [view.getUint8(offset)] *)
Definition getUint8 (view : buffer) (offset : Z) : result Byte.byte :=
  bs <~ bytesAt view offset 1 ;;
  match bs with
  | b :: _ => Ok b
  | [] => Throw DataViewRange
  end.

(** [view.getInt8(offset)], [view.getInt16(offset, false)] and
    [view.getInt32(offset, false)], by their size in bytes. *)
Definition getInt (size : nat) (view : buffer) (offset : Z) : result Z :=
  bs <~ bytesAt view offset size ;;
  Ok (signed (8 * Z.of_nat size) (big_endian bs)).

(** The bit pattern [view.getFloat32(offset, false)] and
    [view.getFloat64(offset, false)] decode. *)
Definition getBits (size : nat) (view : buffer) (offset : Z) : result Z :=
  bs <~ bytesAt view offset size ;;
  Ok (big_endian bs).

(** A setter of the view for an element of [size] bytes, [raw] being the
    bytes of the value: the range is checked first, against the length of
    the view, then the bytes are stored. *)
Definition set (size : nat) (view : buffer) (offset : Z) (raw : buffer)
  : result buffer :=
  if (offset <? 0) || (Z.of_nat (length view) <? offset + Z.of_nat size)
  then Throw DataViewRange
  else Ok (take (Z.to_nat offset) view ++ raw
             ++ drop (Z.to_nat offset + size) view).

(** [view.setUint8(offset, b)] *)
Definition setUint8 (view : buffer) (offset : Z) (b : Byte.byte) : result buffer :=
  set 1 view offset [b].

(** [for (let i = from; i < from + n; i++) body] on a view. *)
Fixpoint for_loop (n : nat) (from : nat)
  (body : nat -> buffer -> result buffer) (view : buffer) : result buffer :=
  match n with
  | O => Ok view
  | S n' => view' <~ body from view ;; for_loop n' (S from) body view'
  end.

End DataView.

(** ** Numbers

    A JavaScript number is an IEEE 754 double: a [spec_float] with 53 bits
    of precision and exponents below 1024, with the arithmetic the Standard
    Library specifies for it (rounding to the nearest double, ties to the
    even one). *)

Module Double.

Definition double : Type := spec_float.

Definition prec : Z := 53.
Definition emax : Z := 1024.

Definition NaN : double := S754_nan.

(** The double nearest to [m * 2^e]. *)
Definition dyadic (m e : Z) : double := binary_normalize prec emax m e false.

(** The double nearest to the integer [z]; it is [z] itself up to 53
    bits. *)
Definition ofZ (z : Z) : double := dyadic z 0.

(** [a + b] and [a * b] *)
Definition add : double -> double -> double := SFadd prec emax.
Definition mul : double -> double -> double := SFmul prec emax.

(** [a < b] and [a >= b]; with a [NaN] both are false. *)
Definition ltb : double -> double -> bool := SFltb.
Definition geb (a b : double) : bool := SFleb b a.

(** The integer part of a number, and 0 for [NaN] (ToIntegerOrInfinity);
    an infinite number has none. *)
Definition trunc (a : double) : option Z :=
  match a with
  | S754_nan | S754_zero _ => Some 0
  | S754_infinity _ => None
  | S754_finite s m e =>
      Some (cond_Zopp s (if 0 <=? e then Zpos m * 2 ^ e else Zpos m / 2 ^ (- e)))
  end.

(** [n] doublings of a positive number. *)
Fixpoint doubled (n : nat) (p : positive) : positive :=
  match n with
  | O => p
  | S n' => xO (doubled n' p)
  end.

(** The double of an integer of at most 53 bits, by its sign [s] and its
    magnitude [p]: the mantissa is [p] shifted to 53 digits. *)
Definition safe (s : bool) (p : positive) : double :=
  S754_finite s
    (doubled (Z.to_nat (53 - Zpos (digits2_pos p))) p)
    (Zpos (digits2_pos p) - 53).

(** The double that is the integer [z], for [z] of at most 53 bits. *)
Definition exact (z : Z) : double :=
  match z with
  | Z0 => S754_zero false
  | Zpos p => safe false p
  | Zneg p => safe true p
  end.

(** A number above zero, infinity included. *)
Definition aboveZero (x : double) : Prop :=
  (exists m e, x = S754_finite false m e) \/ x = S754_infinity false.

(** A zero of either sign, or [NaN]. *)
Definition zeroOrNaN (x : double) : Prop :=
  x = S754_nan \/ exists s, x = S754_zero s.

(** What [DataView] makes of an offset before it reads (ToIndex): the
    integer part, which has to lie between 0 and [2^53 - 1].  [None] is the
    RangeError. *)
Definition toIndex (a : double) : option Z :=
  match trunc a with
  | Some i => if (i <? 0) || (2 ^ 53 - 1 <? i) then None else Some i
  | None => None
  end.

End Double.

(** ** header.ts *)

Module FITSHeader.

Import Regex.
Export Card.

Definition digits (mn mx : nat) : regex := times mn mx digit.

(** The four keyword tables.  In each pattern the alternation is the
    outermost operator, so [^] belongs to the first alternative and [$] to
    the last one only; all four carry the [g] flag. *)

Definition fitsCardIntegerRegExp : regex :=
  alt_of [Cat Bol (lit "BITPIX"); lit "BLANK"; lit "EXTLEVEL"; lit "EXTVER";
          lit "GCOUNT"; Cat (lit "NAXIS") (digits 0 3); lit "PCOUNT";
          Cat (lit "TBCOL") (digits 1 3); lit "TFIELDS"; Cat (lit "THEAP") Eol].

Definition fitsCardRealRegExp : regex :=
  alt_of [Cat Bol (lit "BSCALE"); lit "BZERO"; Cat (lit "CDELT") (digits 1 3);
          Cat (lit "CROTA") (digits 1 3); Cat (lit "CRPIX") (digits 1 3);
          Cat (lit "CRVAL") (digits 1 3); lit "DATAMAX"; lit "DATAMIN";
          lit "EPOCH"; lit "EQUINOX"; Cat (lit "PSCAL") (digits 1 3);
          Cat (lit "PZERO") (digits 1 3); Cat (lit "TSCAL") (digits 1 3);
          seq_of [lit "TZERO"; digits 1 3; Eol]].

Definition fitsCardStringRegExp : regex :=
  alt_of [Cat Bol (lit "AUTHOR"); lit "BUNIT"; Cat (lit "CTYPE") (digits 1 3);
          Cat (lit "DATE") (times 0 4 (Class (fun c => negb (Js.whitespace c))));
          lit "EXTNAME"; lit "INSTRUME"; lit "OBJECT"; lit "OBSERVER";
          lit "ORIGIN"; Cat (lit "PTYPE") (digits 1 3); lit "REFERENC";
          Cat (lit "TDIM") (digits 1 3); Cat (lit "TDISP") (digits 1 3);
          lit "TELESCOP"; Cat (lit "TFORM") (digits 1 3);
          Cat (lit "TTYPE") (digits 1 3); Cat (lit "TUNIT") (digits 1 3);
          Cat (lit "XTENSION") Eol].

Definition fitsCardLogicalRegExp : regex :=
  alt_of [Cat Bol (lit "BLOCKED"); lit "EXTEND"; lit "GROUPS";
          Cat (lit "SIMPLE") Eol].

Definition isFITSCardInteger : string -> M RegexState bool :=
  test fitsCardIntegerRegExp fitsCardIntegerRegExp_lastIndex
    (fun i st => mkRegexState (keywordRegex_lastIndex st)
       (hierarchRegex_lastIndex st) (asciiRegex_lastIndex st) i
       (fitsCardRealRegExp_lastIndex st) (fitsCardStringRegExp_lastIndex st)
       (fitsCardLogicalRegExp_lastIndex st)).

Definition isFITSCardReal : string -> M RegexState bool :=
  test fitsCardRealRegExp fitsCardRealRegExp_lastIndex
    (fun i st => mkRegexState (keywordRegex_lastIndex st)
       (hierarchRegex_lastIndex st) (asciiRegex_lastIndex st)
       (fitsCardIntegerRegExp_lastIndex st) i
       (fitsCardStringRegExp_lastIndex st)
       (fitsCardLogicalRegExp_lastIndex st)).

Definition isFITSCardString : string -> M RegexState bool :=
  test fitsCardStringRegExp fitsCardStringRegExp_lastIndex
    (fun i st => mkRegexState (keywordRegex_lastIndex st)
       (hierarchRegex_lastIndex st) (asciiRegex_lastIndex st)
       (fitsCardIntegerRegExp_lastIndex st)
       (fitsCardRealRegExp_lastIndex st) i
       (fitsCardLogicalRegExp_lastIndex st)).

Definition isFITSCardLogical : string -> M RegexState bool :=
  test fitsCardLogicalRegExp fitsCardLogicalRegExp_lastIndex
    (fun i st => mkRegexState (keywordRegex_lastIndex st)
       (hierarchRegex_lastIndex st) (asciiRegex_lastIndex st)
       (fitsCardIntegerRegExp_lastIndex st)
       (fitsCardRealRegExp_lastIndex st)
       (fitsCardStringRegExp_lastIndex st) i).

(** No search for the pattern in the keyword succeeds, wherever it
    starts: [test] says no for every [lastIndex].  (Not in the sources; the
    statements about [getValues] use it.) *)
Definition never_matches (r : regex) (keyword : string) : bool :=
  let s := Js.chars keyword in
  forallb (fun i =>
             match search (length s) r (drop i s) with
             | Some _ => false
             | None => true
             end)
    (seq 0 (S (length s))).

Definition contains (s p : string) : bool :=
  match String.index 0 p s with Some _ => true | None => false end.

(** [Number.isFinite] and [Number.isInteger], read off the text of the
    number: an integer prints without a point and without an exponent, or,
    from 1e21 on, with a positive exponent. *)
Definition isFinite (n : number) : bool :=
  negb (includes ["NaN"; "Infinity"; "-Infinity"] (toString n)).
Definition isInteger (n : number) : bool :=
  isFinite n &&
  (contains (toString n) "e+"
   || (negb (contains (toString n) ".") && negb (contains (toString n) "e"))).

(** The header object: its private field [#cards]. *)
Record FITSHeader := mkHeader { cards : list Card }.

(** [this.#cards.map((c, i) => [c, i])] *)
Fixpoint indexed_from (i : nat) (l : list Card) : list (Card * nat) :=
  match l with
  | [] => []
  | c :: l' => (c, i) :: indexed_from (S i) l'
  end.
Definition indexed (l : list Card) : list (Card * nat) := indexed_from 0 l.

(** The pairs whose card has the keyword. *)
Definition matching (keyword : string) (l : list Card) : list (Card * nat) :=
  List.filter (fun p => String.eqb (Card.keyword (fst p)) keyword) (indexed l).

(** The standard-compliance check on one card of [getValues].  Each [else
    if] runs the [test] of the next table only when the one before said
    no. *)
Definition validate (card : Card) : M RegexState unit :=
  i <- isFITSCardInteger (keyword card) ;;
  if i then
    match value card with
    | VNumber n => if isInteger n then ret tt else throw ExpectedInteger
    | _ => throw ExpectedInteger
    end
  else
  r <- isFITSCardReal (keyword card) ;;
  if r then
    match value card with
    | VNumber n => if isFinite n then ret tt else throw ExpectedReal
    | _ => throw ExpectedReal
    end
  else
  l <- isFITSCardLogical (keyword card) ;;
  if l then
    match value card with
    | VBool _ => ret tt
    | _ => throw ExpectedLogical
    end
  else
  s <- isFITSCardString (keyword card) ;;
  if s then
    match value card with
    | VString _ => ret tt
    | _ => throw ExpectedString
    end
  else ret tt.

(** What [+] makes of a card value on the right of a string. *)
Definition toJsString (v : FITSCardValue) : string :=
  match v with
  | VString s => s
  | VNumber n => toString n
  | VComplex re im => toString re +:+ "," +:+ toString im
  | VBool b => if b then "true" else "false"
  | VNull => "null"
  end.

(** The [while] loop of [getValues] on a string value [v]; [rest] is the
    cards after the one at hand, [rest = cards.slice(i + 1)]. *)
Fixpoint resolve (v : string) (rest : list Card) : string :=
  match rest with
  | [] => v
  | c :: rest' =>
      if Js.endsWith v "&" && String.eqb (keyword c) "CONTINUE"
      then resolve (Js.slice v 0 (-1) +:+ toJsString (value c)) rest'
      else v
  end.

(** The body of the [for] loop of [getValues], over the matching cards. *)
Fixpoint collect (all : list Card) (ms : list (Card * nat))
  (values : list FITSCardValue) : M RegexState (list FITSCardValue) :=
  match ms with
  | [] => ret values
  | (card, index) :: ms' =>
      _ <- validate card ;;
      match value card with
      | VString v =>
          collect all ms' (values ++ [VString (resolve v (drop (S index) all))])
      | other => collect all ms' (values ++ [other])
      end
  end.

(** [header.getValues(keyword)].  When the upper-cased keyword has a
    character above code 255 it is not CONTINUE, not empty and the keyword
    of no card, the keywords of the cards being [string]s: the loop runs
    over no card. *)
Definition getValues (h : FITSHeader) (keyword : string)
  : M RegexState (list FITSCardValue) :=
  match Js.toUpperCase (Js.trim keyword) with
  | Some keyword =>
      if String.eqb keyword "CONTINUE" || String.eqb keyword EmptyString
      then throw NotRetrievable
      else collect (cards h) (matching keyword (cards h)) []
  | None => ret []
  end.

(** [header.getValue(keyword)]: [None] is [undefined]. *)
Definition getValue (h : FITSHeader) (keyword : string)
  : M RegexState (option FITSCardValue) :=
  vs <- getValues h keyword ;;
  ret (head vs).

(** The state a method that writes to its receiver works on: the regexes
    and the receiver.  There is one [#cards] array for each header object,
    and [push] and [splice] change it in place. *)
Record World := mkWorld { regexes : RegexState; this : FITSHeader }.

Definition liftR {A} (m : M RegexState A) : M World A :=
  fun w =>
    let '(r, st) := m (regexes w) in
    (r, mkWorld st (this w)).

Definition getCards : M World (list Card) := fun w => (Ok (cards (this w)), w).
Definition setCards (l : list Card) : M World unit :=
  fun w => (Ok tt, mkWorld (regexes w) (mkHeader l)).

(** How many cards at the front of [l] are [CONTINUE] cards. *)
Fixpoint continue_run (l : list Card) : nat :=
  match l with
  | [] => O
  | c :: l' => if String.eqb (keyword c) "CONTINUE" then S (continue_run l') else O
  end.

(** [array[index]] for a number [index]. *)
Definition at_index {A} (l : list A) (index : Z) : option A :=
  if index <? 0 then None else l !! Z.to_nat index.

(** [header.setValue(keyword, value, index)]; a [value] of [None] is
    [undefined].  The result is the number the method returns. *)
Definition setValue (keyword : string) (value : option FITSCardValue)
  (index : Z) : M World Z :=
  if String.eqb keyword "SIMPLE" || String.eqb keyword "CONTINUE"
     || String.eqb keyword "BITPIX" || Js.startsWith keyword "NAXIS"
  then throw KeywordNotMutable
  else
    all <- getCards ;;
    let cards := matching keyword all in
    if index <=? Z.of_nat (length cards) then
      match value with
      | Some v =>
          card <- liftR (Card.fromValue keyword v None) ;;
          all <- getCards ;;
          _ <- setCards (all ++ [card]) ;;
          ret (Z.of_nat (length (all ++ [card])) - 1)
      | None => ret (-1) (* No card to remove *)
      end
    else
      match at_index cards index with
      | None => throw UndefinedProperty
      | Some (_, pos) =>
          let n := S (continue_run (drop (S pos) all)) in
          _ <- setCards (take pos all ++ drop (pos + n) all) ;;
          match value with
          | Some v =>
              card <- liftR (Card.fromValue keyword v None) ;;
              all <- getCards ;;
              _ <- setCards (take pos all ++ card :: drop pos all) ;;
              ret index
          | None => ret index
          end
      end.

(** [TextEncoder.encode]: UTF-8, one byte below code 128 and two from there
    to code 255. *)
Definition utf8_char (c : ascii) : list Byte.byte :=
  let n := N_of_ascii c in
  if (n <? 128)%N then [byte_of_ascii c]
  else match Byte.of_N (192 + n / 64), Byte.of_N (128 + n mod 64) with
       | Some b1, Some b2 => [b1; b2]
       | _, _ => []
       end.
Definition encode (s : string) : list Byte.byte :=
  concat (map utf8_char (Js.chars s)).

(** [for (let j = 0; j < recordBuffer.byteLength; j++)
      view.setUint8(i * Card.LENGTH + j, recordBuffer[j])] *)
Definition write_record (i : nat) (recordBuffer : DataView.buffer)
  (view : DataView.buffer) : result DataView.buffer :=
  DataView.for_loop (length recordBuffer) 0
    (fun j view =>
       match recordBuffer !! j with
       | Some b => DataView.setUint8 view (Z.of_nat i * CARD_LENGTH + Z.of_nat j) b
       | None => Ok view
       end)
    view.

(** [header.toBuffer()] *)
Definition toBuffer (h : FITSHeader) : M RegexState DataView.buffer :=
  endCard <- Card.fromValue "END" VNull None ;;
  let cards := cards h ++ [endCard] in
  let buffer := DataView.zeros (length cards * Z.to_nat CARD_LENGTH) in
  lift (DataView.for_loop (length cards) 0
          (fun i view =>
             match cards !! i with
             | Some card => write_record i (encode (image card)) view
             | None => Ok view
             end)
          buffer).

(** [header.toJSON()].  The body of its loop: the first card of a keyword
    sets the entry of the keyword, a later one pushes its value onto the
    array of the entry. *)
Definition record (entries : gmap string (list FITSCardValue)) (card : Card)
  : gmap string (list FITSCardValue) :=
  match entries !! keyword card with
  | None => <[keyword card := [value card]]> entries
  | Some values => <[keyword card := values ++ [value card]]> entries
  end.

(** The properties of the object [toJSON] returns. *)
Definition toJSON (h : FITSHeader) : gmap string (list FITSCardValue) :=
  fold_left record (cards h) ∅.

(** An integer as a number: below 1e21 in absolute value its text is its
    decimal digits, with a sign when it is negative. *)
Definition integer (z : Z) : number :=
  Number (DecimalString.NilZero.string_of_int (Z.to_int z)).

(** [`${i}`] for a count [i]. *)
Definition decimal (i : nat) : string :=
  DecimalString.NilZero.string_of_uint (Nat.to_uint i).

(** The first loop of [copyWith], over axis lengths that are integers: one
    that is not positive is a TypeError. *)
Definition check_axes (axes : list Z) : result unit :=
  if forallb (fun value => 0 <? value) axes then Ok tt else Throw UnexpectedAxis.

(** [axes.map((value, i) => Card.fromValue(`NAXIS${i + 1}`, value,
    "Axis length"))], from index [i] on. *)
Fixpoint axis_cards (i : nat) (axes : list Z) : M RegexState (list Card) :=
  match axes with
  | [] => ret []
  | value :: axes' =>
      card <- Card.fromValue ("NAXIS" +:+ decimal (S i)) (VNumber (integer value))
                (Some "Axis length") ;;
      rest <- axis_cards (S i) axes' ;;
      ret (card :: rest)
  end.

(** [header.copyWith(BITPIX, axes)]; [BITPIX] is the number handed in, which
    the method checks. *)
Definition copyWith (h : FITSHeader) (BITPIX : Z) (axes : list Z)
  : M RegexState FITSHeader :=
  if negb (existsb (Z.eqb BITPIX) [8; 16; 32; 64; -32; -64])
  then throw UnexpectedBITPIX else
  _ <- lift (check_axes axes) ;;
  simple <- Card.fromValue "SIMPLE" (VBool true) (Some "Fits standard") ;;
  bitpix <- Card.fromValue "BITPIX" (VNumber (integer BITPIX))
              (Some "Bits per pixel") ;;
  naxis <- Card.fromValue "NAXIS" (VNumber (integer (Z.of_nat (length axes))))
             (Some "Number of axes") ;;
  naxisn <- axis_cards 0 axes ;;
  ret (mkHeader
         ([simple; bitpix; naxis] ++ naxisn
          ++ List.filter
               (fun card =>
                  negb (String.eqb (keyword card) "SIMPLE")
                  && negb (String.eqb (keyword card) "BITPIX")
                  && negb (Js.startsWith (keyword card) "NAXIS"))
               (cards h))).

(** [FITSHeader.basic(BITPIX, axes)] *)
Definition basic (BITPIX : Z) (axes : list Z) : M RegexState FITSHeader :=
  copyWith (mkHeader []) BITPIX axes.

(** The number a run of decimal digits stands for. *)
Fixpoint natural_from (acc : Z) (l : list ascii) : option Z :=
  match l with
  | [] => Some acc
  | c :: l' =>
      if Js.between 48 57 c
      then natural_from (acc * 10 + (Z.of_nat (Js.code c) - 48)) l'
      else None
  end.
Definition natural (l : list ascii) : option Z :=
  match l with
  | [] => None
  | _ :: _ => natural_from 0 l
  end.

Fixpoint takeWhile {A} (p : A -> bool) (l : list A) : list A :=
  match l with
  | [] => []
  | x :: l' => if p x then x :: takeWhile p l' else []
  end.

(** The integer a number is, read off its text: digits, after a sign
    when it is negative; from 1e21 on, a mantissa [d] or [d.ddd] and an
    exponent [e+NN].  [None] for a number that is not an integer.  (Up to
    2^53 this is the number itself; beyond, it is the number its shortest
    text stands for, which rounds to it.) *)
Definition toZ (n : number) : option Z :=
  if negb (isInteger n) then None
  else
    let '(sign, body) :=
      match Js.chars (toString n) with
      | "-"%char :: l => (-1, l)
      | l => (1, l)
      end in
    let mantissa := takeWhile (fun c => negb (Ascii.eqb c "e")) body in
    let exponent := drop (length mantissa + 2) body in
    let whole := takeWhile (fun c => negb (Ascii.eqb c ".")) mantissa in
    let fraction := drop (length whole + 1) mantissa in
    match natural (whole ++ fraction),
          (match exponent with [] => Some 0 | _ :: _ => natural exponent end) with
    | Some m, Some e => Some (sign * m * 10 ^ (e - Z.of_nat (length fraction)))
    | _, _ => None
    end.

(** [value === true] *)
Definition is_true (v : FITSCardValue) : bool :=
  match v with VBool true => true | _ => false end.

(** [value] is one of the numbers 8, 16, 32, 64, -32 and -64. *)
Definition is_BITPIX (v : FITSCardValue) : bool :=
  match v with
  | VNumber n =>
      match toZ n with
      | Some z => existsb (Z.eqb z) [8; 16; 32; 64; -32; -64]
      | None => false
      end
  | _ => false
  end.

(** [value] is an integer number from 0 to 999: the number of axes. *)
Definition as_NAXIS (v : FITSCardValue) : option nat :=
  match v with
  | VNumber n =>
      match toZ n with
      | Some z => if (0 <=? z) && (z <=? 999) then Some (Z.to_nat z) else None
      | None => None
      end
  | _ => None
  end.

(** [value] is an integer number above 0: the length of an axis. *)
Definition is_axis_length (v : FITSCardValue) : bool :=
  match v with
  | VNumber n =>
      match toZ n with
      | Some z => 0 <? z
      | None => false
      end
  | _ => false
  end.

(** [while (cards.at(-1)?.isBlank) cards.pop()] *)
Definition trimBlanks (cards : list Card) : list Card :=
  rev (Js.dropWhile isBlank (rev cards)).

Section FromBuffer.

Variable parseFloat : string -> number.

(** [new TextDecoder("ascii").decode(buffer)], a built-in: one character
    for each byte. *)
Variable decode : DataView.buffer -> string.

(** The loop of [fromBuffer] that reads the records, from the record at
    [offset] on.  Every round moves on by 80 bytes, and a round that finds
    fewer than 80 bytes throws: of [fuel], one round more than the file has
    whole records, the last is never used. *)
Fixpoint read_records (fuel : nat) (file : DataView.buffer) (offset : nat)
  (cards : list Card) : result (list Card * nat) :=
  match fuel with
  | O => Throw UnexpectedEndOfFile
  | S fuel' =>
      let buffer := take 80 (drop offset file) in
      if Nat.ltb (length buffer) 80 then Throw UnexpectedEndOfFile
      else
        card <~ Card.fromString parseFloat (decode buffer) true ;;
        if String.eqb (keyword card) "END" then Ok (cards, offset)
        else read_records fuel' file (offset + 80) (cards ++ [card])
  end.

(** [for (let i = 1; i <= NAXIS[0]; i++)], from [i] on with [count] rounds
    to go. *)
Fixpoint check_NAXISn (header : FITSHeader) (i count : nat) : M RegexState unit :=
  match count with
  | O => ret tt
  | S count' =>
      values <- getValues header ("NAXIS" +:+ decimal i) ;;
      _ <- lift (match values with
                 | [v] => if is_axis_length v then Ok tt else Throw UnexpectedAxis
                 | _ => Throw MissingAxis
                 end) ;;
      check_NAXISn header (S i) count'
  end.

(** [FITSHeader.fromBuffer(file)]: the header and [bytesRead]. *)
Definition fromBuffer (file : DataView.buffer) : M RegexState (FITSHeader * nat) :=
  read <- lift (read_records (S (length file / 80)) file 0 []) ;;
  let '(cards, offset) := read in
  let header := mkHeader (trimBlanks cards) in
  (* Validate mandatory headers *)
  SIMPLE <- getValues header "SIMPLE" ;;
  _ <- lift (match SIMPLE with
             | [v] => if is_true v then Ok tt else Throw UnexpectedSIMPLE
             | _ => Throw MissingSIMPLE
             end) ;;
  BITPIX <- getValues header "BITPIX" ;;
  _ <- lift (match BITPIX with
             | [v] => if is_BITPIX v then Ok tt else Throw UnexpectedBITPIX
             | _ => Throw MissingBITPIX
             end) ;;
  NAXIS <- getValues header "NAXIS" ;;
  count <- lift (match NAXIS with
                 | [v] =>
                     match as_NAXIS v with
                     | Some count => Ok count
                     | None => Throw UnexpectedNAXIS
                     end
                 | _ => Throw MissingNAXIS
                 end) ;;
  _ <- check_NAXISn header 1 count ;;
  ret (header, offset).

End FromBuffer.

End FITSHeader.

(** ** data.ts *)

Module FITSData.

Import DataView.

(** [FITSBITPIX = 8 | 16 | 32 | 64 | -32 | -64] *)
Inductive FITSBITPIX := B8 | B16 | B32 | B64 | Bm32 | Bm64.

Definition bitpix (b : FITSBITPIX) : Z :=
  match b with
  | B8 => 8 | B16 => 16 | B32 => 32 | B64 => 64 | Bm32 => -32 | Bm64 => -64
  end.

(** [Math.abs(BITPIX) / 8] *)
Definition wordBytes (b : FITSBITPIX) : Z := Z.abs (bitpix b) / 8.

(** A number of the coordinate and offset arithmetic of [getData], which
    counts up from 1 and from 0: an integer, or the [NaN] that arithmetic
    makes of the [undefined] an array gives past its end. *)
Inductive num := Num (z : Z) | NaN.

Definition nadd (a b : num) : num :=
  match a, b with Num x, Num y => Num (x + y) | _, _ => NaN end.
(** Every comparison with [NaN] is false. *)
Definition nlt (a b : num) : bool :=
  match a, b with Num x, Num y => x <? y | _, _ => false end.
Definition ngt (a b : num) : bool := nlt b a.

(** A data point as [DataView] decodes it from its word: the integer of an
    integer word, or the float with the bit pattern of an IEEE word (the
    patterns of NaN are told apart here, which no statement below relies
    on). *)
Inductive word :=
| Int (z : Z)
| Float32 (bits : Z)
| Float64 (bits : Z).

Record FITSData := mkData {
  BITPIX : FITSBITPIX;
  NAXIS : Z;
  NAXISn : list Z;
  dataBuffer : buffer
}.

(** [this.#dataView.byteLength] *)
Definition byteLength (d : FITSData) : Z := Z.of_nat (length (dataBuffer d)).

(** [axes.reduce((accum, len) => accum * len, 1)] *)
Definition points (axes : list Z) : Z := fold_left Z.mul axes 1.

(** The invariant of a data matrix: as many axis lengths as [NAXIS] says,
    all positive, and a buffer of one word for each point. *)
Definition wellShaped (d : FITSData) : Prop :=
  NAXIS d = Z.of_nat (length (NAXISn d))
  /\ Forall (fun n => 0 < n) (NAXISn d)
  /\ byteLength d = points (NAXISn d) * wordBytes (BITPIX d).

(** The number of the point at the zero-based coordinates [coords], in the
    order of the buffer: [c1 + N1 * (c2 + N2 * (c3 + ...))]. *)
Fixpoint linear (axes coords : list Z) : Z :=
  match axes, coords with
  | n :: axes', c :: coords' => c + n * linear axes' coords'
  | _, _ => 0
  end.

(** The one-based coordinates of point number [k], the first axis running
    fastest. *)
Fixpoint coordinatesOf (axes : list Z) (k : Z) : list Z :=
  match axes with
  | [] => []
  | n :: axes' => (1 + k mod n) :: coordinatesOf axes' (k / n)
  end.

(** [this.NAXISn[i]] in the arithmetic of [getPoint]: the length of the
    axis as a double, and [undefined] past the end of the array, which
    the multiplication turns into [NaN]. *)
Definition axis (d : FITSData) (i : nat) : Double.double :=
  match NAXISn d !! i with
  | Some n => Double.ofZ n
  | None => Double.NaN
  end.

(** [DataView] turns the offset into an index first: [NaN] becomes 0. *)
Definition toIndex (offset : num) : Z :=
  match offset with Num z => z | NaN => 0 end.

(** [#readPoint(offset)] *)
Definition readPoint (d : FITSData) (offset : num) : result word :=
  match BITPIX d with
  | B8 => z <~ getInt 1 (dataBuffer d) (toIndex offset) ;; Ok (Int z)
  | B16 => z <~ getInt 2 (dataBuffer d) (toIndex offset) ;; Ok (Int z)
  | B32 => z <~ getInt 4 (dataBuffer d) (toIndex offset) ;; Ok (Int z)
  | B64 => Throw UnsupportedBitDepth
  | Bm32 => z <~ getBits 4 (dataBuffer d) (toIndex offset) ;; Ok (Float32 z)
  | Bm64 => z <~ getBits 8 (dataBuffer d) (toIndex offset) ;; Ok (Float64 z)
  end.

(** [#readPoint(offset)] for the offset [getPoint] has computed, a double.
    The [switch] on [BITPIX] comes first; then [DataView] turns the offset
    into an index, or throws its RangeError. *)
Definition readPointAt (d : FITSData) (offset : Double.double) : result word :=
  match BITPIX d with
  | B64 => Throw UnsupportedBitDepth
  | _ =>
      match Double.toIndex offset with
      | Some index => readPoint d (Num index)
      | None => Throw DataViewRange
      end
  end.

(** The [for] loop of [getPoint]; it runs once for each coordinate, the
    number of coordinates being [NAXIS] when the loop is reached.  The
    coordinates are the numbers the caller gives, and [mul] and [offset]
    are numbers: every sum and every product is rounded to a double. *)
Fixpoint offset_loop (d : FITSData) (coords : list Double.double) (i : nat)
  (mul offset : Double.double) : Double.double :=
  match coords with
  | [] => offset
  | c :: coords' =>
      offset_loop d coords' (S i) (Double.mul mul (axis d i))
        (Double.add offset (Double.mul c mul))
  end.

(** The byte offset [getPoint] computes from the coordinates. *)
Definition byteOffset (d : FITSData) (coords : list Double.double)
  : Double.double :=
  Double.mul (offset_loop d coords 0 (Double.ofZ 1) (Double.ofZ 0))
    (Double.ofZ (wordBytes (BITPIX d))).

(** [data.getPoint(...coords)] *)
Definition getPoint (d : FITSData) (coords : list Double.double) : result word :=
  if negb (Z.of_nat (length coords) =? NAXIS d) then Throw ArityMismatch
  else if NAXIS d =? 0 then Throw NoData
  else
    let offset := byteOffset d coords in
    if Double.ltb offset (Double.ofZ 0)
       || Double.geb offset (Double.ofZ (byteLength d))
    then Throw OutOfBounds
    else readPointAt d offset.

(** Integer coordinates small enough for the arithmetic of [getPoint] to
    be exact on them: the sum of the strides they address, each taken
    without its sign, stays below [2^53] bytes, as the length of the buffer
    does. *)
Definition exactFor (d : FITSData) (coords : list Z) : Prop :=
  byteLength d < 2 ^ 53
  /\ linear (NAXISn d) (map Z.abs coords) * wordBytes (BITPIX d) < 2 ^ 53.

(** [coords[i]], [undefined] being [NaN] for the arithmetic that follows. *)
Definition coord (coords : list num) (i : nat) : num :=
  match coords !! i with
  | Some c => c
  | None => NaN
  end.

(** [coords[i]++]: past the end the array grows, and what is stored is
    [NaN]. *)
Definition incr (coords : list num) (i : nat) : list num :=
  match coords !! i with
  | Some c => <[i := nadd c (Num 1)]> coords
  | None => coords ++ repeat NaN (i - length coords) ++ [NaN]
  end.

(** The [while] loop of [getData] that carries into the next axis; [axes]
    is what is left of [NAXISn] from index [i] on, and with nothing left
    [NAXISn[i]] is [undefined] and the comparison is false. *)
Fixpoint carry (axes : list Z) (coords : list num) (i : nat) : list num :=
  match axes with
  | [] => coords
  | n :: axes' =>
      if ngt (coord coords i) (Num n)
      then carry axes' (incr (<[i := Num 1]> coords) (S i)) (S i)
      else coords
  end.

(** How a run of the generator ends. *)
Inductive ending := Done | Thrown (e : exn) | OutOfFuel.

(** What the generator yields, in order, and how it ends. *)
Definition trace : Type := list (list num * word) * ending.

(** The [do ... while] loop of [getData]. *)
Fixpoint sweep (fuel : nat) (d : FITSData) (coords : list num) (offset : Z)
  (yielded : list (list num * word)) : trace :=
  match fuel with
  | O => (yielded, OutOfFuel)
  | S fuel' =>
      match readPoint d (Num offset) with
      | Throw e => (yielded, Thrown e)
      | Ok value =>
          let yielded := yielded ++ [(coords, value)] in
          let offset := offset + wordBytes (BITPIX d) in
          let coords := carry (NAXISn d) (incr coords 0) 0 in
          if offset <? byteLength d then sweep fuel' d coords offset yielded
          else (yielded, Done)
      end
  end.

(** [data.getData()], run to its end.  The offset grows by at least one
    byte a round, so one round more than the buffer has bytes is enough. *)
Definition getData (d : FITSData) : trace :=
  if NAXIS d =? 0 then ([], Done)
  else sweep (S (length (dataBuffer d))) d
         (repeat (Num 1) (Z.to_nat (NAXIS d))) 0 [].

(** [data.toBuffer()]: a copy of the buffer. *)
Definition toBuffer (d : FITSData) : buffer := dataBuffer d.

Section FromArray.

(** The numbers handed to [fromArray], and the bytes a setter of [DataView]
    stores for one of them: [NumericToRawBytes b x] is the big-endian
    element for [BITPIX] [b], [wordBytes b] bytes. *)
Variable number : Type.
Variable NumericToRawBytes : FITSBITPIX -> number -> buffer.

(** The body of [for (const point of data)]. *)
Definition store (b : FITSBITPIX) (dataView : buffer) (point : number)
  : result buffer :=
  match b with
  | B64 => Throw UnsupportedBitDepth
  | _ =>
      DataView.set (Z.to_nat (wordBytes b)) dataView
        (Z.of_nat (length dataView)) (NumericToRawBytes b point)
  end.

Fixpoint store_all (b : FITSBITPIX) (dataView : buffer) (data : list number)
  : result buffer :=
  match data with
  | [] => Ok dataView
  | point :: data' =>
      dataView' <~ store b dataView point ;;
      store_all b dataView' data'
  end.

(** [FITSData.fromArray(data, BITPIX, axes)] *)
Definition fromArray (data : list number) (b : FITSBITPIX) (axes : list Z)
  : result FITSData :=
  let points := points axes in
  if negb (Z.of_nat (length data) =? points) then Throw ShapeMismatch
  else
    let dataBuffer := zeros (Z.to_nat (points * wordBytes b)) in
    dataBuffer <~ store_all b dataBuffer data ;;
    Ok (mkData b (Z.of_nat (length axes)) axes dataBuffer).

End FromArray.

End FITSData.

(** ** fits.ts *)

Module FITS.

Import DataView.

Definition BLOCK_SIZE : nat := 2880.

Record FITS := mkFITS {
  header : FITSHeader.FITSHeader;
  data : FITSData.FITSData
}.

(** [Math.ceil(n / BLOCK_SIZE) * BLOCK_SIZE] *)
Definition blockAligned (n : nat) : nat :=
  ((n + (BLOCK_SIZE - 1)) / BLOCK_SIZE * BLOCK_SIZE)%nat.

(** The four loops of [toBuffer] that fill the new buffer. *)
Definition fill (headerBuffer dataBuffer : buffer) : result buffer :=
  let headerLength := blockAligned (length headerBuffer) in
  let dataLength := blockAligned (length dataBuffer) in
  let totalLength := (headerLength + dataLength)%nat in
  let view := zeros totalLength in
  view <~ for_loop (length headerBuffer) 0
            (fun i view =>
               b <~ getUint8 headerBuffer (Z.of_nat i) ;;
               setUint8 view (Z.of_nat i) b) view ;;
  view <~ for_loop (headerLength - length headerBuffer) (length headerBuffer)
            (fun i view => setUint8 view (Z.of_nat i) Byte.x20) view ;;
  view <~ for_loop (length dataBuffer) 0
            (fun i view =>
               b <~ getUint8 dataBuffer (Z.of_nat i) ;;
               setUint8 view (Z.of_nat (headerLength + i)) b) view ;;
  for_loop (dataLength - length dataBuffer) (length dataBuffer)
    (fun i view => setUint8 view (Z.of_nat (headerLength + i)) Byte.x00) view.

(** [fits.toBuffer()] *)
Definition toBuffer (f : FITS) : M RegexState buffer :=
  headerBuffer <- FITSHeader.toBuffer (header f) ;;
  let dataBuffer := FITSData.toBuffer (data f) in
  lift (fill headerBuffer dataBuffer).

(** The integer a header value is.  What [fromBuffer] reads in this way
    [FITSHeader.fromBuffer] has checked to be an integer number; the 0 is
    for the other values. *)
Definition the_integer (v : option Card.FITSCardValue) : Z :=
  match v with
  | Some (Card.VNumber n) =>
      match FITSHeader.toZ n with
      | Some z => z
      | None => 0
      end
  | _ => 0
  end.

(** [header.getValue("BITPIX") as FITSBITPIX]: the cast is not checked;
    [FITSHeader.fromBuffer] has checked that the value is one of the six. *)
Definition as_FITSBITPIX (z : Z) : FITSData.FITSBITPIX :=
  if z =? 16 then FITSData.B16
  else if z =? 32 then FITSData.B32
  else if z =? 64 then FITSData.B64
  else if z =? -32 then FITSData.Bm32
  else if z =? -64 then FITSData.Bm64
  else FITSData.B8.

Section FromBuffer.

Variable parseFloat : string -> Card.number.
Variable decode : buffer -> string.

(** [Array.from({ length: NAXIS }, (_, i) => header.getValue(`NAXIS${i + 1}`)!)],
    from index [i] on with [count] elements to go. *)
Fixpoint axes_of (header : FITSHeader.FITSHeader) (i count : nat)
  : M RegexState (list Z) :=
  match count with
  | O => ret []
  | S count' =>
      value <- FITSHeader.getValue header ("NAXIS" +:+ FITSHeader.decimal (S i)) ;;
      rest <- axes_of header (S i) count' ;;
      ret (the_integer value :: rest)
  end.

(** [FITS.fromBuffer(file, forceNaxis)] *)
Definition fromBuffer (file : buffer) (forceNaxis : option Z) : M RegexState FITS :=
  parsed <- FITSHeader.fromBuffer parseFloat decode file ;;
  let '(header, bytesRead) := parsed in
  BITPIX <- FITSHeader.getValue header "BITPIX" ;;
  NAXIS <- FITSHeader.getValue header "NAXIS" ;;
  NAXISn <- axes_of header 0 (Z.to_nat (the_integer NAXIS)) ;;
  if match forceNaxis with
     | Some n => negb (the_integer NAXIS =? n)
     | None => false
     end
  then throw MismatchedNAXIS
  else
    let BITPIX := as_FITSBITPIX (the_integer BITPIX) in
    let expectedBytes :=
      if the_integer NAXIS =? 0 then 0
      else fold_left Z.mul NAXISn (FITSData.wordBytes BITPIX) in
    (* Align the offset to the next block *)
    let offset := blockAligned bytesRead in
    let dataBuffer := take (Z.to_nat expectedBytes) (drop offset file) in
    if negb (Z.of_nat (length dataBuffer) =? expectedBytes) then throw DataLength
    else ret (mkFITS header
                (FITSData.mkData BITPIX (the_integer NAXIS) NAXISn dataBuffer)).

End FromBuffer.

(** [FITS.fromDataArray(points, BITPIX, axes, copyHeader)]; [number] and
    [NumericToRawBytes] are the ones of [FITSData.fromArray]. *)
Definition fromDataArray (number : Type)
  (NumericToRawBytes : FITSData.FITSBITPIX -> number -> buffer)
  (points : list number) (BITPIX : FITSData.FITSBITPIX) (axes : list Z)
  (copyHeader : option FITSHeader.FITSHeader) : M RegexState FITS :=
  header <- match copyHeader with
            | Some h => FITSHeader.copyWith h (FITSData.bitpix BITPIX) axes
            | None => FITSHeader.basic (FITSData.bitpix BITPIX) axes
            end ;;
  data <- lift (FITSData.fromArray number NumericToRawBytes points BITPIX axes) ;;
  ret (mkFITS header data).

End FITS.

(** ** Objects of the examples *)

Module Examples.

Import FITSHeader.
Import FITSData.

Definition digit_value (c : ascii) : option Z :=
  if Js.between 48 57 c then Some (Z.of_nat (Js.code c) - 48) else None.

Fixpoint whole (acc : Z) (l : list ascii) : option Z :=
  match l with
  | [] => Some acc
  | c :: l' =>
      match digit_value c with
      | Some d => whole (acc * 10 + d) l'
      | None => None
      end
  end.

(** [Number.parseFloat] on the whole-number literals, an optional sign and
    at most 15 digits: the number that prints as these digits without the
    leading zeros, with its sign when it is negative.  No other literal
    occurs in the cards below; for them this function answers [NaN] and is
    not [Number.parseFloat]. *)
Definition parseFloat_whole (s : string) : number :=
  let '(negative, ds) :=
    match Js.chars s with
    | "-"%char :: l => (true, l)
    | "+"%char :: l => (false, l)
    | l => (false, l)
    end in
  match ds, whole 0 ds with
  | _ :: _, Some n =>
      if Nat.leb (length ds) 15
      then Number (DecimalString.NilZero.string_of_int
                     (Z.to_int (if negative then - n else n)))
      else Number "NaN"
  | _, _ => Number "NaN"
  end.

(** The two records of the long-string scenario, and the cards they parse
    to. *)
Definition record_TTYPE1 : string := "TTYPE1  = 'ABCDEFG&'".
Definition record_CONTINUE : string := "CONTINUE  '  HIJK    ' / extra".

Definition card_TTYPE1 : Card :=
  mkCard (Js.padEnd record_TTYPE1 80) "TTYPE1" (VString "ABCDEFG&") None.
Definition card_CONTINUE : Card :=
  mkCard (Js.padEnd record_CONTINUE 80) "CONTINUE" (VString "  HIJK")
    (Some "extra").

Definition header_TTYPE1 : FITSHeader := mkHeader [card_TTYPE1; card_CONTINUE].

(** The first card of every primary header. *)
Definition record_SIMPLE : string :=
  "SIMPLE  =                    T / conforms to FITS".
Definition card_SIMPLE : Card :=
  mkCard (Js.padEnd record_SIMPLE 80) "SIMPLE" (VBool true)
    (Some "conforms to FITS").

(** The END card of [header.toBuffer()]. *)
Definition card_END : Card := mkCard (Js.padEnd "END" 80) "END" VNull None.

(** A commentary record. *)
Definition record_COMMENT : string := Js.padEnd "COMMENT observed at dusk" 80.

Definition card_OBJECT : Card :=
  mkCard (Js.padEnd "OBJECT  = 'M31'" 80) "OBJECT" (VString "M31") None.

(** A header with its first card only, before any call of [fromValue]. *)
Definition world_SIMPLE : World := mkWorld freshRegexState (mkHeader [card_SIMPLE]).

(** One axis of two bytes, 10 and 20. *)
Definition row_10_20 : FITSData := mkData B8 1 [2] [Byte.x0a; Byte.x14].

(** Two axes of length 2, the 16-bit words 1, 2, 3, 4. *)
Definition square_1234 : FITSData :=
  mkData B16 2 [2; 2]
    [Byte.x00; Byte.x01; Byte.x00; Byte.x02;
     Byte.x00; Byte.x03; Byte.x00; Byte.x04].

(** One axis of length 0 and no byte: what
    [FITSData.fromArray([], 8, [0])] returns. *)
Definition empty_row : FITSData := mkData B8 1 [0] [].

(** One 64-bit integer word. *)
Definition one_int64 : FITSData := mkData B64 1 [1] (DataView.zeros 8).

(** A file: the header above, the row of two bytes. *)
Definition file_row : FITS.FITS := FITS.mkFITS (mkHeader [card_SIMPLE]) row_10_20.

(** The numbers 1e20 and [Number.MAX_VALUE]. *)
Definition number_1e20 : number := Number "100000000000000000000".
Definition number_MAX_VALUE : number := Number "1.7976931348623157e+308".

(** A decoder for files of ASCII bytes: the character with the code of
    the byte. *)
Definition decode_ascii (bs : DataView.buffer) : string :=
  Js.str (map ascii_of_byte bs).

(** A small file: a header of four cards and the END record in one block,
    then a row of two bytes. *)
Definition records_row : list string :=
  ["SIMPLE  =                    T";
   "BITPIX  =                    8";
   "NAXIS   =                    1";
   "NAXIS1  =                    2";
   "END"].
Definition buffer_row : DataView.buffer :=
  map byte_of_ascii
    (Js.chars (Js.padEnd (Js.join (map (fun r => Js.padEnd r 80) records_row)) 2880))
  ++ [Byte.x0a; Byte.x14].

(** A file whose header fills its block: four cards and thirty-two blank
    records, and the END record at the head of the second block, the last
    of the file. *)
Definition records_full : list string :=
  ["SIMPLE  =                    T";
   "BITPIX  =                    8";
   "NAXIS   =                    1";
   "NAXIS1  =                    3"]
  ++ repeat " " 32 ++ ["END"].
Definition buffer_full : DataView.buffer :=
  map byte_of_ascii
    (Js.chars (Js.join (map (fun r => Js.padEnd r 80) records_full))).

End Examples.

(** * Facts *)

(** ** Strings *)

Lemma length_str (l : list ascii) : String.length (Js.str l) = length l.
Proof. induction l as [|a l IH]; simpl; [reflexivity | now rewrite IH]. Qed.

Lemma length_chars (s : string) : length (Js.chars s) = String.length s.
Proof. induction s as [|a s IH]; simpl; [reflexivity | now rewrite IH]. Qed.

Lemma chars_str (l : list ascii) : Js.chars (Js.str l) = l.
Proof. apply list_ascii_of_string_of_list_ascii. Qed.

Lemma str_chars (s : string) : Js.str (Js.chars s) = s.
Proof. apply string_of_list_ascii_of_string. Qed.

Lemma chars_append (a b : string) :
  Js.chars (a +:+ b) = Js.chars a ++ Js.chars b.
Proof. induction a as [|c a IH]; simpl; [reflexivity | now rewrite IH]. Qed.

Lemma str_app (l1 l2 : list ascii) : Js.str (l1 ++ l2) = Js.str l1 +:+ Js.str l2.
Proof. induction l1 as [|c l1 IH]; simpl; [reflexivity | now rewrite IH]. Qed.

Lemma length_append (a b : string) :
  String.length (a +:+ b) = (String.length a + String.length b)%nat.
Proof. induction a as [|c a IH]; simpl; [reflexivity | now rewrite IH]. Qed.

Lemma length_spaces (n : nat) : String.length (Js.spaces n) = n.
Proof. unfold Js.spaces. now rewrite length_str, repeat_length. Qed.

Lemma len_append (a b : string) : Card.len (a +:+ b) = Card.len a + Card.len b.
Proof. unfold Card.len. rewrite length_append. lia. Qed.

Lemma len_nonneg (s : string) : 0 <= Card.len s.
Proof. unfold Card.len. lia. Qed.

Lemma len_padEnd (s : string) (n : Z) :
  Card.len (Js.padEnd s n) = Z.max (Card.len s) n.
Proof.
  unfold Js.padEnd. rewrite len_append. unfold Card.len at 2.
  rewrite length_spaces. unfold Card.len. lia.
Qed.

Lemma append_empty (s : string) : s +:+ EmptyString = s.
Proof.
  induction s as [|c s IH]; [reflexivity|].
  change (String c (s +:+ EmptyString) = String c s). now rewrite IH.
Qed.

Lemma padEnd_full (s : string) (n : Z) : n <= Card.len s -> Js.padEnd s n = s.
Proof.
  intros H. unfold Js.padEnd, Card.len in *.
  replace (Z.to_nat (n - Z.of_nat (String.length s))) with O by lia.
  apply append_empty.
Qed.

Lemma len_slice_le (s : string) (n : Z) :
  0 <= n -> Card.len (Js.slice s 0 n) <= n.
Proof.
  intros H. unfold Js.slice, Card.len. rewrite length_str, length_take.
  unfold Js.clamp. simpl.
  destruct (n <? 0) eqn:E; [lia|]. lia.
Qed.

(** ** The encoder *)

Lemma finish_length (i v c k : string) (val : Card.FITSCardValue)
  (cm : option string) (card : Card.Card) :
  Card.finish i v c k val cm = Ok card ->
  Card.len i + Card.len v + Card.len c <= 80 ->
  String.length (Card.image card) = 80%nat.
Proof.
  unfold Card.finish. intros [= <-] H. simpl.
  pose proof (len_padEnd (i +:+ v +:+ c) Card.CARD_LENGTH) as P.
  rewrite !len_append in P. unfold Card.len, Card.CARD_LENGTH in *. lia.
Qed.

(** Whatever the second [hierarchRegex.test] answers, a card that comes out
    of the layout has an image of 80 characters. *)
Lemma layout_length (h : bool) (k : string) (v : Card.FITSCardValue)
  (c : option string) (card : Card.Card) :
  Card.layout h k v c = Ok card -> String.length (Card.image card) = 80%nat.
Proof.
  unfold Card.layout.
  set (image := (if h then _ else _) +:+ _).
  destruct (Card.valueToString v (Some _)) as [iv|e]; simpl; [|discriminate].
  set (cv := match c with Some _ => _ | None => _ end).
  destruct (Z.ltb_spec Card.CARD_LENGTH (Card.len image + Card.len iv + Card.len cv))
    as [Hlong|Hfit].
  - destruct (Card.valueToString v None) as [iv'|e]; simpl; [|discriminate].
    destruct (Z.ltb_spec Card.CARD_LENGTH
                (Card.len image + Card.len iv' + Card.len cv)) as [Hlong'|Hfit'].
    + destruct (Z.ltb_spec (Card.CARD_LENGTH - Card.len image - Card.len iv') 0)
        as [|Hmax]; [discriminate|].
      destruct (Z.ltb_spec (Card.CARD_LENGTH - Card.len image - Card.len iv') 6)
        as [Hshort|Hroom].
      * intros F. apply finish_length in F; [exact F|].
        unfold Card.CARD_LENGTH in *. change (Card.len EmptyString) with 0. lia.
      * destruct c as [c|]; [|discriminate].
        intros F. apply finish_length in F; [exact F|].
        rewrite !len_append.
        change (Card.len " / ") with 3. change (Card.len "...") with 3.
        pose proof (len_slice_le c
                      (Card.CARD_LENGTH - Card.len image - Card.len iv' - 6)).
        unfold Card.CARD_LENGTH in *. lia.
    + intros F. apply finish_length in F; [exact F|].
      unfold Card.CARD_LENGTH in *. lia.
  - intros F. apply finish_length in F; [exact F|].
    unfold Card.CARD_LENGTH in *. lia.
Qed.

(** One step of a computation in [M]: case on what the step returns. *)
Ltac run_step :=
  match goal with
  | |- (match ?m with pair _ _ => _ end) = _ -> _ =>
      destruct m as [[?|?] ?] eqn:?; [|discriminate]
  end.

Tactic Notation "run_step_as" ident(a) ident(st) ident(E) :=
  match goal with
  | |- (match ?m with pair _ _ => _ end) = _ -> _ =>
      destruct m as [[a|?] st] eqn:E; [|discriminate]
  end.

(** A call of [fromValue] that returns a card went through the layout. *)
Lemma fromValue_layout (k : string) (v : Card.FITSCardValue)
  (c : option string) (st st' : RegexState) (card : Card.Card) :
  Card.fromValue k v c st = (Ok card, st') ->
  exists h, Card.layout h (Js.trimEnd k) v c = Ok card.
Proof.
  unfold Card.fromValue, bind, throw, lift.
  run_step. destruct (_ && _); [discriminate|].
  run_step. destruct (negb _); [discriminate|].
  destruct (_ && _); [discriminate|].
  destruct (_ && _); [discriminate|].
  run_step. destruct (negb _); [discriminate|].
  run_step. destruct (negb _); [discriminate|].
  run_step. intros [= H _]. eexists. exact H.
Qed.

(** C7. Whenever [Card.fromValue] returns a card rather than throwing, for
    any keyword, value and comment and in any state of the regexes, the
    image of the card is exactly 80 characters long, never longer and never
    shorter. *)
Theorem C7_fromValue_image_is_80 (k : string) (v : Card.FITSCardValue)
  (c : option string) (st st' : RegexState) (card : Card.Card) :
  Card.fromValue k v c st = (Ok card, st') ->
  String.length (Card.image card) = 80%nat.
Proof.
  intros H. apply fromValue_layout in H as [h H].
  exact (layout_length _ _ _ _ _ H).
Qed.

Lemma C7_fromValue_image_is_80_witness :
  exists card st',
    Card.fromValue "EXTEND" (Card.VBool true)
      (Some "a comment that is far too long to fit in the columns after the value of the card")
      freshRegexState = (Ok card, st')
    /\ String.length (Card.image card) = 80%nat.
Proof.
  eexists. eexists. split.
  - vm_compute. reflexivity.
  - eapply (C7_fromValue_image_is_80 "EXTEND" (Card.VBool true)
              (Some "a comment that is far too long to fit in the columns after the value of the card")
              freshRegexState).
    vm_compute. reflexivity.
Defined.

(** ** The matcher *)

(** A match always ends in the continuation: a matcher never answers by
    itself. *)
Lemma rmatch_via_cont (total : nat) (r : Regex.regex) :
  forall (k : Regex.cont) (s : list ascii) (c : Regex.captures) z,
    Regex.rmatch total r k s c = Some z ->
    exists s' c', k s' c' = Some z.
Proof.
  induction r as [|p|r1 IH1 r2 IH2|r1 IH1 r2 IH2|g mn mx r IH|name r IH| |];
    intros k s c z; simpl.
  - eauto.
  - destruct s as [|a s]; [discriminate|]. destruct (p a); [eauto|discriminate].
  - intros H. apply IH1 in H as (s1 & c1 & H). now apply IH2 in H.
  - destruct (Regex.rmatch total r1 k s c) eqn:E.
    + intros [= <-]. now apply IH1 in E.
    + apply IH2.
  - generalize (mn + length s + 1)%nat as fuel. intros fuel.
    revert mn mx s c z.
    induction fuel as [|fuel IHf]; intros mn mx s c z; [discriminate|].
    cbn beta iota.
    destruct (Regex.max_is_zero mx); [eauto|].
    destruct (negb (mn =? 0)%nat).
    + intros H. apply IH in H as (s1 & c1 & H).
      destruct (_ && _); [discriminate|]. now apply IHf in H.
    + destruct g.
      * match goal with |- match ?m with _ => _ end = _ -> _ => destruct m eqn:E end.
        -- intros [= <-]. apply IH in E as (s1 & c1 & E).
           destruct (_ && _); [discriminate|]. now apply IHf in E.
        -- eauto.
      * destruct (k s c) eqn:E.
        -- intros [= <-]. eauto.
        -- intros H. apply IH in H as (s1 & c1 & H).
           destruct (_ && _); [discriminate|]. now apply IHf in H.
  - intros H. apply IH in H as (s1 & c1 & H). eauto.
  - destruct (_ =? _)%nat; [eauto|discriminate].
  - destruct s; [eauto|discriminate].
Qed.

(** One round of a repetition: the body, then the rounds that follow. *)
Ltac one_round IH IHf H :=
  let s1 := fresh "s" in let c1 := fresh "c" in let B1 := fresh "B" in
  let s2 := fresh "s" in let c2 := fresh "c" in let B2 := fresh "B" in
  apply IH in H as (s1 & c1 & H & B1);
  destruct (_ && _); [discriminate|];
  apply IHf in H as (s2 & c2 & H & B2);
  exists s2, c2; split; [exact H|lia].

(** A pattern of bounded length consumes no more than its bound. *)
Lemma rmatch_bounded (total : nat) (r : Regex.regex) :
  forall (n : nat), Regex.max_len r = Some n ->
  forall (k : Regex.cont) (s : list ascii) (c : Regex.captures) z,
    Regex.rmatch total r k s c = Some z ->
    exists s' c', k s' c' = Some z /\ (length s <= length s' + n)%nat.
Proof.
  induction r as [|p|r1 IH1 r2 IH2|r1 IH1 r2 IH2|g mn mx r IH|name r IH| |];
    intros n Hn k s c z; simpl in Hn |- *.
  - injection Hn as <-. intros H. exists s, c. split; [exact H|lia].
  - injection Hn as <-. destruct s as [|a s]; [discriminate|].
    destruct (p a); [|discriminate]. intros H. exists s, c. split; [exact H|simpl; lia].
  - destruct (Regex.max_len r1) as [n1|]; [|discriminate].
    destruct (Regex.max_len r2) as [n2|]; [|discriminate]. injection Hn as <-.
    intros H. apply (IH1 n1 eq_refl) in H as (s1 & c1 & H & B1).
    apply (IH2 n2 eq_refl) in H as (s2 & c2 & H & B2).
    exists s2, c2. split; [exact H|lia].
  - destruct (Regex.max_len r1) as [n1|]; [|discriminate].
    destruct (Regex.max_len r2) as [n2|]; [|discriminate]. injection Hn as <-.
    destruct (Regex.rmatch total r1 k s c) eqn:E.
    + intros [= <-]. apply (IH1 n1 eq_refl) in E as (s1 & c1 & E & B).
      exists s1, c1. split; [exact E|lia].
    + intros H. apply (IH2 n2 eq_refl) in H as (s1 & c1 & H & B).
      exists s1, c1. split; [exact H|lia].
  - destruct mx as [m|]; [|discriminate].
    destruct (Regex.max_len r) as [n1|]; [|discriminate]. injection Hn as <-.
    specialize (IH n1 eq_refl).
    generalize (mn + length s + 1)%nat as fuel. intros fuel.
    revert mn m s c z.
    induction fuel as [|fuel IHf]; intros mn m s c z; [discriminate|].
    cbn beta iota.
    destruct m as [|m]; simpl Regex.max_is_zero; cbn iota.
    { intros H. exists s, c. split; [exact H|lia]. }
    simpl option_map.
    destruct (negb (mn =? 0)%nat).
    + intros H. one_round IH IHf H.
    + destruct g.
      * match goal with |- match ?m with _ => _ end = _ -> _ => destruct m eqn:E end.
        -- intros [= <-]. one_round IH IHf E.
        -- intros H. exists s, c. split; [exact H|lia].
      * destruct (k s c) eqn:E.
        -- intros [= <-]. exists s, c. split; [exact E|lia].
        -- intros H. one_round IH IHf H.
  - intros H. apply (IH n Hn) in H as (s1 & c1 & H & B). eauto.
  - injection Hn as <-. destruct (_ =? _)%nat; [|discriminate].
    intros H. exists s, c. split; [exact H|lia].
  - injection Hn as <-. destruct s; [|discriminate].
    intros H. exists [], c. split; [exact H|simpl; lia].
Qed.

(** A pattern that begins with [^] matches at the start of the input
    only. *)
Lemma rmatch_not_at_start (total : nat) (x : Regex.regex) (k : Regex.cont)
  (s : list ascii) (c : Regex.captures) :
  length s <> total -> Regex.rmatch total (Regex.Cat Regex.Bol x) k s c = None.
Proof.
  intros H. cbn [Regex.rmatch].
  destruct (Nat.eqb_spec (length s) total); [contradiction|reflexivity].
Qed.

Lemma search_past_start (total : nat) (x : Regex.regex) (s : list ascii) :
  (length s < total)%nat ->
  Regex.search total (Regex.Cat Regex.Bol x) s = None.
Proof.
  induction s as [|a s IH]; intros H; cbn [Regex.search];
    rewrite rmatch_not_at_start by lia; [reflexivity|].
  apply IH. simpl in H. lia.
Qed.

(** With [lastIndex] past the start, [test] on such a pattern says no and
    puts [lastIndex] back to 0, whatever the input. *)
Lemma test_g_past_start (x : Regex.regex) (i : nat) (input : string) :
  (0 < i)%nat -> Regex.test_g (Regex.Cat Regex.Bol x) i input = (false, O).
Proof.
  intros H. unfold Regex.test_g.
  destruct (Nat.ltb_spec (length (Js.chars input)) i); [reflexivity|].
  rewrite search_past_start; [reflexivity|]. rewrite length_drop. lia.
Qed.

(** A match of a pattern between [^] and [$] ends at the end of the
    input. *)
Lemma rmatch_whole (total : nat) (body : Regex.regex) (s : list ascii) z :
  Regex.rmatch total (Regex.Cat Regex.Bol (Regex.Cat body Regex.Eol))
    (Regex.final total) s [] = Some z ->
  fst z = total.
Proof.
  cbn [Regex.rmatch]. destruct (_ =? _)%nat; intros M; [|discriminate M].
  apply rmatch_via_cont in M as (s1 & c1 & M).
  cbn [Regex.rmatch] in M. destruct s1; [|discriminate].
  unfold Regex.final in M. injection M as <-. simpl. lia.
Qed.

Lemma search_whole (total : nat) (body : Regex.regex) (s : list ascii) e c :
  length s = total ->
  Regex.search total (Regex.Cat Regex.Bol (Regex.Cat body Regex.Eol)) s
    = Some (e, c) ->
  e = total.
Proof.
  intros L H.
  destruct s as [|a s]; cbn [Regex.search] in H.
  - destruct (Regex.rmatch _ _ _ _ _) eqn:M; [|discriminate H].
    injection H as ->. now apply rmatch_whole in M.
  - destruct (Regex.rmatch _ _ _ _ _) eqn:M.
    + injection H as ->. now apply rmatch_whole in M.
    + rewrite search_past_start in H; [discriminate H|]. simpl in L. lia.
Qed.

Lemma test_g_whole (body : Regex.regex) (i : nat) (input : string) (e : nat) :
  Regex.test_g (Regex.Cat Regex.Bol (Regex.Cat body Regex.Eol)) i input
    = (true, e) ->
  i = O /\ e = String.length input.
Proof.
  destruct i as [|i].
  - unfold Regex.test_g. destruct (_ <? _)%nat; [discriminate|].
    rewrite drop_0. destruct (Regex.search _ _ _) as [[e' c]|] eqn:S; [|discriminate].
    intros [= <-]. split; [reflexivity|].
    apply search_whole in S; [|reflexivity]. now rewrite length_chars in S.
  - rewrite test_g_past_start by lia. discriminate.
Qed.

(** The match of a bounded pattern between [^] and [$] bounds the input. *)
Lemma test_g_bounded (body : Regex.regex) (n : nat) (input : string) (e : nat) :
  Regex.max_len body = Some n ->
  Regex.test_g (Regex.Cat Regex.Bol (Regex.Cat body Regex.Eol)) O input
    = (true, e) ->
  (String.length input <= n)%nat.
Proof.
  intros Hn. unfold Regex.test_g. destruct (_ <? _)%nat; [discriminate|].
  rewrite drop_0. destruct (Regex.search _ _ _) as [[e' c]|] eqn:S; [|discriminate].
  intros _. rewrite <- length_chars.
  destruct (Js.chars input) as [|a s] eqn:Es; [simpl; lia|].
  cbn [Regex.search] in S.
  destruct (Regex.rmatch _ _ _ _ _) eqn:M.
  - clear S. cbn [Regex.rmatch] in M. rewrite Nat.eqb_refl in M.
    apply (rmatch_bounded _ _ n Hn) in M as (s1 & c1 & M & B).
    cbn [Regex.rmatch] in M. destruct s1; [|discriminate]. simpl in B. simpl. lia.
  - rewrite search_past_start in S; [discriminate S|]. simpl. lia.
Qed.

(** ** [lastIndex] across the calls of [Card.fromValue] *)

Lemma test_keywordRegex_true (s : string) (st st' : RegexState) :
  Card.test_keywordRegex s st = (Ok true, st') ->
  keywordRegex_lastIndex st = O
  /\ keywordRegex_lastIndex st' = String.length s
  /\ (String.length s <= 8)%nat.
Proof.
  unfold Card.test_keywordRegex, test.
  destruct (Regex.test_g _ _ _) as [b i] eqn:T. intros [= -> <-]. simpl.
  change Card.keywordRegex with
    (Regex.Cat Regex.Bol
       (Regex.Cat (Regex.times 0 8
                     (Regex.Class (fun c => Js.between 65 90 c || Js.between 48 57 c
                                            || Ascii.eqb c "_" || Ascii.eqb c "-")))
          Regex.Eol)) in T.
  destruct (test_g_whole _ _ _ _ T) as [Z E]. rewrite Z in T.
  apply (test_g_bounded _ 8) in T; [|reflexivity]. auto.
Qed.

Lemma test_keywordRegex_busy (s : string) (st : RegexState) :
  (0 < keywordRegex_lastIndex st)%nat ->
  exists st', Card.test_keywordRegex s st = (Ok false, st').
Proof.
  intros H. unfold Card.test_keywordRegex, test.
  change Card.keywordRegex with (Regex.Cat Regex.Bol
    (Regex.seq_of [Regex.times 0 8
                     (Regex.Class (fun c => Js.between 65 90 c || Js.between 48 57 c
                                            || Ascii.eqb c "_" || Ascii.eqb c "-"));
                   Regex.Eol])).
  rewrite test_g_past_start by exact H. eauto.
Qed.

Lemma test_hierarchRegex_frame (s : string) (st st' : RegexState) r :
  Card.test_hierarchRegex s st = (r, st') ->
  keywordRegex_lastIndex st' = keywordRegex_lastIndex st.
Proof.
  unfold Card.test_hierarchRegex, test.
  destruct (Regex.test_g _ _ _). now intros [= _ <-].
Qed.

Lemma test_asciiRegex_frame (s : string) (st st' : RegexState) r :
  Card.test_asciiRegex s st = (r, st') ->
  keywordRegex_lastIndex st' = keywordRegex_lastIndex st.
Proof.
  unfold Card.test_asciiRegex, test.
  destruct (Regex.test_g _ _ _). now intros [= _ <-].
Qed.

(** A call that returns a card leaves the length of the keyword in the
    [lastIndex] of [keywordRegex]. *)
Lemma fromValue_leaves_lastIndex (k : string) (v : Card.FITSCardValue)
  (c : option string) (st st' : RegexState) (card : Card.Card) :
  Card.fromValue k v c st = (Ok card, st') ->
  keywordRegex_lastIndex st' = String.length (Js.trimEnd k)
  /\ (String.length (Js.trimEnd k) <= 8)%nat.
Proof.
  unfold Card.fromValue, bind, throw, lift.
  run_step_as h st1 E1. destruct (_ && _); [discriminate|].
  run_step_as kw st2 E2. destruct kw; [|discriminate]. cbn [negb].
  destruct (_ && _); [discriminate|].
  destruct (_ && _); [discriminate|].
  run_step_as a st3 E3. destruct (negb _); [discriminate|].
  run_step_as b st4 E4. destruct (negb _); [discriminate|].
  run_step_as h2 st5 E5. intros [= _ <-].
  apply test_keywordRegex_true in E2 as (_ & L & B).
  apply test_hierarchRegex_frame in E1, E5.
  assert (E3' : keywordRegex_lastIndex st3 = keywordRegex_lastIndex st2).
  { destruct v; solve [now apply test_asciiRegex_frame in E3
                      | now injection E3 as _ <-]. }
  assert (E4' : keywordRegex_lastIndex st4 = keywordRegex_lastIndex st3).
  { destruct c; solve [now apply test_asciiRegex_frame in E4
                      | now injection E4 as _ <-]. }
  split; [congruence|exact B].
Qed.

(** With [lastIndex] of [keywordRegex] past the start, [fromValue] takes
    every keyword of at most 80 characters for an invalid one. *)
Lemma fromValue_busy (k : string) (v : Card.FITSCardValue)
  (c : option string) (st : RegexState) :
  (0 < keywordRegex_lastIndex st)%nat ->
  (String.length (Js.trimEnd k) <= 80)%nat ->
  exists st', Card.fromValue k v c st = (Throw InvalidKeyword, st').
Proof.
  intros Busy Short. unfold Card.fromValue, bind, throw.
  destruct (Card.test_hierarchRegex _ st) as [[h|e] st1] eqn:H.
  2:{ unfold Card.test_hierarchRegex, test in H.
      destruct (Regex.test_g _ _ _). discriminate H. }
  apply test_hierarchRegex_frame in H.
  replace (Card.CARD_LENGTH <? Card.len (Js.trimEnd k)) with false.
  2:{ symmetry. apply Z.ltb_ge. unfold Card.CARD_LENGTH, Card.len. lia. }
  rewrite andb_false_r.
  destruct (test_keywordRegex_busy (Js.trimEnd k) st1) as [st2 ->]; [lia|].
  simpl. eauto.
Qed.

(** C5. [Card.fromValue] is not a function of its arguments alone: whenever
    a call with a keyword that is not blank returns a card, the very same
    call made next throws the invalid-keyword TypeError, because of what the
    first call left in [keywordRegex.lastIndex]. *)
Theorem C5_fromValue_depends_on_the_call_before (k : string)
  (v : Card.FITSCardValue) (c : option string) (st st' : RegexState)
  (card : Card.Card) :
  Card.fromValue k v c st = (Ok card, st') ->
  Js.trimEnd k <> EmptyString ->
  exists st'', Card.fromValue k v c st' = (Throw InvalidKeyword, st'').
Proof.
  intros H Hk. apply fromValue_leaves_lastIndex in H as [L B].
  apply fromValue_busy; [|lia].
  rewrite L. destruct (Js.trimEnd k); [contradiction|simpl; lia].
Qed.

Lemma C5_fromValue_depends_on_the_call_before_witness :
  exists card st' st'',
    Card.fromValue "SIMPLE" (Card.VBool true) None freshRegexState = (Ok card, st')
    /\ Card.fromValue "SIMPLE" (Card.VBool true) None st'
       = (Throw InvalidKeyword, st'').
Proof.
  eexists. eexists.
  destruct (C5_fromValue_depends_on_the_call_before "SIMPLE" (Card.VBool true) None
              freshRegexState
              (mkRegexState 6 0 0 0 0 0 0)
              (Card.mkCard
                 "SIMPLE  =                    T                                                  "
                 "SIMPLE" (Card.VBool true) None))
    as [st'' H].
  - vm_compute. reflexivity.
  - vm_compute. discriminate.
  - exists st''. split; [vm_compute; reflexivity|exact H].
Defined.

(** ** Doubles

    What the arithmetic of the Standard Library does on the integers of at
    most 53 bits, and on zeros. *)

Lemma doubled_value (n : nat) (p : positive) :
  Zpos (Double.doubled n p) = Zpos p * 2 ^ Z.of_nat n.
Proof.
  induction n as [|n IH]; [cbn; lia|].
  cbn [Double.doubled]. change (Zpos (Double.doubled n p)~0) with (2 * Zpos (Double.doubled n p)).
  rewrite IH, Nat2Z.inj_succ, Z.pow_succ_r by lia. lia.
Qed.

Lemma doubled_digits (n : nat) (p : positive) :
  Zpos (digits2_pos (Double.doubled n p)) = Zpos (digits2_pos p) + Z.of_nat n.
Proof.
  induction n as [|n IH]; [cbn; lia|].
  cbn [Double.doubled digits2_pos]. rewrite Pos2Z.inj_succ, IH. lia.
Qed.

Lemma iter_xO (k p : positive) : Pos.iter xO p k = Double.doubled (Pos.to_nat k) p.
Proof.
  rewrite Pos2Nat.inj_iter. generalize (Pos.to_nat k). intros n.
  induction n as [|n IH]; [reflexivity|]. cbn. now rewrite IH.
Qed.

Lemma iter_pos_nat {A} (f : A -> A) (p : positive) (x : A) :
  SpecFloat.iter_pos f p x = Nat.iter (Pos.to_nat p) f x.
Proof.
  revert x. induction p as [p IH|p IH|]; intros x; cbn [SpecFloat.iter_pos].
  - rewrite !IH, Pos2Nat.inj_xI.
    replace (S (2 * Pos.to_nat p)) with (Pos.to_nat p + (Pos.to_nat p + 1))%nat by lia.
    rewrite !Nat.iter_add. reflexivity.
  - rewrite !IH, Pos2Nat.inj_xO.
    replace (2 * Pos.to_nat p)%nat with (Pos.to_nat p + Pos.to_nat p)%nat by lia.
    rewrite Nat.iter_add. reflexivity.
  - reflexivity.
Qed.

(** Shifting out zero bits loses nothing. *)
Lemma shr_zero_bits (n : nat) (p : positive) :
  Nat.iter n shr_1 {| shr_m := Zpos (Double.doubled n p); shr_r := false; shr_s := false |}
  = {| shr_m := Zpos p; shr_r := false; shr_s := false |}.
Proof.
  induction n as [|n IH]; [reflexivity|].
  rewrite Nat.iter_succ_r. cbn [Double.doubled shr_1 orb]. exact IH.
Qed.

(** The digits of a positive number and its size. *)
Lemma digits_bounds (p : positive) :
  2 ^ (Zpos (digits2_pos p) - 1) <= Zpos p < 2 ^ Zpos (digits2_pos p).
Proof.
  induction p as [p IH|p IH|]; cbn [digits2_pos].
  - rewrite Pos2Z.inj_succ. change (Zpos p~1) with (2 * Zpos p + 1).
    replace (Z.succ (Zpos (digits2_pos p)) - 1) with (Z.succ (Zpos (digits2_pos p) - 1)) by lia.
    rewrite !Z.pow_succ_r by lia.
    revert IH. generalize (2 ^ (Zpos (digits2_pos p) - 1)), (2 ^ Zpos (digits2_pos p)).
    lia.
  - rewrite Pos2Z.inj_succ. change (Zpos p~0) with (2 * Zpos p).
    replace (Z.succ (Zpos (digits2_pos p)) - 1) with (Z.succ (Zpos (digits2_pos p) - 1)) by lia.
    rewrite !Z.pow_succ_r by lia.
    revert IH. generalize (2 ^ (Zpos (digits2_pos p) - 1)), (2 ^ Zpos (digits2_pos p)).
    lia.
  - cbn. lia.
Qed.

Lemma digits_safe (p : positive) :
  Zpos p < 2 ^ 53 -> Zpos (digits2_pos p) <= 53.
Proof.
  intros H. pose proof (digits_bounds p) as [L _].
  destruct (Z_le_gt_dec (Zpos (digits2_pos p)) 53) as [|G]; [assumption|].
  exfalso. assert (2 ^ 53 <= 2 ^ (Zpos (digits2_pos p) - 1)).
  { apply Z.pow_le_mono_r; lia. }
  lia.
Qed.

(** Rounding a number that has 53 digits once its zero bits are shifted
    out. *)
Lemma round_aux_safe (s : bool) (p : positive) (k : nat) :
  Zpos p < 2 ^ 53 ->
  53 <= Zpos (digits2_pos p) + Z.of_nat k ->
  binary_round_aux Double.prec Double.emax s (Zpos (Double.doubled k p)) (- Z.of_nat k)
    loc_Exact
  = Double.safe s p.
Proof.
  intros Small Long. pose proof (digits_safe p Small) as D.
  set (d := Zpos (digits2_pos p)) in *.
  assert (Pd : 0 < d) by (subst d; lia).
  unfold binary_round_aux, shr_fexp at 1.
  cbn [Zdigits2 shr_record_of_loc]. rewrite doubled_digits. fold d.
  unfold fexp, emin, Double.prec, Double.emax.
  replace (Z.max (d + Z.of_nat k + - Z.of_nat k - 53) (3 - 1024 - 53) - - Z.of_nat k)
    with (Z.of_nat (Z.to_nat (d + Z.of_nat k - 53))) by lia.
  set (n := Z.to_nat (d + Z.of_nat k - 53)).
  set (j := Z.to_nat (53 - d)).
  assert (K : k = (n + j)%nat) by lia.
  assert (Shift : shr {| shr_m := Zpos (Double.doubled k p); shr_r := false; shr_s := false |}
                    (- Z.of_nat k) (Z.of_nat n)
                  = ({| shr_m := Zpos (Double.doubled j p); shr_r := false; shr_s := false |},
                     d - 53)).
  { assert (Dd : forall a b q, Double.doubled (a + b) q = Double.doubled a (Double.doubled b q)).
    { induction a as [|a IHa]; intros b q; [reflexivity|]. cbn. now rewrite IHa. }
    unfold shr. destruct (Z.of_nat n) as [|np|np] eqn:Zn.
    - replace k with j by lia. f_equal. lia.
    - rewrite iter_pos_nat. replace (Pos.to_nat np) with n by lia.
      f_equal; [|lia]. rewrite K, Dd. apply shr_zero_bits.
    - lia. }
  rewrite Shift. cbn [shr_m loc_of_shr_record round_nearest_even].
  unfold shr_fexp, fexp, emin. cbn [Zdigits2 shr_record_of_loc].
  rewrite doubled_digits. fold d.
  replace (Z.max (d + Z.of_nat j + (d - 53) - 53) (3 - 1024 - 53) - (d - 53)) with 0 by lia.
  cbn [shr shr_m].
  replace (d - 53 <=? 1024 - 53) with true by (symmetry; apply Z.leb_le; lia).
  reflexivity.
Qed.

Lemma doubled_add (a b : nat) (q : positive) :
  Double.doubled (a + b) q = Double.doubled a (Double.doubled b q).
Proof. induction a as [|a IH]; [reflexivity|]. cbn. now rewrite IH. Qed.

Lemma doubled_of_value (n : nat) (p m : positive) :
  Zpos m = Zpos p * 2 ^ Z.of_nat n -> m = Double.doubled n p.
Proof. rewrite <- doubled_value. congruence. Qed.

(** Rounding [p * 2^k * 2^-k]. *)
Lemma round_safe (s : bool) (p : positive) (k : nat) :
  Zpos p < 2 ^ 53 ->
  binary_round Double.prec Double.emax s (Double.doubled k p) (- Z.of_nat k) = Double.safe s p.
Proof.
  intros Small. pose proof (digits_safe p Small) as D.
  unfold binary_round, shl_align, fexp, emin, Double.prec, Double.emax.
  rewrite doubled_digits.
  set (d := Zpos (digits2_pos p)) in *.
  assert (Pd : 0 < d) by (subst d; lia).
  replace (Z.max (d + Z.of_nat k + - Z.of_nat k - 53) (3 - 1024 - 53) - - Z.of_nat k)
    with (d - 53 + Z.of_nat k) by lia.
  destruct (d - 53 + Z.of_nat k) as [|sh|sh] eqn:E.
  - apply (round_aux_safe s p k Small). fold d. lia.
  - apply (round_aux_safe s p k Small). fold d. lia.
  - rewrite iter_xO, <- doubled_add.
    replace (Z.max (d + Z.of_nat k + - Z.of_nat k - 53) (3 - 1024 - 53))
      with (- Z.of_nat (Pos.to_nat sh + k)) by lia.
    apply (round_aux_safe s p _ Small). fold d. lia.
Qed.

Lemma normalize_safe (z : Z) (k : nat) :
  Z.abs z < 2 ^ 53 ->
  binary_normalize Double.prec Double.emax (z * 2 ^ Z.of_nat k) (- Z.of_nat k) false
  = Double.exact z.
Proof.
  intros Small.
  assert (P : 0 < 2 ^ Z.of_nat k) by (apply Z.pow_pos_nonneg; lia).
  destruct z as [|p|p]; cbn [Double.exact].
  - reflexivity.
  - destruct (Zpos p * 2 ^ Z.of_nat k) as [|m|m] eqn:E; try lia.
    cbn [binary_normalize]. rewrite (doubled_of_value k p m (eq_sym E)).
    apply round_safe. exact Small.
  - destruct (Zneg p * 2 ^ Z.of_nat k) as [|m|m] eqn:E; try lia.
    cbn [binary_normalize].
    rewrite (doubled_of_value k p m) by lia.
    apply round_safe. exact Small.
Qed.

Lemma ofZ_exact (z : Z) : Z.abs z < 2 ^ 53 -> Double.ofZ z = Double.exact z.
Proof.
  intros Small. unfold Double.ofZ, Double.dyadic.
  rewrite <- (normalize_safe z 0 Small). cbn [Z.of_nat Z.opp]. f_equal. lia.
Qed.

(** The sign and the magnitude of [exact z]. *)
Lemma exact_finite (s : bool) (p : positive) :
  Zpos p < 2 ^ 53 ->
  let j := Z.to_nat (53 - Zpos (digits2_pos p)) in
  Double.safe s p = S754_finite s (Double.doubled j p) (- Z.of_nat j).
Proof.
  intros Small j. pose proof (digits_safe p Small). unfold Double.safe. fold j.
  f_equal. lia.
Qed.

Lemma shl_align_doubled (m : positive) (j i : nat) :
  (i <= j)%nat ->
  fst (shl_align m (- Z.of_nat i) (- Z.of_nat j)) = Double.doubled (j - i) m.
Proof.
  intros L. unfold shl_align.
  destruct (- Z.of_nat j - - Z.of_nat i) as [|sh|sh] eqn:E; cbn [fst].
  - now replace (j - i)%nat with O by lia.
  - lia.
  - rewrite iter_xO. f_equal. lia.
Qed.

Lemma add_exact (a b : Z) :
  Z.abs a < 2 ^ 53 -> Z.abs b < 2 ^ 53 -> Z.abs (a + b) < 2 ^ 53 ->
  Double.add (Double.exact a) (Double.exact b) = Double.exact (a + b).
Proof.
  intros A B AB.
  assert (Finite : forall (sa sb : bool) (pa pb : positive),
             Zpos pa < 2 ^ 53 -> Zpos pb < 2 ^ 53 ->
             Z.abs (cond_Zopp sa (Zpos pa) + cond_Zopp sb (Zpos pb)) < 2 ^ 53 ->
             Double.add (Double.safe sa pa) (Double.safe sb pb)
             = Double.exact (cond_Zopp sa (Zpos pa) + cond_Zopp sb (Zpos pb))).
  { intros sa sb pa pb Sa Sb Sab.
    rewrite (exact_finite sa pa Sa), (exact_finite sb pb Sb).
    set (ja := Z.to_nat (53 - Zpos (digits2_pos pa))).
    set (jb := Z.to_nat (53 - Zpos (digits2_pos pb))).
    unfold Double.add, SFadd.
    set (k := Nat.max ja jb).
    replace (Z.min (- Z.of_nat ja) (- Z.of_nat jb)) with (- Z.of_nat k) by lia.
    rewrite !shl_align_doubled by lia.
    rewrite <- (normalize_safe _ k Sab). f_equal.
    rewrite !doubled_value.
    assert (Ka : 2 ^ Z.of_nat k = 2 ^ Z.of_nat ja * 2 ^ Z.of_nat (k - ja))
      by (rewrite <- Z.pow_add_r by lia; f_equal; lia).
    assert (Kb : 2 ^ Z.of_nat k = 2 ^ Z.of_nat jb * 2 ^ Z.of_nat (k - jb))
      by (rewrite <- Z.pow_add_r by lia; f_equal; lia).
    transitivity (cond_Zopp sa (Zpos pa) * 2 ^ Z.of_nat k
                  + cond_Zopp sb (Zpos pb) * 2 ^ Z.of_nat k); [|ring].
    rewrite Ka at 1. rewrite Kb.
    destruct sa, sb; cbn [cond_Zopp]; ring. }
  destruct a as [|pa|pa], b as [|pb|pb]; try reflexivity.
  - exact (Finite false false pa pb A B AB).
  - exact (Finite false true pa pb A B AB).
  - exact (Finite true false pa pb A B AB).
  - exact (Finite true true pa pb A B AB).
Qed.

Lemma digits_lower (p : positive) (n : Z) :
  2 ^ n <= Zpos p -> n < Zpos (digits2_pos p).
Proof.
  intros L. pose proof (digits_bounds p) as [_ U].
  destruct (Z_lt_ge_dec n (Zpos (digits2_pos p))) as [|G]; [assumption|].
  exfalso. assert (2 ^ Zpos (digits2_pos p) <= 2 ^ n).
  { apply Z.pow_le_mono_r; lia. }
  lia.
Qed.

Lemma mul_exact (a b : Z) :
  Z.abs (a * b) < 2 ^ 53 -> 0 < b ->
  Double.mul (Double.exact a) (Double.exact b) = Double.exact (a * b).
Proof.
  intros AB Pb.
  destruct b as [|pb|pb]; try lia.
  assert (Finite : forall (sa : bool) (pa : positive),
             Zpos (pa * pb) < 2 ^ 53 ->
             Double.mul (Double.safe sa pa) (Double.safe false pb) = Double.safe sa (pa * pb)).
  { intros sa pa Sab.
    assert (Sa : Zpos pa < 2 ^ 53) by nia.
    assert (Sb : Zpos pb < 2 ^ 53) by nia.
    rewrite (exact_finite sa pa Sa), (exact_finite false pb Sb).
    set (ja := Z.to_nat (53 - Zpos (digits2_pos pa))).
    set (jb := Z.to_nat (53 - Zpos (digits2_pos pb))).
    unfold Double.mul, SFmul. rewrite xorb_false_r.
    replace (- Z.of_nat ja + - Z.of_nat jb) with (- Z.of_nat (ja + jb)) by lia.
    rewrite (doubled_of_value (ja + jb) (pa * pb) (Double.doubled ja pa * Double.doubled jb pb)).
    2:{ rewrite !Pos2Z.inj_mul, !doubled_value, Nat2Z.inj_add, Z.pow_add_r by lia.
        ring. }
    apply (round_aux_safe sa (pa * pb) (ja + jb) Sab).
    pose proof (digits_bounds pa) as [La _].
    pose proof (digits_bounds pb) as [Lb _].
    pose proof (digits_safe pa Sa). pose proof (digits_safe pb Sb).
    assert (L : 2 ^ (Zpos (digits2_pos pa) - 1 + (Zpos (digits2_pos pb) - 1))
                <= Zpos (pa * pb)).
    { rewrite Z.pow_add_r, Pos2Z.inj_mul by lia.
      apply Z.mul_le_mono_nonneg; try assumption; apply Z.pow_nonneg; lia. }
    apply digits_lower in L. lia. }
  destruct a as [|pa|pa]; cbn [Z.mul Double.exact].
  - reflexivity.
  - apply Finite. exact AB.
  - apply Finite. exact AB.
Qed.

Lemma mul_zero (x : Double.double) :
  Double.zeroOrNaN (Double.mul (Double.ofZ 0) x).
Proof. unfold Double.zeroOrNaN. destruct x; cbn; eauto. Qed.

Lemma mul_zeroOrNaN (x : Double.double) (z : Z) :
  Double.zeroOrNaN x -> 0 < z -> Z.abs z < 2 ^ 53 ->
  Double.zeroOrNaN (Double.mul x (Double.ofZ z)).
Proof.
  intros Hx P S. rewrite ofZ_exact by exact S.
  destruct z as [|p|p]; try lia. unfold Double.zeroOrNaN.
  destruct Hx as [->|[s ->]]; cbn; eauto.
Qed.

Lemma add_zeroOrNaN (x y : Double.double) :
  Double.zeroOrNaN x -> Double.zeroOrNaN y -> Double.zeroOrNaN (Double.add x y).
Proof.
  unfold Double.zeroOrNaN. intros [->|[s ->]] [->|[t ->]]; cbn; eauto.
  destruct s, t; eauto.
Qed.

Lemma ltb_zeroOrNaN (x : Double.double) :
  Double.zeroOrNaN x -> Double.ltb x (Double.ofZ 0) = false.
Proof. intros [->|[s ->]]; reflexivity. Qed.

Lemma geb_zeroOrNaN (x y : Double.double) :
  Double.zeroOrNaN x -> Double.aboveZero y -> Double.geb x y = false.
Proof.
  intros [->|[s ->]] [(m & e & ->)| ->]; reflexivity.
Qed.

Lemma toIndex_zeroOrNaN (x : Double.double) :
  Double.zeroOrNaN x -> Double.toIndex x = Some 0.
Proof. intros [->|[s ->]]; reflexivity. Qed.

(** The order of the Double.safe integers is the order of their doubles. *)
Lemma compare_safe (pa pb : positive) :
  Zpos pa < 2 ^ 53 -> Zpos pb < 2 ^ 53 ->
  match Zpos (digits2_pos pa) - 53 ?= Zpos (digits2_pos pb) - 53 with
  | Lt => Lt
  | Gt => Gt
  | Eq => Pos.compare_cont Eq
            (Double.doubled (Z.to_nat (53 - Zpos (digits2_pos pa))) pa)
            (Double.doubled (Z.to_nat (53 - Zpos (digits2_pos pb))) pb)
  end = (pa ?= pb)%positive.
Proof.
  intros Sa Sb.
  pose proof (digits_bounds pa) as [La Ua].
  pose proof (digits_bounds pb) as [Lb Ub].
  destruct (Z.compare_spec (Zpos (digits2_pos pa) - 53) (Zpos (digits2_pos pb) - 53))
    as [E|L|G].
  - replace (Zpos (digits2_pos pb)) with (Zpos (digits2_pos pa)) by lia.
    set (j := Z.to_nat _).
    change (Pos.compare_cont Eq (Double.doubled j pa) (Double.doubled j pb))
      with (Zpos (Double.doubled j pa) ?= Zpos (Double.doubled j pb)).
    rewrite !doubled_value.
    change (pa ?= pb)%positive with (Zpos pa ?= Zpos pb).
    assert (P : 0 < 2 ^ Z.of_nat j) by (apply Z.pow_pos_nonneg; lia).
    destruct (Z.compare_spec (Zpos pa) (Zpos pb)) as [->|Lt|Gt].
    + apply Z.compare_refl.
    + apply Z.compare_lt_iff. nia.
    + apply Z.compare_gt_iff. nia.
  - symmetry. change (pa ?= pb)%positive with (Zpos pa ?= Zpos pb).
    apply Z.compare_lt_iff.
    assert (2 ^ Zpos (digits2_pos pa) <= 2 ^ (Zpos (digits2_pos pb) - 1))
      by (apply Z.pow_le_mono_r; lia).
    lia.
  - symmetry. change (pa ?= pb)%positive with (Zpos pa ?= Zpos pb).
    apply Z.compare_gt_iff.
    assert (2 ^ Zpos (digits2_pos pb) <= 2 ^ (Zpos (digits2_pos pa) - 1))
      by (apply Z.pow_le_mono_r; lia).
    lia.
Qed.

Lemma compare_exact (a b : Z) :
  Z.abs a < 2 ^ 53 -> Z.abs b < 2 ^ 53 ->
  SFcompare (Double.exact a) (Double.exact b) = Some (a ?= b).
Proof.
  intros A B.
  destruct a as [|pa|pa], b as [|pb|pb]; try reflexivity;
    cbn [Double.exact Double.safe SFcompare].
  - now rewrite (compare_safe pa pb A B).
  - pose proof (compare_safe pa pb A B) as C. cbn [Z.compare].
    destruct (Zpos (digits2_pos pa) - 53 ?= Zpos (digits2_pos pb) - 53);
      rewrite <- C; reflexivity.
Qed.

Lemma ltb_exact (a b : Z) :
  Z.abs a < 2 ^ 53 -> Z.abs b < 2 ^ 53 ->
  Double.ltb (Double.exact a) (Double.exact b) = (a <? b).
Proof.
  intros A B. unfold Double.ltb, SFltb. rewrite (compare_exact a b A B).
  unfold Z.ltb. now destruct (a ?= b).
Qed.

Lemma geb_exact (a b : Z) :
  Z.abs a < 2 ^ 53 -> Z.abs b < 2 ^ 53 ->
  Double.geb (Double.exact a) (Double.exact b) = (b <=? a).
Proof.
  intros A B. unfold Double.geb, SFleb. rewrite (compare_exact b a B A).
  unfold Z.leb. now destruct (b ?= a).
Qed.

Lemma trunc_exact (a : Z) : Z.abs a < 2 ^ 53 -> Double.trunc (Double.exact a) = Some a.
Proof.
  intros A.
  assert (Finite : forall (s : bool) (p : positive),
             Zpos p < 2 ^ 53 ->
             Double.trunc (Double.safe s p) = Some (cond_Zopp s (Zpos p))).
  { intros s p S. rewrite (exact_finite s p S).
    set (j := Z.to_nat _). cbn [Double.trunc]. rewrite doubled_value.
    assert (P : 0 < 2 ^ Z.of_nat j) by (apply Z.pow_pos_nonneg; lia).
    destruct (Z.leb_spec 0 (- Z.of_nat j)).
    - replace j with O by lia. cbn. do 2 f_equal. lia.
    - rewrite Z.opp_involutive, Z.div_mul by lia. reflexivity. }
  destruct a as [|p|p]; [reflexivity|exact (Finite false p A)|exact (Finite true p A)].
Qed.

Lemma toIndex_exact (a : Z) :
  0 <= a < 2 ^ 53 -> Double.toIndex (Double.exact a) = Some a.
Proof.
  intros A. unfold Double.toIndex. rewrite trunc_exact by lia.
  replace (a <? 0) with false by (symmetry; apply Z.ltb_ge; lia).
  replace (2 ^ 53 - 1 <? a) with false by (symmetry; apply Z.ltb_ge; lia).
  reflexivity.
Qed.

Lemma shr_1_half (r : shr_record) :
  0 <= shr_m r -> shr_m (shr_1 r) = shr_m r / 2.
Proof.
  destruct r as [m rr ss]. cbn [shr_m]. intros P. rewrite <- Z.div2_div.
  destruct m as [|[p|p|]|p]; try reflexivity. lia.
Qed.

Lemma shr_iter_quotient (n : nat) (r : shr_record) :
  0 <= shr_m r -> shr_m (Nat.iter n shr_1 r) = shr_m r / 2 ^ Z.of_nat n.
Proof.
  intros P. induction n as [|n IH]; [cbn; now rewrite Z.div_1_r|].
  cbn [Nat.iter nat_rect].
  assert (Q : 0 <= shr_m (Nat.iter n shr_1 r)).
  { rewrite IH. apply Z.div_pos; [exact P|]. apply Z.pow_pos_nonneg; lia. }
  change (nat_rect _ r (fun _ => shr_1) n) with (Nat.iter n shr_1 r).
  rewrite (shr_1_half _ Q), IH, Z.div_div, Nat2Z.inj_succ, Z.pow_succ_r by
    (try apply Z.pow_pos_nonneg; lia).
  f_equal. lia.
Qed.

Lemma round_nearest_even_bounds (m : Z) (l : location) :
  m <= round_nearest_even m l <= m + 1.
Proof.
  destruct l as [|[]]; cbn [round_nearest_even]; try lia.
  destruct (Z.even m); lia.
Qed.

Lemma ofZ_positive (z : Z) : 0 < z -> Double.aboveZero (Double.ofZ z).
Proof.
  intros P. destruct z as [|p|p]; try lia.
  destruct (Z_lt_ge_dec (Zpos p) (2 ^ 53)) as [Small|Big].
  { rewrite ofZ_exact by exact Small. left. cbn [Double.exact]. unfold Double.safe. eauto. }
  pose proof (digits_bounds p) as [Lp Up].
  assert (D : 53 < Zpos (digits2_pos p)) by (apply digits_lower; lia).
  set (d := Zpos (digits2_pos p)) in *.
  unfold Double.ofZ, Double.dyadic. cbn [binary_normalize].
  unfold binary_round, shl_align, fexp, emin, Double.prec, Double.emax. fold d.
  destruct (Z.max (d + 0 - 53) (3 - 1024 - 53) - 0) as [|sh|sh] eqn:E; try lia.
  unfold binary_round_aux, shr_fexp at 1, fexp, emin.
  cbn [Zdigits2 shr_record_of_loc]. fold d.
  replace (Z.max (d + 0 - 53) (3 - 1024 - 53) - 0) with (Zpos sh) by lia.
  cbn [shr]. rewrite iter_pos_nat.
  set (n := Pos.to_nat sh).
  set (r1 := Nat.iter n shr_1 _).
  assert (M1 : shr_m r1 = Zpos p / 2 ^ Z.of_nat n).
  { subst r1. now rewrite shr_iter_quotient by (cbn; lia). }
  assert (N : Z.of_nat n = d - 53) by lia.
  assert (B1 : 2 ^ 52 <= shr_m r1 < 2 ^ 53).
  { rewrite M1, N.
    assert (P2 : 0 < 2 ^ (d - 53)) by (apply Z.pow_pos_nonneg; lia).
    assert (E1 : 2 ^ (d - 1) = 2 ^ 52 * 2 ^ (d - 53))
      by (rewrite <- Z.pow_add_r by lia; f_equal; lia).
    assert (E2 : 2 ^ d = 2 ^ 53 * 2 ^ (d - 53))
      by (rewrite <- Z.pow_add_r by lia; f_equal; lia).
    split.
    - apply Z.div_le_lower_bound; lia.
    - apply Z.div_lt_upper_bound; lia. }
  pose proof (round_nearest_even_bounds (shr_m r1) (loc_of_shr_record r1)) as B2.
  set (m2 := round_nearest_even (shr_m r1) (loc_of_shr_record r1)) in *.
  destruct m2 as [|q|q] eqn:Q; try lia.
  unfold shr_fexp, fexp, emin. cbn [Zdigits2 shr_record_of_loc].
  pose proof (digits_bounds q) as [Lq Uq].
  assert (D2 : 52 < Zpos (digits2_pos q)) by (apply digits_lower; lia).
  assert (D3 : Zpos (digits2_pos q) <= 54).
  { destruct (Z_le_gt_dec (Zpos (digits2_pos q)) 54) as [|G]; [assumption|].
    exfalso. assert (2 ^ 54 <= 2 ^ (Zpos (digits2_pos q) - 1))
      by (apply Z.pow_le_mono_r; lia).
    lia. }
  set (dq := Zpos (digits2_pos q)) in *.
  destruct (Z.eq_dec dq 53) as [E53|N53].
  - replace (Z.max (dq + (0 + Zpos sh) - 53) (3 - 1024 - 53) - (0 + Zpos sh))
      with 0 by lia.
    cbn [shr shr_m]. destruct (_ <=? _); [left; eauto|now right].
  - replace (Z.max (dq + (0 + Zpos sh) - 53) (3 - 1024 - 53) - (0 + Zpos sh))
      with 1 by lia.
    cbn [shr SpecFloat.iter_pos].
    assert (H : shr_m (shr_1 {| shr_m := Zpos q; shr_r := false; shr_s := false |})
                = Zpos q / 2) by (apply shr_1_half; cbn; lia).
    assert (Pq : 0 < Zpos q / 2).
    { apply Z.div_str_pos. lia. }
    destruct (shr_m (shr_1 _)) as [|m|m]; try lia.
    destruct (_ <=? _); [left; eauto|now right].
Qed.

(** ** The data matrix *)

Lemma wordBytes_pos (b : FITSData.FITSBITPIX) : 1 <= FITSData.wordBytes b.
Proof. destruct b; vm_compute; discriminate. Qed.

(** C2. [FITSData.fromArray] does not build the matrix: with a supported
    BITPIX and as many values as the axes have points, at least one, it
    throws the RangeError of [DataView], since every setter is called with
    the length of the view as its offset; with BITPIX 64 it throws the
    TypeError of the unsupported depth. *)
Theorem C2_fromArray_throws (number : Type)
  (NumericToRawBytes : FITSData.FITSBITPIX -> number -> DataView.buffer)
  (data : list number) (b : FITSData.FITSBITPIX) (axes : list Z) :
  data <> [] ->
  Z.of_nat (length data) = FITSData.points axes ->
  FITSData.fromArray number NumericToRawBytes data b axes
  = Throw (match b with
           | FITSData.B64 => UnsupportedBitDepth
           | _ => DataViewRange
           end).
Proof.
  intros Hne Hlen. unfold FITSData.fromArray.
  rewrite <- Hlen, Z.eqb_refl. cbn [negb].
  destruct data as [|point data]; [contradiction|].
  cbn [FITSData.store_all]. unfold FITSData.store, DataView.set.
  set (view := DataView.zeros _).
  pose proof (wordBytes_pos b) as W.
  assert (Over : (Z.of_nat (length view) <? 0)
                 || (Z.of_nat (length view)
                     <? Z.of_nat (length view)
                        + Z.of_nat (Z.to_nat (FITSData.wordBytes b))) = true).
  { apply orb_true_iff. right. apply Z.ltb_lt. lia. }
  destruct b; try reflexivity; rewrite Over; reflexivity.
Qed.

Lemma C2_fromArray_throws_witness :
  FITSData.fromArray Z (fun _ _ => [Byte.x00; Byte.x00]) [1; 2; 3; 4]
    FITSData.B16 [2; 2]
  = Throw DataViewRange.
Proof.
  apply (C2_fromArray_throws Z (fun _ _ => [Byte.x00; Byte.x00]) [1; 2; 3; 4]
           FITSData.B16 [2; 2]).
  - discriminate.
  - reflexivity.
Defined.

(** The only input for which [fromArray] returns: no value at all. *)
Lemma fromArray_empty (number : Type)
  (NumericToRawBytes : FITSData.FITSBITPIX -> number -> DataView.buffer) :
  FITSData.fromArray number NumericToRawBytes [] FITSData.B8 [0]
  = Ok Examples.empty_row.
Proof. reflexivity. Qed.

(** C1. [getPoint] does not return what [getData] yields: on the row of
    the bytes 10 and 20, [getData] yields 10 at (1) and 20 at (2), while
    [getPoint(1)] returns 20 and [getPoint(2)] throws; on the 2 x 2 square
    of 1, 2, 3, 4, [getData] yields 1 at (1, 1) and 4 at (2, 2), while
    [getPoint(1, 1)] returns 4 and [getPoint(2, 2)] throws. *)
Theorem C1_getPoint_disagrees_with_getData :
  FITSData.getData Examples.row_10_20
  = ([([FITSData.Num 1], FITSData.Int 10); ([FITSData.Num 2], FITSData.Int 20)],
     FITSData.Done)
  /\ FITSData.getPoint Examples.row_10_20 (map Double.ofZ [1])
     = Ok (FITSData.Int 20)
  /\ FITSData.getPoint Examples.row_10_20 (map Double.ofZ [2])
     = Throw OutOfBounds
  /\ FITSData.getData Examples.square_1234
     = ([([FITSData.Num 1; FITSData.Num 1], FITSData.Int 1);
         ([FITSData.Num 2; FITSData.Num 1], FITSData.Int 2);
         ([FITSData.Num 1; FITSData.Num 2], FITSData.Int 3);
         ([FITSData.Num 2; FITSData.Num 2], FITSData.Int 4)],
        FITSData.Done)
  /\ FITSData.getPoint Examples.square_1234 (map Double.ofZ [1; 1])
     = Ok (FITSData.Int 4)
  /\ FITSData.getPoint Examples.square_1234 (map Double.ofZ [2; 2])
     = Throw OutOfBounds.
Proof. repeat split; vm_compute; reflexivity. Qed.

(** [readPoint] has its own two exceptions. *)
Lemma readPoint_throws (d : FITSData.FITSData) (offset : FITSData.num) (e : exn) :
  FITSData.readPoint d offset = Throw e ->
  e = UnsupportedBitDepth \/ e = DataViewRange.
Proof.
  unfold FITSData.readPoint, DataView.getInt, DataView.getBits, DataView.bytesAt.
  destruct (FITSData.BITPIX d);
    try (destruct (_ || _); cbn; intros [= <-]; auto; fail).
  intros [= <-]. auto.
Qed.

Lemma readPointAt_throws (d : FITSData.FITSData) (offset : Double.double)
  (e : exn) :
  FITSData.readPointAt d offset = Throw e ->
  e = UnsupportedBitDepth \/ e = DataViewRange.
Proof.
  unfold FITSData.readPointAt.
  destruct (FITSData.BITPIX d) eqn:B;
    try (destruct (Double.toIndex offset);
         [apply readPoint_throws|intros [= <-]; auto]).
  intros [= <-]. auto.
Qed.

(** At an index [DataView] accepts, [readPointAt] reads as [readPoint]
    does. *)
Lemma readPointAt_index (d : FITSData.FITSData) (offset : Double.double)
  (index : Z) :
  Double.toIndex offset = Some index ->
  FITSData.readPointAt d offset = FITSData.readPoint d (FITSData.Num index).
Proof.
  intros I. unfold FITSData.readPointAt. rewrite I.
  unfold FITSData.readPoint. now destruct (FITSData.BITPIX d).
Qed.

(** The loop of [getPoint] with every coordinate 0 adds zeros, or [NaN]
    where a stride is not finite. *)
Lemma offset_loop_zeros (d : FITSData.FITSData) (n i : nat)
  (mul offset : Double.double) :
  Double.zeroOrNaN offset ->
  Double.zeroOrNaN (FITSData.offset_loop d (repeat (Double.ofZ 0) n) i mul offset).
Proof.
  revert i mul offset. induction n as [|n IH]; intros i mul offset Z;
    cbn [repeat FITSData.offset_loop]; [exact Z|].
  apply IH, add_zeroOrNaN; [exact Z|apply mul_zero].
Qed.

Lemma points_pos_from (axes : list Z) (acc : Z) :
  Forall (fun n => 0 < n) axes -> 0 < acc -> 0 < fold_left Z.mul axes acc.
Proof.
  revert acc. induction axes as [|a axes IH]; intros acc H P; cbn; [exact P|].
  inversion H; subst. apply IH; [assumption|lia].
Qed.

Lemma points_pos (axes : list Z) :
  Forall (fun n => 0 < n) axes -> 0 < FITSData.points axes.
Proof. intros H. apply points_pos_from; [exact H|lia]. Qed.

(** The first word of a buffer that holds at least one word can be read. *)
Lemma readPoint_first (d : FITSData.FITSData) :
  FITSData.BITPIX d <> FITSData.B64 ->
  FITSData.wordBytes (FITSData.BITPIX d) <= FITSData.byteLength d ->
  exists w, FITSData.readPoint d (FITSData.Num 0) = Ok w.
Proof.
  unfold FITSData.readPoint, FITSData.byteLength, DataView.getInt,
    DataView.getBits, DataView.bytesAt, FITSData.toIndex.
  intros B L.
  destruct (FITSData.BITPIX d); try contradiction;
    match type of L with
    | ?w <= _ => let v := eval vm_compute in w in change w with v in L
    end;
    match goal with
    | |- context [?a || ?b] =>
        replace (a || b) with false
          by (symmetry; apply orb_false_iff; split;
              [reflexivity|apply Z.ltb_ge; lia])
    end; cbn; eauto.
Qed.

(** What [getPoint] does once the number of coordinates is right and
    [NAXIS] is not 0. *)
Lemma getPoint_checked (d : FITSData.FITSData) (coords : list Double.double) :
  Z.of_nat (length coords) = FITSData.NAXIS d ->
  FITSData.NAXIS d <> 0 ->
  FITSData.getPoint d coords
  = if Double.ltb (FITSData.byteOffset d coords) (Double.ofZ 0)
       || Double.geb (FITSData.byteOffset d coords)
            (Double.ofZ (FITSData.byteLength d))
    then Throw OutOfBounds
    else FITSData.readPointAt d (FITSData.byteOffset d coords).
Proof.
  intros A N. unfold FITSData.getPoint.
  rewrite A, Z.eqb_refl. cbn [negb].
  destruct (Z.eqb_spec (FITSData.NAXIS d) 0); [contradiction|reflexivity].
Qed.

(** The call with every coordinate 0 on a matrix with a byte at least:
    the offset is a zero or [NaN], it passes the check, and the byte offset
    read is 0. *)
Lemma getPoint_zeros (d : FITSData.FITSData) :
  1 <= FITSData.NAXIS d ->
  1 <= FITSData.byteLength d ->
  FITSData.getPoint d (repeat (Double.ofZ 0) (Z.to_nat (FITSData.NAXIS d)))
  = FITSData.readPoint d (FITSData.Num 0).
Proof.
  intros N L.
  rewrite getPoint_checked; [|rewrite repeat_length; lia|lia].
  assert (Z : Double.zeroOrNaN
                (FITSData.byteOffset d
                   (repeat (Double.ofZ 0) (Z.to_nat (FITSData.NAXIS d))))).
  { unfold FITSData.byteOffset. apply mul_zeroOrNaN.
    - apply offset_loop_zeros. right. now exists false.
    - pose proof (wordBytes_pos (FITSData.BITPIX d)). lia.
    - destruct (FITSData.BITPIX d); vm_compute; reflexivity. }
  rewrite (ltb_zeroOrNaN _ Z), (geb_zeroOrNaN _ _ Z) by (apply ofZ_positive; lia).
  cbn [orb]. apply readPointAt_index. now apply toIndex_zeroOrNaN.
Qed.

(** C10 as stated fails on a matrix of 64-bit integers: the call with the
    coordinate 0 passes the bounds check and then fails, it returns no
    word.  It fails as well on the matrix without points that [fromArray]
    returns for an axis of length 0: there the call is out of bounds. *)
Lemma C10_int64_matrix_returns_no_word :
  FITSData.wellShaped Examples.one_int64
  /\ 1 <= FITSData.NAXIS Examples.one_int64
  /\ FITSData.getPoint Examples.one_int64 (map Double.ofZ [0])
     = Throw UnsupportedBitDepth
  /\ ~ (exists w, FITSData.getPoint Examples.one_int64 (map Double.ofZ [0]) = Ok w)
  /\ 1 <= FITSData.NAXIS Examples.empty_row
  /\ FITSData.getPoint Examples.empty_row (map Double.ofZ [0]) = Throw OutOfBounds.
Proof.
  split; [|split; [|split; [|split; [|split]]]].
  - unfold FITSData.wellShaped. cbn. repeat split.
    repeat constructor.
  - cbn. lia.
  - reflexivity.
  - intros [w H]. discriminate H.
  - cbn. lia.
  - reflexivity.
Qed.

(** C10, amended. [getPoint] raises its out-of-bounds error exactly when
    the number of coordinates is [NAXIS], [NAXIS] is not 0 and the byte
    offset computed from the coordinates is negative or at least the length
    of the buffer; no coordinate is compared with the length of its axis.
    So on every matrix with [NAXIS >= 1], the call with every coordinate 0
    passes the check and reads at byte offset 0: with a BITPIX other than
    64 and a buffer that holds a word, it returns the word at byte offset
    0; with BITPIX 64 and a buffer that is not empty, it fails as
    unsupported. *)
Theorem C10_getPoint_checks_the_byte_offset_only (d : FITSData.FITSData) :
  (forall coords : list Double.double,
     FITSData.getPoint d coords = Throw OutOfBounds <->
     Z.of_nat (length coords) = FITSData.NAXIS d
     /\ FITSData.NAXIS d <> 0
     /\ (Double.ltb (FITSData.byteOffset d coords) (Double.ofZ 0) = true
         \/ Double.geb (FITSData.byteOffset d coords)
              (Double.ofZ (FITSData.byteLength d)) = true))
  /\ (1 <= FITSData.NAXIS d ->
      let zeros := repeat (Double.ofZ 0) (Z.to_nat (FITSData.NAXIS d)) in
      (FITSData.BITPIX d <> FITSData.B64 ->
       FITSData.wordBytes (FITSData.BITPIX d) <= FITSData.byteLength d ->
       exists w,
         FITSData.readPoint d (FITSData.Num 0) = Ok w
         /\ FITSData.getPoint d zeros = Ok w)
      /\ (FITSData.BITPIX d = FITSData.B64 ->
          1 <= FITSData.byteLength d ->
          FITSData.getPoint d zeros = Throw UnsupportedBitDepth)).
Proof.
  split.
  - intros coords. split.
    + unfold FITSData.getPoint.
      destruct (Z.eqb_spec (Z.of_nat (length coords)) (FITSData.NAXIS d)) as [A|A];
        cbn [negb]; [|discriminate].
      destruct (Z.eqb_spec (FITSData.NAXIS d) 0) as [N|N]; [discriminate|].
      cbn zeta.
      destruct (Double.ltb _ _) eqn:Lo; cbn [orb]; [auto|].
      destruct (Double.geb _ _) eqn:Hi; [auto|].
      intros R. apply readPointAt_throws in R as [R|R]; discriminate R.
    + intros (A & N & B). rewrite getPoint_checked by assumption.
      destruct B as [-> | ->]; [reflexivity|]. now rewrite orb_true_r.
  - intros N zeros. pose proof (wordBytes_pos (FITSData.BITPIX d)) as W.
    split.
    + intros B L. destruct (readPoint_first d B L) as [w R].
      exists w. split; [exact R|].
      subst zeros. rewrite getPoint_zeros by lia. exact R.
    + intros B L. subst zeros. rewrite getPoint_zeros by lia.
      unfold FITSData.readPoint. now rewrite B.
Qed.

Lemma C10_getPoint_checks_the_byte_offset_only_witness :
  FITSData.getPoint Examples.square_1234 (map Double.ofZ [0; 0])
  = Ok (FITSData.Int 1).
Proof.
  destruct (C10_getPoint_checks_the_byte_offset_only Examples.square_1234)
    as [_ H].
  destruct H as [H _]; [cbn; lia|].
  destruct H as (w & R & G).
  - discriminate.
  - vm_compute. discriminate.
  - injection R as <-. exact G.
Defined.

(** What [getData] has yielded stays yielded. *)
Lemma sweep_keeps (fuel : nat) (d : FITSData.FITSData) :
  forall (coords : list FITSData.num) (offset : Z)
         (yielded : list (list FITSData.num * FITSData.word)),
  exists more,
    fst (FITSData.sweep fuel d coords offset yielded) = yielded ++ more.
Proof.
  induction fuel as [|fuel IH]; intros coords offset yielded; cbn [FITSData.sweep].
  - exists []. now rewrite app_nil_r.
  - destruct (FITSData.readPoint d (FITSData.Num offset)) as [value|e].
    + destruct (_ <? _).
      * edestruct IH as [more ->]. rewrite <- app_assoc. eauto.
      * cbn. eauto.
    + exists []. cbn. now rewrite app_nil_r.
Qed.

(** The first point [getData] yields on a well-shaped matrix: all
    coordinates 1, the word at byte offset 0. *)
Lemma getData_first_yield (d : FITSData.FITSData) :
  FITSData.wellShaped d ->
  1 <= FITSData.NAXIS d ->
  FITSData.BITPIX d <> FITSData.B64 ->
  exists w more,
    FITSData.readPoint d (FITSData.Num 0) = Ok w
    /\ fst (FITSData.getData d)
       = (repeat (FITSData.Num 1) (Z.to_nat (FITSData.NAXIS d)), w) :: more.
Proof.
  intros (Shape & Pos & Len) N B.
  pose proof (points_pos _ Pos) as Pts.
  pose proof (wordBytes_pos (FITSData.BITPIX d)) as W.
  destruct (readPoint_first d B) as [w R]; [nia|].
  unfold FITSData.getData.
  destruct (Z.eqb_spec (FITSData.NAXIS d) 0); [lia|].
  cbn [FITSData.sweep]. rewrite R. cbn [app].
  destruct (_ <? _).
  - edestruct sweep_keeps as [more ->]. exists w, more. split; reflexivity.
  - exists w, []. split; reflexivity.
Qed.

(** The generator always comes to an end of its own: the rounds allotted
    to [getData] are never used up. *)
Lemma sweep_ends (fuel : nat) (d : FITSData.FITSData)
  (coords : list FITSData.num) (offset : Z)
  (yielded : list (list FITSData.num * FITSData.word)) :
  (0 < fuel)%nat ->
  FITSData.byteLength d - offset < Z.of_nat fuel ->
  snd (FITSData.sweep fuel d coords offset yielded) <> FITSData.OutOfFuel.
Proof.
  revert coords offset yielded.
  induction fuel as [|fuel IH]; intros coords offset yielded F B; [lia|].
  cbn [FITSData.sweep].
  destruct (FITSData.readPoint d (FITSData.Num offset)); [|discriminate].
  pose proof (wordBytes_pos (FITSData.BITPIX d)) as W.
  destruct (Z.ltb_spec (offset + FITSData.wordBytes (FITSData.BITPIX d))
              (FITSData.byteLength d)); [|discriminate].
  apply IH; lia.
Qed.

Lemma getData_ends (d : FITSData.FITSData) :
  snd (FITSData.getData d) <> FITSData.OutOfFuel.
Proof.
  unfold FITSData.getData. destruct (_ =? _); [discriminate|].
  apply sweep_ends; [lia|]. unfold FITSData.byteLength. lia.
Qed.

(** ** The number formatter *)

(** C8. [realToString] neither always succeeds nor keeps to 20 characters:
    for 1e20, whose text has 21 characters and no exponent, it throws a
    TypeError (it reads the length of an exponent that is not there); for
    [Number.MAX_VALUE] it returns 21 characters (the [E] is not counted
    when the mantissa is cut). *)
Theorem C8_realToString_throws_or_overflows :
  Card.toString Examples.number_1e20 = "100000000000000000000"
  /\ Card.realToString Examples.number_1e20 = Throw UndefinedProperty
  /\ Card.toString Examples.number_MAX_VALUE = "1.7976931348623157e+308"
  /\ Card.realToString Examples.number_MAX_VALUE = Ok "1.79769313486231E+308"
  /\ String.length "1.79769313486231E+308" = 21%nat.
Proof. repeat split. Qed.

(** A long text without exponent makes [realToString] throw, whatever the
    number. *)
Lemma splitE_go_plain (cur s : list ascii) :
  forallb (fun c => negb (Ascii.eqb c "E")) s = true ->
  Js.splitE_go cur s = [Js.str (rev cur ++ s)].
Proof.
  revert cur. induction s as [|a s IH]; intros cur H; cbn in *.
  - now rewrite app_nil_r.
  - apply andb_true_iff in H as [Ha Hs].
    destruct (Ascii.eqb a "E"); [discriminate|].
    rewrite IH by exact Hs. cbn. now rewrite <- app_assoc.
Qed.

Lemma realToString_without_exponent (n : Card.number) :
  (20 < String.length (Js.replaceFirst_e (Card.toString n)))%nat ->
  forallb (fun c => negb (Ascii.eqb c "E"))
    (Js.chars (Js.replaceFirst_e (Card.toString n))) = true ->
  Card.realToString n = Throw UndefinedProperty.
Proof.
  intros L P. unfold Card.realToString.
  destruct (Nat.ltb_spec 20 (String.length (Js.replaceFirst_e (Card.toString n))));
    [|lia].
  unfold Js.splitE. now rewrite splitE_go_plain.
Qed.

(** ** Commentary records *)

(** What [Card.fromString] makes of a record of 80 characters whose
    keyword is one of the commentary keywords, [END] included. *)
Lemma fromString_commentary (parseFloat : string -> Card.number)
  (image : string) (pad : bool) :
  String.length image = 80%nat ->
  Card.includes Card.COMMENTARY_KEYWORDS (Js.trimEnd (Js.slice image 0 8)) = true ->
  Card.fromString parseFloat image pad
  = Ok (Card.mkCard image (Js.trimEnd (Js.slice image 0 8))
          (Card.VString
             (Js.trim (if Js.startsWith (Js.sliceFrom image 8) "= "
                       then Js.sliceFrom (Js.sliceFrom image 8) 2
                       else Js.sliceFrom image 8)))
          None).
Proof.
  intros L K. unfold Card.fromString.
  assert (P : (if pad then Ok (Js.padEnd image Card.CARD_LENGTH)
               else if negb (Card.len image =? Card.CARD_LENGTH)
                    then Throw ImageLength else Ok image) = Ok image).
  { destruct pad.
    - rewrite padEnd_full; [reflexivity|].
      unfold Card.len, Card.CARD_LENGTH. lia.
    - unfold Card.len, Card.CARD_LENGTH. rewrite L. reflexivity. }
  rewrite P. cbn [rbind].
  unfold Card.KEYWORD_LENGTH, Card.VALUE_INDICATOR. rewrite K. reflexivity.
Qed.

(** C6 as stated fails: the text of a COMMENT record comes back as the
    value of the card, a string, and the comment of the card is absent. *)
Lemma C6_commentary_value_is_not_undefined :
  String.length Examples.record_COMMENT = 80%nat
  /\ Js.trimEnd (Js.slice Examples.record_COMMENT 0 8) = "COMMENT"
  /\ Card.fromString Examples.parseFloat_whole Examples.record_COMMENT false
     = Ok (Card.mkCard Examples.record_COMMENT "COMMENT"
             (Card.VString "observed at dusk") None)
  /\ ~ (exists card,
          Card.fromString Examples.parseFloat_whole Examples.record_COMMENT false
          = Ok card
          /\ Card.value card = Card.VNull
          /\ Card.comment card = Some "observed at dusk").
Proof.
  split; [reflexivity|]. split; [reflexivity|]. split; [reflexivity|].
  intros (card & H & V & _).
  vm_compute in H. injection H as <-. discriminate V.
Qed.

(** C6, amended. For every record of 80 characters whose keyword, the
    first 8 characters without the blanks at their end, is blank, HISTORY or
    COMMENT, [Card.fromString] returns a card whose value is the rest of the
    record, after a leading ["= "] when there is one, trimmed, as a string,
    and whose comment is absent. *)
Theorem C6_commentary_text_is_the_value (parseFloat : string -> Card.number)
  (image : string) (pad : bool) :
  String.length image = 80%nat ->
  Js.trimEnd (Js.slice image 0 8) = EmptyString
  \/ Js.trimEnd (Js.slice image 0 8) = "HISTORY"
  \/ Js.trimEnd (Js.slice image 0 8) = "COMMENT" ->
  exists card,
    Card.fromString parseFloat image pad = Ok card
    /\ Card.image card = image
    /\ Card.keyword card = Js.trimEnd (Js.slice image 0 8)
    /\ Card.value card
       = Card.VString
           (Js.trim (if Js.startsWith (Js.sliceFrom image 8) "= "
                     then Js.sliceFrom (Js.sliceFrom image 8) 2
                     else Js.sliceFrom image 8))
    /\ Card.comment card = None.
Proof.
  intros L K. eexists. split.
  - apply fromString_commentary; [exact L|].
    destruct K as [-> | [-> | ->]]; reflexivity.
  - repeat split.
Qed.

Lemma C6_commentary_text_is_the_value_witness :
  exists card,
    Card.fromString Examples.parseFloat_whole Examples.record_COMMENT true = Ok card
    /\ Card.image card = Examples.record_COMMENT
    /\ Card.keyword card = "COMMENT"
    /\ Card.value card = Card.VString "observed at dusk"
    /\ Card.comment card = None.
Proof.
  destruct (C6_commentary_text_is_the_value Examples.parseFloat_whole
              Examples.record_COMMENT true) as (card & H & I & K & V & C).
  - reflexivity.
  - right. right. reflexivity.
  - exists card. repeat split; assumption.
Defined.

(** ** [setValue] *)

Lemma at_index_past_end {A} (l : list A) (index : Z) :
  Z.of_nat (length l) < index -> FITSHeader.at_index l index = None.
Proof.
  intros H. unfold FITSHeader.at_index.
  destruct (Z.ltb_spec index 0); [reflexivity|].
  apply lookup_ge_None. lia.
Qed.

(** C3 as stated fails: an accepted call changes the card sequence of its
    receiver, and what it returns is a number. *)
Lemma C3_setValue_writes_to_the_receiver :
  FITSHeader.setValue "OBJECT" (Some (Card.VString "M31")) 0 Examples.world_SIMPLE
  = (Ok 1,
     FITSHeader.mkWorld (mkRegexState 6 0 3 0 0 0 0)
       (FITSHeader.mkHeader [Examples.card_SIMPLE; Examples.card_OBJECT]))
  /\ FITSHeader.cards (FITSHeader.this Examples.world_SIMPLE)
     = [Examples.card_SIMPLE]
  /\ [Examples.card_SIMPLE; Examples.card_OBJECT] <> [Examples.card_SIMPLE].
Proof. split; [vm_compute; reflexivity|]. split; [reflexivity|discriminate]. Qed.

(** C3, amended. [setValue] works on its receiver in place and returns a
    number: after every accepted call that carries a value, the card
    sequence of the receiver is another one than before the call, and it
    holds the card [Card.fromValue] encoded from the keyword and the
    value. *)
Theorem C3_setValue_updates_in_place (keyword : string)
  (v : Card.FITSCardValue) (index : Z) (w w' : FITSHeader.World) (n : Z) :
  FITSHeader.setValue keyword (Some v) index w = (Ok n, w') ->
  exists card,
    Card.fromValue keyword v None (FITSHeader.regexes w)
    = (Ok card, FITSHeader.regexes w')
    /\ In card (FITSHeader.cards (FITSHeader.this w'))
    /\ FITSHeader.cards (FITSHeader.this w')
       <> FITSHeader.cards (FITSHeader.this w).
Proof.
  unfold FITSHeader.setValue.
  destruct (_ || _); [discriminate|].
  unfold bind, FITSHeader.getCards, FITSHeader.setCards, FITSHeader.liftR,
    ret, throw.
  destruct (Z.leb_spec index
              (Z.of_nat (length (FITSHeader.matching keyword
                                   (FITSHeader.cards (FITSHeader.this w))))))
    as [In_range|Past].
  - destruct (Card.fromValue keyword v None (FITSHeader.regexes w))
      as [[card|e] st] eqn:F; cbn; [|discriminate].
    intros [= _ <-]. cbn. exists card. split; [reflexivity|]. split.
    + apply in_or_app. right. now left.
    + intros E. apply (f_equal (@length _)) in E.
      rewrite length_app in E. simpl in E. lia.
  - rewrite at_index_past_end by exact Past. discriminate.
Qed.

Lemma C3_setValue_updates_in_place_witness :
  In Examples.card_OBJECT [Examples.card_SIMPLE; Examples.card_OBJECT]
  /\ [Examples.card_SIMPLE; Examples.card_OBJECT] <> [Examples.card_SIMPLE].
Proof.
  destruct (C3_setValue_updates_in_place "OBJECT" (Card.VString "M31") 0
              Examples.world_SIMPLE
              (FITSHeader.mkWorld (mkRegexState 6 0 3 0 0 0 0)
                 (FITSHeader.mkHeader [Examples.card_SIMPLE; Examples.card_OBJECT]))
              1) as (card & F & I & N).
  - vm_compute. reflexivity.
  - vm_compute in F. injection F as <-. split; [exact I|exact N].
Defined.

(** ** Long strings *)

Lemma append_assoc (a b c : string) : (a +:+ b) +:+ c = a +:+ (b +:+ c).
Proof.
  induction a as [|x a IH]; [reflexivity|].
  change (String x ((a +:+ b) +:+ c) = String x (a +:+ (b +:+ c))).
  now rewrite IH.
Qed.

Lemma endsWith_amp (s : string) : Js.endsWith (s +:+ "&") "&" = true.
Proof.
  unfold Js.endsWith. apply bool_decide_eq_true.
  rewrite chars_append, length_app. cbn [Js.chars list_ascii_of_string length].
  replace (length (Js.chars s) + 1 - 1)%nat with (length (Js.chars s)) by lia.
  now rewrite drop_app_length.
Qed.

Lemma slice_amp (s : string) : Js.slice (s +:+ "&") 0 (-1) = s.
Proof.
  unfold Js.slice, Js.clamp. rewrite length_append. cbn [String.length].
  replace (0 <? 0) with false by reflexivity.
  replace (-1 <? 0) with true by reflexivity.
  rewrite Nat.min_0_l, drop_0, Nat.sub_0_r, chars_append.
  replace (Z.to_nat (Z.max (Z.of_nat (String.length s + 1) + -1) 0))
    with (length (Js.chars s)) by (rewrite length_chars; lia).
  rewrite take_app_length. apply str_chars.
Qed.

(** The loop of [getValues] stops at once on a string that does not end
    with the ampersand, and before a card that is not a CONTINUE card. *)
Lemma resolve_stops (v : string) (rest : list Card.Card) :
  Js.endsWith v "&" = false
  \/ match rest with
     | c :: _ => Card.keyword c <> "CONTINUE"
     | [] => True
     end ->
  FITSHeader.resolve v rest = v.
Proof.
  destruct rest as [|c rest]; [reflexivity|]. cbn [FITSHeader.resolve].
  intros [-> | H]; [reflexivity|].
  apply String.eqb_neq in H. rewrite H. now rewrite andb_false_r.
Qed.

(** The loop on a chain: every CONTINUE card but the last holds a string
    that ends with the ampersand. *)
Lemma resolve_chain (ts : list string) :
  forall (t0 last : string) (conts post : list Card.Card),
    map Card.keyword conts = repeat "CONTINUE" (S (length ts)) ->
    map Card.value conts
    = map (fun t => Card.VString (t +:+ "&")) ts ++ [Card.VString last] ->
    Js.endsWith (t0 +:+ Js.join ts +:+ last) "&" = false
    \/ match post with
       | c :: _ => Card.keyword c <> "CONTINUE"
       | [] => True
       end ->
    FITSHeader.resolve (t0 +:+ "&") (conts ++ post)
    = t0 +:+ Js.join ts +:+ last.
Proof.
  induction ts as [|t ts IH]; intros t0 last conts post K V Stop.
  - destruct conts as [|c [|c' conts]]; try discriminate.
    injection K as K. injection V as V.
    cbn [app FITSHeader.resolve]. rewrite endsWith_amp, K, V.
    cbn [String.eqb Ascii.eqb Bool.eqb andb FITSHeader.toJsString].
    rewrite slice_amp. apply resolve_stops. exact Stop.
  - destruct conts as [|c conts]; [discriminate|].
    injection K as K K'. injection V as V V'.
    cbn [app FITSHeader.resolve]. rewrite endsWith_amp, K, V.
    cbn [String.eqb Ascii.eqb Bool.eqb andb FITSHeader.toJsString].
    rewrite slice_amp, <- append_assoc.
    assert (Eq : t0 +:+ Js.join (t :: ts) +:+ last
                 = (t0 +:+ t) +:+ Js.join ts +:+ last).
    { unfold Js.join. cbn [fold_right]. now rewrite !append_assoc. }
    rewrite Eq in Stop |- *. exact (IH (t0 +:+ t) last conts post K' V' Stop).
Qed.

Lemma never_matches_test (r : Regex.regex) (k : string) (i : nat) :
  FITSHeader.never_matches r k = true -> Regex.test_g r i k = (false, O).
Proof.
  unfold FITSHeader.never_matches, Regex.test_g. intros H.
  destruct (Nat.ltb_spec (length (Js.chars k)) i); [reflexivity|].
  rewrite forallb_forall in H. specialize (H i).
  destruct (Regex.search _ _ _); [|reflexivity].
  discriminate H. apply in_seq. lia.
Qed.

(** A card with a string value passes the check of [getValues] when its
    keyword is in none of the integer, real and logical tables, in every
    state of the regexes. *)
Lemma validate_string (card : Card.Card) (st : RegexState) :
  FITSHeader.never_matches FITSHeader.fitsCardIntegerRegExp (Card.keyword card) = true ->
  FITSHeader.never_matches FITSHeader.fitsCardRealRegExp (Card.keyword card) = true ->
  FITSHeader.never_matches FITSHeader.fitsCardLogicalRegExp (Card.keyword card) = true ->
  Card.is_string (Card.value card) = true ->
  exists st', FITSHeader.validate card st = (Ok tt, st').
Proof.
  intros I R L Str.
  unfold FITSHeader.validate, FITSHeader.isFITSCardInteger,
    FITSHeader.isFITSCardReal, FITSHeader.isFITSCardLogical,
    FITSHeader.isFITSCardString, test, bind.
  rewrite (never_matches_test _ _ _ I). cbn -[Regex.test_g].
  rewrite (never_matches_test _ _ _ R). cbn -[Regex.test_g].
  rewrite (never_matches_test _ _ _ L). cbn -[Regex.test_g].
  destruct (Regex.test_g _ _ _) as [[|] i].
  - destruct (Card.value card); try discriminate. cbn. eauto.
  - cbn. eauto.
Qed.

Lemma matching_app (k : string) (l1 l2 : list Card.Card) (i : nat) :
  List.filter (fun p => String.eqb (Card.keyword (fst p)) k)
    (FITSHeader.indexed_from i (l1 ++ l2))
  = List.filter (fun p => String.eqb (Card.keyword (fst p)) k)
      (FITSHeader.indexed_from i l1)
    ++ List.filter (fun p => String.eqb (Card.keyword (fst p)) k)
         (FITSHeader.indexed_from (i + length l1) l2).
Proof.
  revert i. induction l1 as [|c l1 IH]; intros i; cbn.
  - now rewrite Nat.add_0_r.
  - rewrite IH. replace (S i + length l1)%nat with (i + S (length l1))%nat by lia.
    now destruct (String.eqb _ _).
Qed.

Lemma matching_none (k : string) (l : list Card.Card) (i : nat) :
  Forall (fun c => Card.keyword c <> k) l ->
  List.filter (fun p => String.eqb (Card.keyword (fst p)) k)
    (FITSHeader.indexed_from i l) = [].
Proof.
  intros H. revert i. induction H as [|c l Hc _ IH]; intros i; cbn; [reflexivity|].
  apply String.eqb_neq in Hc. rewrite Hc. apply IH.
Qed.

Lemma matching_elements (k : string) (l : list Card.Card) (i : nat) :
  Forall (fun p => In (fst p) l /\ Card.keyword (fst p) = k)
    (List.filter (fun p => String.eqb (Card.keyword (fst p)) k)
       (FITSHeader.indexed_from i l)).
Proof.
  revert i. induction l as [|c l IH]; intros i; cbn; [constructor|].
  assert (T : Forall (fun p => In (fst p) (c :: l) /\ Card.keyword (fst p) = k)
                (List.filter (fun p => String.eqb (Card.keyword (fst p)) k)
                   (FITSHeader.indexed_from (S i) l))).
  { eapply Forall_impl; [apply IH|]. intros p [A B]. split; [now right|exact B]. }
  destruct (String.eqb_spec (Card.keyword c) k); [|exact T].
  constructor; [|exact T]. split; [now left|assumption].
Qed.

(** The loop of [getValues] goes through when every card it visits is a
    string card with such a keyword. *)
Lemma collect_strings (all : list Card.Card) (k : string) :
  FITSHeader.never_matches FITSHeader.fitsCardIntegerRegExp k = true ->
  FITSHeader.never_matches FITSHeader.fitsCardRealRegExp k = true ->
  FITSHeader.never_matches FITSHeader.fitsCardLogicalRegExp k = true ->
  forall (ms : list (Card.Card * nat)) (acc : list Card.FITSCardValue)
         (st : RegexState),
    Forall (fun p => Card.keyword (fst p) = k
                     /\ Card.is_string (Card.value (fst p)) = true) ms ->
    exists vs st', FITSHeader.collect all ms acc st = (Ok (acc ++ vs), st').
Proof.
  intros I R L ms. induction ms as [|[card index] ms IH]; intros acc st H.
  - exists [], st. cbn. now rewrite app_nil_r.
  - apply Forall_cons in H as [[K Str] H']. cbn in K, Str.
    cbn [FITSHeader.collect]. unfold bind.
    destruct (validate_string card st) as [st1 ->]; try rewrite K; try assumption.
    destruct (Card.value card) as [v| | | |] eqn:V; try discriminate.
    destruct (IH (acc ++ [Card.VString
                           (FITSHeader.resolve v (drop (S index) all))]) st1 H')
      as (vs & st' & ->).
    eexists. exists st'. now rewrite <- app_assoc.
Qed.

(** C4, amended. In a header where a string card, the first with its
    keyword, holds a text ending with the ampersand and is followed at once
    by CONTINUE cards, each of whose strings but the last ends with the
    ampersand, [getValues] and [getValue], called with an argument that
    [trim] and [toUpperCase] turn into that keyword, return the text of the
    card without its ampersand followed by the strings of the CONTINUE
    cards as they were parsed, each without its ampersand; nothing else is
    removed, the blanks at the start of a CONTINUE string stay.  The run of
    CONTINUE cards is the whole run: the joined text does not end with an
    ampersand, or the card after the run is no CONTINUE card.  The keyword
    is neither CONTINUE nor empty, it is one that [getValues] does not take
    for an integer, real or logical keyword, and any later card with it
    holds a string. *)
Theorem C4_getValue_joins_the_CONTINUE_strings (st : RegexState)
  (pre conts post : list Card.Card) (card : Card.Card)
  (arg k t0 last : string) (ts : list string) :
  Js.toUpperCase (Js.trim arg) = Some k ->
  k <> "CONTINUE" ->
  k <> EmptyString ->
  FITSHeader.never_matches FITSHeader.fitsCardIntegerRegExp k = true ->
  FITSHeader.never_matches FITSHeader.fitsCardRealRegExp k = true ->
  FITSHeader.never_matches FITSHeader.fitsCardLogicalRegExp k = true ->
  Forall (fun c => Card.keyword c <> k) pre ->
  Card.keyword card = k ->
  Card.value card = Card.VString (t0 +:+ "&") ->
  map Card.keyword conts = repeat "CONTINUE" (S (length ts)) ->
  map Card.value conts
  = map (fun t => Card.VString (t +:+ "&")) ts ++ [Card.VString last] ->
  Js.endsWith (t0 +:+ Js.join ts +:+ last) "&" = false
  \/ match post with
     | c :: _ => Card.keyword c <> "CONTINUE"
     | [] => True
     end ->
  Forall (fun c => Card.keyword c = k -> Card.is_string (Card.value c) = true)
    post ->
  let header := FITSHeader.mkHeader (pre ++ card :: conts ++ post) in
  exists more st',
    FITSHeader.getValues header arg st
    = (Ok (Card.VString (t0 +:+ Js.join ts +:+ last) :: more), st')
    /\ FITSHeader.getValue header arg st
       = (Ok (Some (Card.VString (t0 +:+ Js.join ts +:+ last))), st').
Proof.
  intros Norm NC NE I R L Pre K V CK CV Stop Post header.
  assert (G : exists more st',
             FITSHeader.getValues header arg st
             = (Ok (Card.VString (t0 +:+ Js.join ts +:+ last) :: more), st')).
  { unfold FITSHeader.getValues. rewrite Norm.
    apply String.eqb_neq in NC, NE. rewrite NC, NE.
    cbn [orb FITSHeader.cards header].
    unfold FITSHeader.matching, FITSHeader.indexed.
    rewrite matching_app, (matching_none _ _ _ Pre).
    cbn [app FITSHeader.indexed_from List.filter fst].
    rewrite K, String.eqb_refl. cbn [FITSHeader.collect]. unfold bind.
    destruct (validate_string card st) as [st1 ->];
      try rewrite K; try assumption; [now rewrite V|].
    rewrite V. cbn [app].
    replace (drop (S (0 + length pre)) (pre ++ card :: conts ++ post))
      with (conts ++ post).
    2:{ change (pre ++ card :: conts ++ post) with (pre ++ [card] ++ conts ++ post).
        rewrite app_assoc.
        replace (S (0 + length pre)) with (length (pre ++ [card]))
          by (rewrite length_app; simpl; lia).
        now rewrite drop_app_length. }
    rewrite (resolve_chain ts t0 last conts post CK CV Stop).
    edestruct (collect_strings (pre ++ card :: conts ++ post) k I R L)
      as (vs & st' & ->).
    - eapply Forall_impl; [apply matching_elements|].
      intros [c j] [In_c Kc]. cbn [fst] in *. split; [exact Kc|].
      apply in_app_or in In_c as [In_c|In_c].
      + exfalso. assert (KC : Card.keyword c = "CONTINUE").
        { apply (in_map Card.keyword) in In_c. rewrite CK in In_c.
          now apply repeat_spec in In_c. }
        apply String.eqb_neq in NC. congruence.
      + rewrite Forall_forall in Post. apply Post; [|exact Kc].
        now apply list_elem_of_In.
    - exists vs, st'. reflexivity. }
  destruct G as (more & st' & G). exists more, st'.
  split; [exact G|]. unfold FITSHeader.getValue, bind. now rewrite G.
Qed.

(** C4 as stated fails on its own example: the blanks at the start of the
    CONTINUE string are part of the string, and [getValue] keeps them. *)
Lemma C4_CONTINUE_keeps_its_leading_blanks :
  Card.fromString Examples.parseFloat_whole Examples.record_TTYPE1 true
  = Ok Examples.card_TTYPE1
  /\ Card.fromString Examples.parseFloat_whole Examples.record_CONTINUE true
     = Ok Examples.card_CONTINUE
  /\ fst (FITSHeader.getValue Examples.header_TTYPE1 "TTYPE1" freshRegexState)
     = Ok (Some (Card.VString "ABCDEFG  HIJK"))
  /\ Card.VString "ABCDEFG  HIJK" <> Card.VString "ABCDEFGHIJK".
Proof.
  split; [vm_compute; reflexivity|]. split; [vm_compute; reflexivity|].
  split; [vm_compute; reflexivity|discriminate].
Qed.

Lemma C4_getValue_joins_the_CONTINUE_strings_witness :
  exists more st',
    FITSHeader.getValues Examples.header_TTYPE1 " ttype1 " freshRegexState
    = (Ok (Card.VString "ABCDEFG  HIJK" :: more), st')
    /\ FITSHeader.getValue Examples.header_TTYPE1 " ttype1 " freshRegexState
       = (Ok (Some (Card.VString "ABCDEFG  HIJK")), st').
Proof.
  apply (C4_getValue_joins_the_CONTINUE_strings freshRegexState
           [] [Examples.card_CONTINUE] [] Examples.card_TTYPE1
           " ttype1 " "TTYPE1" "ABCDEFG" "  HIJK" []).
  - reflexivity.
  - discriminate.
  - discriminate.
  - vm_compute. reflexivity.
  - vm_compute. reflexivity.
  - vm_compute. reflexivity.
  - constructor.
  - reflexivity.
  - reflexivity.
  - reflexivity.
  - reflexivity.
  - right. exact I.
  - constructor.
Defined.

(** ** Block padding *)

Lemma setUint8_at (pre post : DataView.buffer) (o b : Byte.byte) :
  DataView.setUint8 (pre ++ o :: post) (Z.of_nat (length pre)) b
  = Ok (pre ++ b :: post).
Proof.
  unfold DataView.setUint8, DataView.set.
  replace (Z.of_nat (length pre) <? 0) with false by (symmetry; apply Z.ltb_ge; lia).
  replace (Z.of_nat (length (pre ++ o :: post))
           <? Z.of_nat (length pre) + Z.of_nat 1) with false
    by (symmetry; apply Z.ltb_ge; rewrite length_app; simpl; lia).
  cbn [orb]. rewrite Nat2Z.id, take_app_length.
  assert (D : drop (length pre + 1) (pre ++ o :: post) = post).
  { rewrite <- drop_drop, drop_app_length. reflexivity. }
  now rewrite D.
Qed.

Lemma getUint8_at (src : DataView.buffer) (i : nat) (b : Byte.byte) :
  src !! i = Some b -> DataView.getUint8 src (Z.of_nat i) = Ok b.
Proof.
  intros H. unfold DataView.getUint8, DataView.bytesAt.
  pose proof (lookup_lt_Some _ _ _ H) as L.
  replace (Z.of_nat i <? 0) with false by (symmetry; apply Z.ltb_ge; lia).
  replace (Z.of_nat (length src) <? Z.of_nat i + Z.of_nat 1) with false
    by (symmetry; apply Z.ltb_ge; lia).
  cbn [orb rbind]. rewrite Nat2Z.id.
  rewrite (drop_S _ _ _ H). reflexivity.
Qed.

(** A loop that stores one byte value over a stretch of the view. *)
Lemma for_loop_fill (c : Byte.byte) (base : nat) (post : DataView.buffer) :
  forall (n from : nat) (pre old : DataView.buffer),
    length pre = (base + from)%nat ->
    length old = n ->
    DataView.for_loop n from
      (fun i view => DataView.setUint8 view (Z.of_nat (base + i)) c)
      (pre ++ old ++ post)
    = Ok (pre ++ repeat c n ++ post).
Proof.
  induction n as [|n IH]; intros from pre old P O.
  - destruct old; [reflexivity|discriminate].
  - destruct old as [|o old]; [discriminate|]. injection O as O.
    cbn [DataView.for_loop app]. rewrite <- P, setUint8_at. cbn [rbind].
    change (pre ++ c :: old ++ post) with (pre ++ [c] ++ old ++ post).
    rewrite app_assoc, (IH (S from) (pre ++ [c]) old).
    + now rewrite <- app_assoc.
    + rewrite length_app. simpl. lia.
    + exact O.
Qed.

(** A loop that copies a stretch of another buffer into the view. *)
Lemma for_loop_copy (src : DataView.buffer) (base : nat) (post : DataView.buffer) :
  forall (n from : nat) (pre old : DataView.buffer),
    length pre = (base + from)%nat ->
    length old = n ->
    (from + n <= length src)%nat ->
    DataView.for_loop n from
      (fun i view =>
         b <~ DataView.getUint8 src (Z.of_nat i) ;;
         DataView.setUint8 view (Z.of_nat (base + i)) b)
      (pre ++ old ++ post)
    = Ok (pre ++ take n (drop from src) ++ post).
Proof.
  induction n as [|n IH]; intros from pre old P O L.
  - destruct old; [reflexivity|discriminate].
  - destruct old as [|o old]; [discriminate|]. injection O as O.
    destruct (src !! from) as [b|] eqn:B;
      [|apply lookup_ge_None in B; lia].
    cbn [DataView.for_loop app]. rewrite (getUint8_at _ _ _ B). cbn [rbind].
    rewrite <- P, setUint8_at. cbn [rbind].
    change (pre ++ b :: old ++ post) with (pre ++ [b] ++ old ++ post).
    rewrite app_assoc, (IH (S from) (pre ++ [b]) old).
    + rewrite <- app_assoc, (drop_S _ _ _ B). reflexivity.
    + rewrite length_app. simpl. lia.
    + exact O.
    + lia.
Qed.

Lemma blockAligned_ge (n : nat) : (n <= FITS.blockAligned n)%nat.
Proof.
  unfold FITS.blockAligned, FITS.BLOCK_SIZE.
  pose proof (Nat.div_mod_eq (n + (2880 - 1)) 2880).
  pose proof (Nat.mod_upper_bound (n + (2880 - 1)) 2880). lia.
Qed.

Lemma blockAligned_multiple (n : nat) : (FITS.blockAligned n mod 2880 = 0)%nat.
Proof. unfold FITS.blockAligned, FITS.BLOCK_SIZE. apply Nat.Div0.mod_mul. Qed.

(** What the four loops of [FITS.toBuffer] leave in the new buffer: the
    header bytes, blanks up to the next multiple of 2880, the data bytes,
    zero bytes up to the next multiple of 2880. *)
Lemma fill_layout (headerBuffer dataBuffer : DataView.buffer) :
  FITS.fill headerBuffer dataBuffer
  = Ok (headerBuffer
        ++ repeat Byte.x20
             (FITS.blockAligned (length headerBuffer) - length headerBuffer)
        ++ dataBuffer
        ++ repeat Byte.x00
             (FITS.blockAligned (length dataBuffer) - length dataBuffer)).
Proof.
  unfold FITS.fill, DataView.zeros.
  pose proof (blockAligned_ge (length headerBuffer)) as Hh.
  pose proof (blockAligned_ge (length dataBuffer)) as Hd.
  set (hl := length headerBuffer) in *. set (dl := length dataBuffer) in *.
  set (HL := FITS.blockAligned hl) in *. set (DL := FITS.blockAligned dl) in *.
  replace (HL + DL)%nat with (hl + ((HL - hl) + (dl + (DL - dl))))%nat by lia.
  rewrite !repeat_app.
  set (z2 := repeat Byte.x00 (HL - hl)). set (z3 := repeat Byte.x00 dl).
  set (z4 := repeat Byte.x00 (DL - dl)).
  (* the header bytes *)
  pose proof (for_loop_copy headerBuffer 0 (z2 ++ z3 ++ z4) hl 0 []
                (repeat Byte.x00 hl) eq_refl (repeat_length _ _)
                (Nat.le_refl _)) as L1.
  cbn [app Nat.add] in L1. rewrite L1. clear L1.
  cbn [rbind]. rewrite drop_0, take_ge by (unfold hl; lia).
  (* the blanks *)
  pose proof (for_loop_fill Byte.x20 0 (z3 ++ z4) (HL - hl) hl headerBuffer z2
                eq_refl (repeat_length _ _)) as L2.
  cbn [Nat.add] in L2. rewrite L2. clear L2.
  cbn [rbind].
  (* the data bytes *)
  pose proof (for_loop_copy dataBuffer HL z4 dl 0
                (headerBuffer ++ repeat Byte.x20 (HL - hl)) z3) as L3.
  rewrite <- app_assoc in L3. rewrite L3; clear L3;
    [|rewrite length_app, repeat_length; unfold hl; lia
     |apply repeat_length|unfold dl; lia].
  cbn [rbind]. rewrite drop_0, take_ge by (unfold dl; lia).
  (* the zero bytes *)
  pose proof (for_loop_fill Byte.x00 HL [] (DL - dl) dl
                ((headerBuffer ++ repeat Byte.x20 (HL - hl)) ++ dataBuffer) z4)
    as L4.
  rewrite !app_nil_r, <- !app_assoc in L4. rewrite <- !app_assoc. rewrite L4;
    [reflexivity
    |rewrite !length_app, repeat_length; unfold hl, dl; lia
    |apply repeat_length].
Qed.

(** When [FITS.toBuffer] returns, it returns the padded layout, and a
    whole number of blocks. *)
Lemma toBuffer_layout (f : FITS.FITS) (st st' : RegexState)
  (buffer : DataView.buffer) :
  FITS.toBuffer f st = (Ok buffer, st') ->
  exists headerBuffer,
    FITSHeader.toBuffer (FITS.header f) st = (Ok headerBuffer, st')
    /\ buffer
       = headerBuffer
         ++ repeat Byte.x20
              (FITS.blockAligned (length headerBuffer) - length headerBuffer)
         ++ FITSData.dataBuffer (FITS.data f)
         ++ repeat Byte.x00
              (FITS.blockAligned (length (FITSData.dataBuffer (FITS.data f)))
               - length (FITSData.dataBuffer (FITS.data f)))
    /\ (length buffer mod 2880 = 0)%nat.
Proof.
  unfold FITS.toBuffer, bind, lift, FITSData.toBuffer.
  destruct (FITSHeader.toBuffer (FITS.header f) st) as [[hb|e] st1];
    [|discriminate].
  rewrite fill_layout. intros [= <- <-]. exists hb.
  split; [reflexivity|]. split; [reflexivity|].
  pose proof (blockAligned_ge (length hb)) as Hh.
  pose proof (blockAligned_ge (length (FITSData.dataBuffer (FITS.data f)))) as Hd.
  rewrite !length_app, !repeat_length.
  replace (length hb + (FITS.blockAligned (length hb) - length hb
             + (length (FITSData.dataBuffer (FITS.data f))
                + (FITS.blockAligned (length (FITSData.dataBuffer (FITS.data f)))
                   - length (FITSData.dataBuffer (FITS.data f))))))%nat
    with (FITS.blockAligned (length hb)
          + FITS.blockAligned (length (FITSData.dataBuffer (FITS.data f))))%nat
    by lia.
  rewrite Nat.Div0.add_mod, !blockAligned_multiple. reflexivity.
Qed.

(** The END card, as [Card.fromValue] makes it. *)
Lemma test_hierarchRegex_END (st : RegexState) :
  exists st',
    Card.test_hierarchRegex "END" st = (Ok false, st')
    /\ keywordRegex_lastIndex st' = keywordRegex_lastIndex st.
Proof.
  unfold Card.test_hierarchRegex, test.
  rewrite (never_matches_test Card.hierarchRegex "END")
    by (vm_compute; reflexivity).
  eexists. split; reflexivity.
Qed.

Lemma test_keywordRegex_END (st : RegexState) :
  keywordRegex_lastIndex st = O ->
  exists st', Card.test_keywordRegex "END" st = (Ok true, st').
Proof.
  intros Z. unfold Card.test_keywordRegex, test. rewrite Z.
  replace (Regex.test_g Card.keywordRegex 0 "END") with (true, 3%nat)
    by (vm_compute; reflexivity).
  eauto.
Qed.

Lemma fromValue_END (st : RegexState) :
  keywordRegex_lastIndex st = O ->
  exists st',
    Card.fromValue "END" Card.VNull None st = (Ok Examples.card_END, st').
Proof.
  intros Z. unfold Card.fromValue, bind, throw, lift, ret.
  change (Js.trimEnd "END") with "END".
  destruct (test_hierarchRegex_END st) as (st1 & -> & K1).
  cbn [andb].
  destruct (test_keywordRegex_END st1) as (st2 & ->); [congruence|].
  cbn [negb].
  replace (String.eqb "END" "END" && (negb (Card.is_null Card.VNull)
             || bool_decide (@None string <> None))) with false
    by (vm_compute; reflexivity).
  replace (String.eqb "END" "CONTINUE" && negb (Card.is_string Card.VNull))
    with false by reflexivity.
  cbn [negb].
  destruct (test_hierarchRegex_END st2) as (st3 & -> & _).
  replace (Card.layout false "END" Card.VNull None) with (Ok Examples.card_END)
    by (vm_compute; reflexivity).
  eauto.
Qed.

(** Storing a record over a stretch of the view that begins at card
    position [i]. *)
Lemma write_record_loop (i : nat) (recordBuffer post : DataView.buffer) :
  forall (n from : nat) (pre old : DataView.buffer),
    length pre = (i * 80 + from)%nat ->
    length old = n ->
    (from + n <= length recordBuffer)%nat ->
    DataView.for_loop n from
      (fun j view =>
         match recordBuffer !! j with
         | Some b =>
             DataView.setUint8 view
               (Z.of_nat i * Card.CARD_LENGTH + Z.of_nat j) b
         | None => Ok view
         end)
      (pre ++ old ++ post)
    = Ok (pre ++ take n (drop from recordBuffer) ++ post).
Proof.
  induction n as [|n IH]; intros from pre old P O L.
  - destruct old; [reflexivity|discriminate].
  - destruct old as [|o old]; [discriminate|]. injection O as O.
    destruct (recordBuffer !! from) as [b|] eqn:B;
      [|apply lookup_ge_None in B; lia].
    cbn [DataView.for_loop app]. rewrite B.
    replace (Z.of_nat i * Card.CARD_LENGTH + Z.of_nat from)
      with (Z.of_nat (length pre)) by (unfold Card.CARD_LENGTH; lia).
    rewrite setUint8_at. cbn [rbind].
    change (pre ++ b :: old ++ post) with (pre ++ [b] ++ old ++ post).
    rewrite app_assoc, (IH (S from) (pre ++ [b]) old).
    + rewrite <- app_assoc, (drop_S _ _ _ B). reflexivity.
    + rewrite length_app. simpl. lia.
    + exact O.
    + lia.
Qed.

Lemma write_record_at (i : nat) (recordBuffer pre old post : DataView.buffer) :
  length pre = (i * 80)%nat ->
  length old = length recordBuffer ->
  FITSHeader.write_record i recordBuffer (pre ++ old ++ post)
  = Ok (pre ++ recordBuffer ++ post).
Proof.
  intros P O. unfold FITSHeader.write_record.
  rewrite (write_record_loop i recordBuffer post (length recordBuffer) 0 pre old);
    [|lia|exact O|lia].
  now rewrite drop_0, take_ge by lia.
Qed.

(** The records of a list of cards, one after the other. *)
Lemma write_cards_loop (all : list Card.Card) :
  forall (todo : list Card.Card) (from : nat) (pre : DataView.buffer),
    Forall (fun c => length (FITSHeader.encode (Card.image c)) = 80%nat) todo ->
    drop from all = todo ->
    length pre = (from * 80)%nat ->
    DataView.for_loop (length todo) from
      (fun i view =>
         match all !! i with
         | Some card =>
             FITSHeader.write_record i (FITSHeader.encode (Card.image card)) view
         | None => Ok view
         end)
      (pre ++ repeat Byte.x00 (length todo * 80))
    = Ok (pre ++ concat (map (fun c => FITSHeader.encode (Card.image c)) todo)).
Proof.
  induction todo as [|card todo IH]; intros from pre Images D P.
  - reflexivity.
  - apply Forall_cons in Images as [Image Images].
    assert (A : all !! from = Some card).
    { rewrite <- (Nat.add_0_r from), <- lookup_drop, D. reflexivity. }
    assert (D' : drop (S from) all = todo).
    { change todo with (drop 1 (card :: todo)). rewrite <- D, drop_drop.
      f_equal. lia. }
    cbn [length DataView.for_loop]. rewrite A.
    change (S (length todo) * 80)%nat with (80 + length todo * 80)%nat.
    rewrite repeat_app.
    rewrite write_record_at; [|exact P|now rewrite repeat_length].
    cbn [rbind map concat].
    rewrite app_assoc.
    rewrite (IH (S from) (pre ++ FITSHeader.encode (Card.image card)) Images D').
    + now rewrite <- app_assoc.
    + rewrite length_app, Image. lia.
Qed.

(** While [keywordRegex.lastIndex] is 0, the header of cards with images
    of 80 bytes serializes to these images followed by the END record. *)
Lemma header_toBuffer_first (h : FITSHeader.FITSHeader) (st : RegexState) :
  keywordRegex_lastIndex st = O ->
  Forall (fun c => length (FITSHeader.encode (Card.image c)) = 80%nat)
    (FITSHeader.cards h) ->
  exists st',
    FITSHeader.toBuffer h st
    = (Ok (concat (map (fun c => FITSHeader.encode (Card.image c))
                     (FITSHeader.cards h ++ [Examples.card_END]))),
       st').
Proof.
  intros Z Images. unfold FITSHeader.toBuffer, bind, lift.
  destruct (fromValue_END st Z) as [st' ->]. exists st'.
  pose proof (write_cards_loop (FITSHeader.cards h ++ [Examples.card_END])
                (FITSHeader.cards h ++ [Examples.card_END]) 0 []) as W.
  cbn [app] in W. change (Z.to_nat Card.CARD_LENGTH) with 80%nat.
  unfold DataView.zeros.
  rewrite W; [reflexivity| |reflexivity|reflexivity].
  apply Forall_app. split; [exact Images|].
  constructor; [vm_compute; reflexivity|constructor].
Qed.

(** The claim of C9 for a first call: the file is serialized, and the
    buffer is the padded layout. *)
Lemma toBuffer_first (f : FITS.FITS) (st : RegexState) :
  keywordRegex_lastIndex st = O ->
  Forall (fun c => length (FITSHeader.encode (Card.image c)) = 80%nat)
    (FITSHeader.cards (FITS.header f)) ->
  exists buffer st',
    FITS.toBuffer f st = (Ok buffer, st')
    /\ (length buffer mod 2880 = 0)%nat.
Proof.
  intros Z Images.
  destruct (header_toBuffer_first (FITS.header f) st Z Images) as [st' H].
  destruct (FITS.toBuffer f st) as [[buffer|e] st''] eqn:E.
  - exists buffer, st''. split; [reflexivity|].
    now apply toBuffer_layout in E as (hb & _ & _ & M).
  - exfalso. unfold FITS.toBuffer, bind, lift in E. rewrite H in E.
    rewrite fill_layout in E. discriminate E.
Qed.

(** The header is serialized with an END card that [Card.fromValue]
    makes: a call that returns leaves 3 in [keywordRegex.lastIndex]. *)
Lemma header_toBuffer_leaves_lastIndex (h : FITSHeader.FITSHeader)
  (st st' : RegexState) (buffer : DataView.buffer) :
  FITSHeader.toBuffer h st = (Ok buffer, st') ->
  keywordRegex_lastIndex st' = 3%nat.
Proof.
  unfold FITSHeader.toBuffer, bind, lift.
  destruct (Card.fromValue "END" Card.VNull None st) as [[endCard|e] st1] eqn:F;
    [|discriminate].
  intros [= _ <-]. now apply fromValue_leaves_lastIndex in F as [-> _].
Qed.

(** C9. [FITS.toBuffer] does not return a buffer for every file at every
    call: whenever a call returns one, the next call on the same file
    throws the invalid-keyword TypeError for the END card, so no file is
    serialized twice in a row.  (A call that does return gives the padded
    layout, [toBuffer_layout].) *)
Theorem C9_toBuffer_throws_on_the_next_call (f : FITS.FITS)
  (st st' : RegexState) (buffer : DataView.buffer) :
  FITS.toBuffer f st = (Ok buffer, st') ->
  exists st'', FITS.toBuffer f st' = (Throw InvalidKeyword, st'').
Proof.
  intros H. apply toBuffer_layout in H as (hb & H & _).
  apply header_toBuffer_leaves_lastIndex in H.
  unfold FITS.toBuffer, FITSHeader.toBuffer, bind.
  destruct (fromValue_busy "END" Card.VNull None st') as [st'' ->].
  - lia.
  - vm_compute. lia.
  - eauto.
Qed.

Lemma C9_toBuffer_throws_on_the_next_call_witness :
  exists buffer st' st'',
    FITS.toBuffer Examples.file_row freshRegexState = (Ok buffer, st')
    /\ FITS.toBuffer Examples.file_row st' = (Throw InvalidKeyword, st'').
Proof.
  assert (E : exists buffer st',
             FITS.toBuffer Examples.file_row freshRegexState = (Ok buffer, st')).
  { eexists. eexists. vm_compute. reflexivity. }
  destruct E as (buffer & st' & E).
  destruct (C9_toBuffer_throws_on_the_next_call _ _ _ _ E) as [st'' H].
  exists buffer, st', st''. split; assumption.
Defined.

(** ** More on the matcher *)



Ltac min_round IH IHf H :=
  let s1 := fresh "s" in let c1 := fresh "c" in let B1 := fresh "B" in
  let s2 := fresh "s" in let c2 := fresh "c" in let B2 := fresh "B" in
  apply IH in H as (s1 & c1 & H & B1);
  destruct (_ && _); [discriminate|];
  apply IHf in H as (s2 & c2 & H & B2);
  exists s2, c2; split; [exact H|].

(** A pattern consumes at least its shortest text. *)
Lemma rmatch_min (total : nat) (r : Regex.regex) :
  forall (k : Regex.cont) (s : list ascii) (c : Regex.captures) z,
    Regex.rmatch total r k s c = Some z ->
    exists s' c', k s' c' = Some z /\ (length s' + Regex.min_len r <= length s)%nat.
Proof.
  induction r as [|p|r1 IH1 r2 IH2|r1 IH1 r2 IH2|g mn mx r IH|name r IH| |];
    intros k s c z; simpl.
  - intros H. exists s, c. split; [exact H|lia].
  - destruct s as [|a s]; [discriminate|].
    destruct (p a); [|discriminate]. intros H. exists s, c. split; [exact H|simpl; lia].
  - intros H. apply IH1 in H as (s1 & c1 & H & B1).
    apply IH2 in H as (s2 & c2 & H & B2).
    exists s2, c2. split; [exact H|lia].
  - destruct (Regex.rmatch total r1 k s c) eqn:E.
    + intros [= <-]. apply IH1 in E as (s1 & c1 & E & B).
      exists s1, c1. split; [exact E|lia].
    + intros H. apply IH2 in H as (s1 & c1 & H & B).
      exists s1, c1. split; [exact H|lia].
  - generalize (mn + length s + 1)%nat as fuel. intros fuel.
    revert mn mx s c z.
    induction fuel as [|fuel IHf]; intros mn mx s c z; [discriminate|].
    cbn beta iota.
    destruct (Regex.max_is_zero mx) eqn:MZ.
    { intros H. exists s, c. split; [exact H|].
      destruct mx as [[|m]|]; try discriminate MZ.
      unfold Regex.rounds. rewrite Nat.min_0_r. lia. }
    assert (R : (Regex.rounds mn mx
                 <= S (Regex.rounds (Nat.pred mn) (option_map Nat.pred mx)))%nat).
    { destruct mx as [[|m]|]; try discriminate MZ; unfold Regex.rounds; cbn; lia. }
    assert (R0 : mn = O -> Regex.rounds mn mx = O).
    { intros ->. destruct mx; reflexivity. }
    destruct (Nat.eqb_spec mn 0) as [Zero|Pos]; cbn [negb].
    + rewrite (R0 Zero). destruct g.
      * match goal with |- match ?m with _ => _ end = _ -> _ => destruct m eqn:E end.
        -- intros [= <-]. min_round IH IHf E. lia.
        -- intros H. exists s, c. split; [exact H|lia].
      * destruct (k s c) eqn:E.
        -- intros [= <-]. exists s, c. split; [exact E|lia].
        -- intros H. min_round IH IHf H. lia.
    + intros H. min_round IH IHf H. nia.
  - intros H. apply IH in H as (s1 & c1 & H & B). eauto.
  - destruct (_ =? _)%nat; [|discriminate].
    intros H. exists s, c. split; [exact H|lia].
  - destruct s; [|discriminate].
    intros H. exists [], c. split; [exact H|simpl; lia].
Qed.

(** One round of a repetition of a class: a character of the class, then
    the Regex.rounds that follow. *)
Ltac class_round IHf H :=
  let n := fresh "n" in let F := fresh "F" in let K := fresh "K" in
  let Pa := fresh "Pa" in
  match type of H with
  | match ?s with _ => _ end = _ =>
      destruct s as [|? ?]; [discriminate H|];
      match type of H with
      | (if ?p ?a then _ else _) = _ =>
          destruct (p a) eqn:Pa; [|discriminate H]
      end;
      destruct (_ && _); [discriminate H|];
      apply IHf in H as (n & F & K); exists (S n); cbn [take drop forallb];
      rewrite Pa; split; [exact F|exact K]
  end.

(** What a repetition of a character class consumes is a run of the
    class. *)
Lemma rmatch_class_run (total : nat) (g : bool) (p : ascii -> bool) :
  forall (mn : nat) (mx : option nat) (k : Regex.cont) (s : list ascii)
         (c : Regex.captures) z,
    Regex.rmatch total (Regex.Repeat g mn mx (Regex.Class p)) k s c = Some z ->
    exists n, forallb p (take n s) = true /\ k (drop n s) c = Some z.
Proof.
  intros mn mx k s c z. simpl.
  generalize (mn + length s + 1)%nat as fuel. intros fuel.
  revert mn mx s c z.
  induction fuel as [|fuel IHf]; intros mn mx s c z; [discriminate|].
  cbn beta iota.
  destruct (Regex.max_is_zero mx).
  { intros H. exists O. split; [reflexivity|exact H]. }
  destruct (negb (mn =? 0)%nat).
  - intros H. class_round IHf H.
  - destruct g.
    + match goal with |- match ?m with _ => _ end = _ -> _ => destruct m eqn:E end.
      * intros [= <-]. class_round IHf E.
      * intros H. exists O. split; [reflexivity|exact H].
    + destruct (k s c) eqn:E.
      * intros [= <-]. exists O. split; [reflexivity|exact E].
      * intros H. class_round IHf H.
Qed.

Lemma rmatch_Cat (total : nat) (r1 r2 : Regex.regex) (k : Regex.cont)
  (s : list ascii) (c : Regex.captures) :
  Regex.rmatch total (Regex.Cat r1 r2) k s c
  = Regex.rmatch total r1 (Regex.rmatch total r2 k) s c.
Proof. reflexivity. Qed.

Lemma rmatch_Bol (total : nat) (k : Regex.cont) (s : list ascii)
  (c : Regex.captures) :
  Regex.rmatch total Regex.Bol k s c
  = if Nat.eqb (length s) total then k s c else None.
Proof. reflexivity. Qed.

Lemma rmatch_Eol (total : nat) (k : Regex.cont) (s : list ascii)
  (c : Regex.captures) :
  Regex.rmatch total Regex.Eol k s c
  = match s with [] => k s c | _ :: _ => None end.
Proof. reflexivity. Qed.

(** A search that succeeds found its match at some position. *)
Lemma search_found (total : nat) (r : Regex.regex) (s : list ascii) z :
  Regex.search total r s = Some z ->
  exists n, Regex.rmatch total r (Regex.final total) (drop n s) [] = Some z.
Proof.
  induction s as [|a s IH]; cbn [Regex.search].
  - destruct (Regex.rmatch _ _ _ _ _) eqn:M; [|discriminate].
    intros [= <-]. exists O. exact M.
  - destruct (Regex.rmatch _ _ _ _ _) eqn:M.
    + intros [= <-]. exists O. exact M.
    + intros H. apply IH in H as [n H]. exists (S n). exact H.
Qed.

(** A text [test] accepts is at least as long as the shortest match. *)
Lemma test_g_min (r : Regex.regex) (i : nat) (input : string) (e : nat) :
  Regex.test_g r i input = (true, e) ->
  (Regex.min_len r <= String.length input)%nat.
Proof.
  unfold Regex.test_g. destruct (_ <? _)%nat; [discriminate|].
  destruct (Regex.search _ _ _) as [[e' c]|] eqn:S; [|discriminate].
  intros _. apply search_found in S as [n S].
  apply rmatch_min in S as (s' & c' & _ & B).
  rewrite !length_drop, length_chars in B. lia.
Qed.

Lemma test_keywordRegex_chars (s : string) (st st' : RegexState) :
  Card.test_keywordRegex s st = (Ok true, st') ->
  forallb Card.keyword_char (Js.chars s) = true.
Proof.
  unfold Card.test_keywordRegex, test.
  destruct (Regex.test_g _ _ _) as [b i] eqn:T. intros [= -> _].
  unfold Regex.test_g in T.
  destruct (Nat.ltb_spec (length (Js.chars s)) (keywordRegex_lastIndex st));
    [discriminate|].
  destruct (Regex.search _ _ _) as [[e' c]|] eqn:S; [|discriminate].
  apply search_found in S as [n S].
  change Card.keywordRegex with
    (Regex.Cat Regex.Bol
       (Regex.Cat (Regex.Repeat true 0 (Some 8%nat) (Regex.Class Card.keyword_char))
          Regex.Eol)) in S.
  rewrite rmatch_Cat, rmatch_Bol in S.
  destruct (_ =? _)%nat eqn:L; [|discriminate].
  apply Nat.eqb_eq in L. rewrite rmatch_Cat in S.
  apply rmatch_class_run in S as (m & F & K). rewrite rmatch_Eol in K.
  destruct (drop m _) eqn:D; [|discriminate].
  rewrite !length_drop in L.
  apply (f_equal (@length _)) in D. rewrite !length_drop in D. simpl in D.
  rewrite <- (take_drop (keywordRegex_lastIndex st + n) (Js.chars s)).
  rewrite forallb_app, <- drop_drop.
  rewrite (take_ge _ m) in F by (rewrite !length_drop; lia). rewrite F.
  assert (Q : take (keywordRegex_lastIndex st + n) (Js.chars s) = []).
  { destruct (Js.chars s); [now rewrite take_nil|].
    simpl in *. replace (keywordRegex_lastIndex st + n)%nat with O by lia.
    reflexivity. }
  now rewrite Q.
Qed.

Lemma layout_fields (h : bool) (k : string) (v : Card.FITSCardValue)
  (c : option string) (card : Card.Card) :
  Card.layout h k v c = Ok card ->
  Card.keyword card = k /\ Card.value card = v.
Proof.
  unfold Card.layout, Card.finish.
  destruct (Card.valueToString v (Some _)); cbn [rbind]; [|discriminate].
  destruct (_ <? _).
  - destruct (Card.valueToString v None); cbn [rbind]; [|discriminate].
    destruct (_ <? _).
    + destruct (_ <? _); [discriminate|]. destruct (_ <? _).
      * now intros [= <-].
      * destruct c; [|discriminate]. now intros [= <-].
    + now intros [= <-].
  - now intros [= <-].
Qed.

Lemma test_hierarchRegex_long (s : string) (st st' : RegexState) :
  Card.test_hierarchRegex s st = (Ok true, st') ->
  (11 <= String.length s)%nat.
Proof.
  unfold Card.test_hierarchRegex, test.
  destruct (Regex.test_g _ _ _) as [b i] eqn:T. intros [= -> _].
  apply test_g_min in T. exact T.
Qed.

(** The card [Card.fromValue] returns is laid out with a keyword of 8
    columns at most, and a CONTINUE card has a string. *)
Lemma fromValue_layout_of (k : string) (v : Card.FITSCardValue)
  (c : option string) (st st' : RegexState) (card : Card.Card) :
  Card.fromValue k v c st = (Ok card, st') ->
  (String.length (Js.trimEnd k) <= 8)%nat
  /\ Card.layout false (Js.trimEnd k) v c = Ok card
  /\ (Js.trimEnd k = "CONTINUE" -> Card.is_string v = true).
Proof.
  unfold Card.fromValue, bind, throw, lift.
  run_step_as h st1 E1. destruct (_ && _); [discriminate|].
  run_step_as kw st2 E2. destruct kw; [|discriminate]. cbn [negb].
  destruct (String.eqb (Js.trimEnd k) "END" && _); [discriminate|].
  destruct (String.eqb (Js.trimEnd k) "CONTINUE" && _) eqn:Cont; [discriminate|].
  run_step_as a st3 E3. destruct (negb a); [intros X; discriminate X|].
  run_step_as b st4 E4. destruct (negb b); [intros X; discriminate X|].
  run_step_as h2 st5 E5. intros [= L _].
  apply test_keywordRegex_true in E2 as (Z & _ & B).
  assert (H2 : h2 = false).
  { destruct h2; [|reflexivity]. apply test_hierarchRegex_long in E5. lia. }
  subst h2. split; [assumption|]. split; [assumption|].
  intros K. rewrite K in Cont. cbn [String.eqb Ascii.eqb Bool.eqb andb] in Cont.
  now apply negb_false_iff in Cont.
Qed.

(** [Card.fromValue] returns a card only when [keywordRegex.lastIndex] is
    0 and for a keyword, trimmed, of at most 8 characters among [A-Z],
    [0-9], [_] and [-]; the card holds that keyword and the value as they
    are, and it is laid out as a keyword of 8 columns: no HIERARCH card is
    ever made.  An END card has neither value nor comment, a CONTINUE card
    has a string. *)
Theorem fromValue_accepts (k : string) (v : Card.FITSCardValue)
  (c : option string) (st st' : RegexState) (card : Card.Card) :
  Card.fromValue k v c st = (Ok card, st') ->
  keywordRegex_lastIndex st = O
  /\ (String.length (Js.trimEnd k) <= 8)%nat
  /\ forallb Card.keyword_char (Js.chars (Js.trimEnd k)) = true
  /\ Card.layout false (Js.trimEnd k) v c = Ok card
  /\ Card.keyword card = Js.trimEnd k
  /\ Card.value card = v
  /\ (Js.trimEnd k = "END" -> v = Card.VNull /\ c = None)
  /\ (Js.trimEnd k = "CONTINUE" -> Card.is_string v = true).
Proof.
  unfold Card.fromValue, bind, throw, lift.
  run_step_as h st1 E1. destruct (_ && _); [discriminate|].
  run_step_as kw st2 E2. destruct kw; [|discriminate]. cbn [negb].
  destruct (String.eqb (Js.trimEnd k) "END" && _) eqn:End; [discriminate|].
  destruct (String.eqb (Js.trimEnd k) "CONTINUE" && _) eqn:Cont; [discriminate|].
  run_step_as a st3 E3. destruct (negb a); [intros X; discriminate X|].
  run_step_as b st4 E4. destruct (negb b); [intros X; discriminate X|].
  run_step_as h2 st5 E5. intros [= L _].
  pose proof (test_keywordRegex_chars _ _ _ E2) as Chars.
  pose proof E2 as E2'. apply test_keywordRegex_true in E2' as (Z & _ & B).
  apply test_hierarchRegex_frame in E1.
  assert (H2 : h2 = false).
  { destruct h2; [|reflexivity]. apply test_hierarchRegex_long in E5. lia. }
  subst h2. destruct (layout_fields _ _ _ _ _ L) as [Kc Vc].
  split; [congruence|]. do 5 (split; [assumption|]). split.
  - intros K. rewrite K in End. cbn [String.eqb Ascii.eqb Bool.eqb andb] in End.
    apply orb_false_iff in End as [N C].
    split; [destruct v; try discriminate N; reflexivity|].
    destruct c; [|reflexivity].
    apply bool_decide_eq_false in C. exfalso. apply C. congruence.
  - intros K. rewrite K in Cont. cbn [String.eqb Ascii.eqb Bool.eqb andb] in Cont.
    now apply negb_false_iff in Cont.
Qed.

Lemma fromValue_accepts_witness :
  keywordRegex_lastIndex freshRegexState = O
  /\ (String.length (Js.trimEnd "NAXIS1  ") <= 8)%nat
  /\ forallb Card.keyword_char (Js.chars (Js.trimEnd "NAXIS1  ")) = true
  /\ Card.layout false (Js.trimEnd "NAXIS1  ") (Card.VNumber (Card.Number "512"))
       (Some "Axis length")
     = Ok (Card.mkCard
             (Js.padEnd "NAXIS1  =                  512 / Axis length" 80)
             "NAXIS1" (Card.VNumber (Card.Number "512")) (Some "Axis length"))
  /\ "NAXIS1" = Js.trimEnd "NAXIS1  "
  /\ Card.VNumber (Card.Number "512") = Card.VNumber (Card.Number "512")
  /\ (Js.trimEnd "NAXIS1  " = "END"
      -> Card.VNumber (Card.Number "512") = Card.VNull
         /\ Some "Axis length" = None)
  /\ (Js.trimEnd "NAXIS1  " = "CONTINUE"
      -> Card.is_string (Card.VNumber (Card.Number "512")) = true).
Proof.
  apply (fromValue_accepts "NAXIS1  " (Card.VNumber (Card.Number "512"))
           (Some "Axis length") freshRegexState (mkRegexState 6 0 11 0 0 0 0)
           (Card.mkCard
              (Js.padEnd "NAXIS1  =                  512 / Axis length" 80)
              "NAXIS1" (Card.VNumber (Card.Number "512")) (Some "Axis length"))).
  vm_compute. reflexivity.
Defined.

(** ** Records that read back, and records that do not *)


Lemma slice_prefix (a b : string) :
  Js.slice (a +:+ b) 0 (Card.len a) = a.
Proof.
  unfold Js.slice, Js.clamp, Card.len. rewrite length_append.
  replace (0 <? 0) with false by reflexivity.
  replace (Z.of_nat (String.length a) <? 0) with false
    by (symmetry; apply Z.ltb_ge; lia).
  rewrite Nat.min_0_l, drop_0, Nat.sub_0_r, Nat2Z.id, chars_append.
  rewrite Nat.min_l by lia. rewrite <- length_chars, take_app_length.
  apply str_chars.
Qed.

Lemma sliceFrom_prefix (a b : string) :
  Js.sliceFrom (a +:+ b) (Card.len a) = b.
Proof.
  unfold Js.sliceFrom, Js.clamp, Card.len. rewrite length_append.
  replace (Z.of_nat (String.length a) <? 0) with false
    by (symmetry; apply Z.ltb_ge; lia).
  rewrite Nat2Z.id, chars_append.
  rewrite Nat.min_l by lia. rewrite <- length_chars, drop_app_length.
  apply str_chars.
Qed.

Lemma dropWhile_idem {A} (p : A -> bool) (l : list A) :
  Js.dropWhile p (Js.dropWhile p l) = Js.dropWhile p l.
Proof.
  induction l as [|x l IH]; [reflexivity|]. cbn.
  destruct (p x) eqn:P; [exact IH|]. cbn. now rewrite P.
Qed.

Lemma dropWhile_run {A} (p : A -> bool) (run l : list A) :
  forallb p run = true -> Js.dropWhile p (run ++ l) = Js.dropWhile p l.
Proof.
  induction run as [|x run IH]; [reflexivity|]. cbn.
  intros H. apply andb_true_iff in H as [-> H]. now apply IH.
Qed.

(** Blanks after a trimmed text are trimmed away again. *)
Lemma trimEnd_padded (k : string) (n : nat) :
  Js.trimEnd (Js.trimEnd k +:+ Js.spaces n) = Js.trimEnd k.
Proof.
  unfold Js.trimEnd at 1. rewrite chars_append, rev_app_distr.
  unfold Js.spaces. rewrite chars_str.
  rewrite dropWhile_run.
  2:{ rewrite forallb_forall. intros x X. apply in_rev in X.
      apply repeat_spec in X. now subst. }
  unfold Js.trimEnd. rewrite chars_str, rev_involutive, dropWhile_idem.
  reflexivity.
Qed.

Lemma trimEnd_padEnd (k : string) (n : Z) :
  Js.trimEnd (Js.padEnd (Js.trimEnd k) n) = Js.trimEnd k.
Proof. unfold Js.padEnd. apply trimEnd_padded. Qed.

Lemma slice_keyword (a b : string) (n : Z) :
  Card.len a = n -> Js.slice (a +:+ b) 0 n = a.
Proof. intros <-. apply slice_prefix. Qed.

Lemma sliceFrom_keyword (a b : string) (n : Z) :
  Card.len a = n -> Js.sliceFrom (a +:+ b) n = b.
Proof. intros <-. apply sliceFrom_prefix. Qed.

Lemma len_keyword_column (K : string) :
  (String.length K <= 8)%nat -> Card.len (Js.padEnd K Card.KEYWORD_LENGTH) = 8.
Proof.
  intros H. rewrite len_padEnd. unfold Card.len, Card.KEYWORD_LENGTH. lia.
Qed.

(** The record of a value without comment whose fixed format fills the
    columns 11 to 30, under a keyword that is not a special one: the keyword
    in 8 columns, the value indicator, the value, blanks. *)
Lemma layout_fixed (K imageValue : string) (v : Card.FITSCardValue) :
  (String.length K <= 8)%nat ->
  Card.includes Card.SPECIAL_KEYWORDS K = false ->
  Card.valueToString v (Some 10) = Ok imageValue ->
  String.length imageValue = 20%nat ->
  Card.layout false K v None
  = Ok (Card.mkCard
          (Js.padEnd K Card.KEYWORD_LENGTH
           +:+ "= " +:+ imageValue +:+ Js.spaces 50) K v None).
Proof.
  intros Short Plain V LV. unfold Card.layout. rewrite Plain.
  pose proof (len_keyword_column K Short) as L8.
  assert (L : Card.len (Js.padEnd K Card.KEYWORD_LENGTH +:+ Card.VALUE_INDICATOR) = 10).
  { rewrite len_append, L8. reflexivity. }
  rewrite L, V. cbn [rbind].
  assert (LV' : Card.len imageValue = 20) by (unfold Card.len; lia).
  rewrite LV'. change (Card.len EmptyString) with 0.
  change (Card.CARD_LENGTH <? 10 + 20 + 0) with false. cbn iota.
  unfold Card.finish. do 2 f_equal.
  unfold Js.padEnd at 1.
  rewrite !length_append.
  assert (L' : String.length (Js.padEnd K Card.KEYWORD_LENGTH) = 8%nat)
    by (unfold Card.len in L8; lia).
  rewrite L', LV. cbn [String.length Card.VALUE_INDICATOR].
  change (Z.to_nat (Card.CARD_LENGTH - Z.of_nat (8 + 2 + (20 + 0)))) with 50%nat.
  rewrite append_empty, !append_assoc. reflexivity.
Qed.

(** Reading such a record: the keyword comes back, and what is parsed is
    the tail. *)
Lemma fromString_columns (parseFloat : string -> Card.number)
  (k tail : string) (pad : bool) :
  (String.length (Js.trimEnd k) <= 8)%nat ->
  String.length tail = 72%nat ->
  Card.includes Card.COMMENTARY_KEYWORDS (Js.trimEnd k) = false ->
  Js.trimEnd k <> "HIERARCH" ->
  Card.fromString parseFloat
    (Js.padEnd (Js.trimEnd k) Card.KEYWORD_LENGTH +:+ tail) pad
  = match Regex.exec Card.valueCommentRegex tail with
    | None => Throw MalformedCard
    | Some groups =>
        let comment := Regex.group groups "comment" in
        let value :=
          match Regex.group groups "value_str" with
          | Some s => Card.VString s
          | None =>
              match Card.truthy (Regex.group groups "value_bool") with
              | Some b => Card.VBool (String.eqb b "T")
              | None =>
                  match Card.truthy (Regex.group groups "value_real") with
                  | Some r => Card.VNumber (Card.stringToReal parseFloat r)
                  | None =>
                      match Card.truthy (Regex.group groups "value_cplx_r"),
                            Card.truthy (Regex.group groups "value_cplx_i") with
                      | Some r, Some i =>
                          Card.VComplex (Card.stringToReal parseFloat r)
                            (Card.stringToReal parseFloat i)
                      | _, _ => Card.VNull
                      end
                  end
              end
          end in
        if String.eqb (Js.trimEnd k) "CONTINUE" && negb (Card.is_string value)
        then Throw ContinueNotString
        else Ok (Card.mkCard
                   (Js.padEnd (Js.trimEnd k) Card.KEYWORD_LENGTH +:+ tail)
                   (Js.trimEnd k) value comment)
    end.
Proof.
  intros Short Tail Plain NH.
  pose proof (len_keyword_column _ Short) as L8.
  set (image := Js.padEnd (Js.trimEnd k) Card.KEYWORD_LENGTH +:+ tail).
  assert (L : Card.len image = 80).
  { unfold image. rewrite len_append, L8. unfold Card.len. lia. }
  unfold Card.fromString.
  assert (P : (if pad then Ok (Js.padEnd image Card.CARD_LENGTH)
               else if negb (Card.len image =? Card.CARD_LENGTH)
                    then Throw ImageLength else Ok image) = Ok image).
  { destruct pad.
    - rewrite padEnd_full; [reflexivity|]. unfold Card.CARD_LENGTH. lia.
    - rewrite L. reflexivity. }
  rewrite P. cbn [rbind]. unfold image. change Card.KEYWORD_LENGTH with 8 in *.
  rewrite (slice_keyword _ _ _ L8), (sliceFrom_keyword _ _ _ L8).
  rewrite !trimEnd_padEnd. rewrite Plain.
  apply String.eqb_neq in NH. rewrite NH. reflexivity.
Qed.


Lemma plain_keyword (k : string) (v : Card.FITSCardValue) :
  Card.includes Card.COMMENTARY_KEYWORDS (Js.trimEnd k) = false ->
  (Js.trimEnd k = "CONTINUE" -> Card.is_string v = true) ->
  Card.is_string v = false ->
  Card.includes Card.SPECIAL_KEYWORDS (Js.trimEnd k) = false.
Proof.
  intros Plain Cont NotString. unfold Card.includes, Card.SPECIAL_KEYWORDS.
  rewrite existsb_app. fold (Card.includes Card.COMMENTARY_KEYWORDS (Js.trimEnd k)).
  rewrite Plain. cbn [existsb orb].
  destruct (String.eqb_spec (Js.trimEnd k) "CONTINUE") as [K|]; [|reflexivity].
  rewrite (Cont K) in NotString. discriminate.
Qed.

(** A logical card reads back: under a keyword that is neither a
    commentary keyword nor HIERARCH, the record [Card.fromValue] makes of a
    logical value without comment parses to the very same card. *)
Theorem logical_card_reads_back (parseFloat : string -> Card.number)
  (k : string) (b pad : bool) (st st' : RegexState) (card : Card.Card) :
  Card.fromValue k (Card.VBool b) None st = (Ok card, st') ->
  Card.includes Card.COMMENTARY_KEYWORDS (Js.trimEnd k) = false ->
  Js.trimEnd k <> "HIERARCH" ->
  Card.fromString parseFloat (Card.image card) pad = Ok card.
Proof.
  intros F Plain NH.
  apply fromValue_layout_of in F as (Short & L & Cont).
  rewrite (layout_fixed _ (Js.padStart (if b then "T" else "F") 20)) in L;
    [|exact Short|now apply (plain_keyword k (Card.VBool b))
     |reflexivity|now destruct b].
  injection L as <-. cbn [Card.image].
  rewrite fromString_columns; [|exact Short|now destruct b|exact Plain|exact NH].
  destruct (String.eqb_spec (Js.trimEnd k) "CONTINUE") as [K|_];
    [specialize (Cont K); discriminate Cont|].
  destruct b.
  - replace (Regex.exec Card.valueCommentRegex _)
      with (Some [("value_bool", "T")]) by (vm_compute; reflexivity).
    reflexivity.
  - replace (Regex.exec Card.valueCommentRegex _)
      with (Some [("value_bool", "F")]) by (vm_compute; reflexivity).
    reflexivity.
Qed.

Lemma logical_card_reads_back_witness :
  Card.fromString Examples.parseFloat_whole
    (Js.padEnd "EXTEND  =                    T" 80) false
  = Ok (Card.mkCard (Js.padEnd "EXTEND  =                    T" 80) "EXTEND"
          (Card.VBool true) None).
Proof.
  apply (logical_card_reads_back Examples.parseFloat_whole "EXTEND" true false
           freshRegexState (mkRegexState 6 0 0 0 0 0 0)
           (Card.mkCard (Js.padEnd "EXTEND  =                    T" 80) "EXTEND"
              (Card.VBool true) None)).
  - vm_compute. reflexivity.
  - reflexivity.
  - discriminate.
Defined.

(** A card without value does not read back: the record [Card.fromValue]
    makes of [null] without comment is one that [Card.fromString]
    rejects. *)
Theorem undefined_card_is_not_read (parseFloat : string -> Card.number)
  (k : string) (pad : bool) (st st' : RegexState) (card : Card.Card) :
  Card.fromValue k Card.VNull None st = (Ok card, st') ->
  Card.includes Card.COMMENTARY_KEYWORDS (Js.trimEnd k) = false ->
  Js.trimEnd k <> "HIERARCH" ->
  Card.fromString parseFloat (Card.image card) pad = Throw MalformedCard.
Proof.
  intros F Plain NH.
  apply fromValue_layout_of in F as (Short & L & Cont).
  rewrite (layout_fixed _ (Js.padStart EmptyString 20)) in L;
    [|exact Short|now apply (plain_keyword k Card.VNull)|reflexivity|reflexivity].
  injection L as <-. cbn [Card.image].
  rewrite fromString_columns; [|exact Short|reflexivity|exact Plain|exact NH].
  replace (Regex.exec Card.valueCommentRegex _)
    with (@None Regex.captures) by (vm_compute; reflexivity).
  reflexivity.
Qed.

Lemma undefined_card_is_not_read_witness :
  Card.fromString Examples.parseFloat_whole (Js.padEnd "BLANK   =" 80) true
  = Throw MalformedCard.
Proof.
  apply (undefined_card_is_not_read Examples.parseFloat_whole "BLANK" true
           freshRegexState (mkRegexState 5 0 0 0 0 0 0)
           (Card.mkCard (Js.padEnd "BLANK   =" 80) "BLANK" Card.VNull None)).
  - vm_compute. reflexivity.
  - reflexivity.
  - discriminate.
Defined.

(** ** The groups of a match *)



Lemma rmatch_Or (total : nat) (r1 r2 : Regex.regex) (k : Regex.cont)
  (s : list ascii) (c : Regex.captures) :
  Regex.rmatch total (Regex.Or r1 r2) k s c
  = match Regex.rmatch total r1 k s c with
    | Some z => Some z
    | None => Regex.rmatch total r2 k s c
    end.
Proof. reflexivity. Qed.

Lemma rmatch_Group (total : nat) (name : string) (r : Regex.regex)
  (k : Regex.cont) (s : list ascii) (c : Regex.captures) :
  Regex.rmatch total (Regex.Group name r) k s c
  = Regex.rmatch total r
      (fun s' c' =>
         k s' ((name, Js.str (take (length s - length s') s)) :: c'))
      s c.
Proof. reflexivity. Qed.

Ltac adds_round IH IHf H :=
  let s1 := fresh "s" in let n1 := fresh "new" in let N1 := fresh "N" in
  let B1 := fresh "B" in
  let s2 := fresh "s" in let n2 := fresh "new" in let N2 := fresh "N" in
  let B2 := fresh "B" in
  apply IH in H as (s1 & n1 & H & N1 & B1);
  destruct (_ && _); [discriminate|];
  apply IHf in H as (s2 & n2 & H & N2 & B2);
  exists s2, (n2 ++ n1); rewrite <- app_assoc;
  split; [exact H|]; split; [apply Forall_app; split; assumption|].

(** What a match hands to its continuation: less input, and the groups of
    the pattern in front of the ones it was given. *)
Lemma rmatch_adds (total : nat) (r : Regex.regex) :
  forall (k : Regex.cont) (s : list ascii) (c : Regex.captures) z,
    Regex.rmatch total r k s c = Some z ->
    exists s' new,
      k s' (new ++ c) = Some z
      /\ Forall (fun p : string * string => In (fst p) (Regex.names r)) new
      /\ (length s' + Regex.min_len r <= length s)%nat.
Proof.
  induction r as [|p|r1 IH1 r2 IH2|r1 IH1 r2 IH2|g mn mx r IH|name r IH| |];
    intros k s c z; simpl.
  - intros H. exists s, []. split; [exact H|]. split; [constructor|lia].
  - destruct s as [|a s]; [discriminate|].
    destruct (p a); [|discriminate]. intros H. exists s, [].
    split; [exact H|]. split; [constructor|simpl; lia].
  - intros H. apply IH1 in H as (s1 & n1 & H & N1 & B1).
    apply IH2 in H as (s2 & n2 & H & N2 & B2).
    exists s2, (n2 ++ n1). rewrite <- app_assoc. split; [exact H|]. split; [|lia].
    apply Forall_app. split.
    + eapply Forall_impl; [exact N2|]. intros q Q. apply in_or_app. now right.
    + eapply Forall_impl; [exact N1|]. intros q Q. apply in_or_app. now left.
  - destruct (Regex.rmatch total r1 k s c) eqn:E.
    + intros [= <-]. apply IH1 in E as (s1 & n1 & E & N & B).
      exists s1, n1. split; [exact E|]. split; [|lia].
      eapply Forall_impl; [exact N|]. intros q Q. apply in_or_app. now left.
    + intros H. apply IH2 in H as (s1 & n1 & H & N & B).
      exists s1, n1. split; [exact H|]. split; [|lia].
      eapply Forall_impl; [exact N|]. intros q Q. apply in_or_app. now right.
  - generalize (mn + length s + 1)%nat as fuel. intros fuel.
    revert mn mx s c z.
    induction fuel as [|fuel IHf]; intros mn mx s c z; [discriminate|].
    cbn beta iota.
    destruct (Regex.max_is_zero mx) eqn:MZ.
    { intros H. exists s, []. split; [exact H|]. split; [constructor|].
      destruct mx as [[|m]|]; try discriminate MZ.
      unfold Regex.rounds. rewrite Nat.min_0_r. lia. }
    assert (R : (Regex.rounds mn mx
                 <= S (Regex.rounds (Nat.pred mn) (option_map Nat.pred mx)))%nat).
    { destruct mx as [[|m]|]; try discriminate MZ; unfold Regex.rounds; cbn; lia. }
    assert (R0 : mn = O -> Regex.rounds mn mx = O).
    { intros ->. destruct mx; reflexivity. }
    destruct (Nat.eqb_spec mn 0) as [Zero|Pos]; cbn [negb].
    + rewrite (R0 Zero). destruct g.
      * match goal with |- match ?m with _ => _ end = _ -> _ => destruct m eqn:E end.
        -- intros [= <-]. adds_round IH IHf E. lia.
        -- intros H. exists s, []. split; [exact H|]. split; [constructor|lia].
      * destruct (k s c) eqn:E.
        -- intros [= <-]. exists s, []. split; [exact E|]. split; [constructor|lia].
        -- intros H. adds_round IH IHf H. lia.
    + intros H. adds_round IH IHf H. nia.
  - intros H. apply IH in H as (s1 & n1 & H & N & B).
    exists s1, ((name, Js.str (take (length s - length s1) s)) :: n1).
    split; [exact H|]. split; [|lia].
    constructor; [now left|].
    eapply Forall_impl; [exact N|]. intros q Q. now right.
  - destruct (_ =? _)%nat; [|discriminate].
    intros H. exists s, []. split; [exact H|]. split; [constructor|lia].
  - destruct s; [|discriminate].
    intros H. exists [], []. split; [exact H|]. split; [constructor|simpl; lia].
Qed.

(** A pattern without groups hands on the groups it was given. *)
Lemma rmatch_plain (total : nat) (r : Regex.regex) (k : Regex.cont)
  (s : list ascii) (c : Regex.captures) z :
  Regex.names r = [] ->
  Regex.rmatch total r k s c = Some z ->
  exists s', k s' c = Some z /\ (length s' + Regex.min_len r <= length s)%nat.
Proof.
  intros N H. apply rmatch_adds in H as (s' & new & H & Nm & B).
  rewrite N in Nm.
  destruct new as [|p new]; [|apply Forall_cons in Nm as [[] _]].
  exists s'. split; [exact H|exact B].
Qed.

(** A group around a pattern without groups: the text of the group is what
    the pattern consumed. *)
Lemma rmatch_named (total : nat) (name : string) (r : Regex.regex)
  (k : Regex.cont) (s : list ascii) (c : Regex.captures) z :
  Regex.names r = [] ->
  Regex.rmatch total (Regex.Group name r) k s c = Some z ->
  exists s' text,
    k s' ((name, text) :: c) = Some z
    /\ (Regex.min_len r <= String.length text)%nat.
Proof.
  intros N H. rewrite rmatch_Group in H.
  apply rmatch_plain in H as (s' & H & B); [|exact N].
  exists s', (Js.str (take (length s - length s') s)). split; [exact H|].
  rewrite length_str, length_take. lia.
Qed.

Lemma group_skip (new c : Regex.captures) (name : string) :
  Forall (fun p : string * string => fst p <> name) new ->
  Regex.group (new ++ c) name = Regex.group c name.
Proof.
  induction 1 as [|[n v] new Hn _ IH]; [reflexivity|].
  cbn [app Regex.group]. cbn in Hn. apply String.eqb_neq in Hn.
  now rewrite Hn.
Qed.

Lemma truthy_text (text : string) :
  (1 <= String.length text)%nat -> Card.truthy (Some text) = Some text.
Proof. destruct text; simpl; [lia|reflexivity]. Qed.


Ltac plain_step S s :=
  rewrite ?rmatch_Cat in S;
  apply rmatch_plain in S as (s & S & _); [|reflexivity].

Ltac named_step S s text L :=
  rewrite ?rmatch_Cat in S;
  apply rmatch_named in S as (s & text & S & L); [|reflexivity].

Ltac first_alternative S E :=
  rewrite rmatch_Or in S;
  match type of S with
  | match ?m with _ => _ end = _ => destruct m as [?|] eqn:E
  end.

(** The groups of a match of [valueCommentRegex]: those of exactly one of
    the four kinds of value, under the group of the comment when there is
    one. *)
Lemma exec_valueCommentRegex (input : string) (groups : Regex.captures) :
  Regex.exec Card.valueCommentRegex input = Some groups ->
  exists comment value,
    groups = comment ++ value
    /\ Forall (fun p : string * string => fst p = "comment") comment
    /\ ((exists text, value = [("value_str", text)])
        \/ (exists text,
              (1 <= String.length text)%nat /\ value = [("value_bool", text)])
        \/ (exists text,
              (1 <= String.length text)%nat /\ value = [("value_real", text)])
        \/ (exists re im,
              (1 <= String.length re)%nat /\ (1 <= String.length im)%nat
              /\ value = [("value_cplx_i", im); ("value_cplx_r", re)])).
Proof.
  unfold Regex.exec.
  destruct (Regex.search _ _ _) as [[e c]|] eqn:S; [|discriminate].
  intros [= ->]. apply search_found in S as [n S].
  unfold Card.valueCommentRegex in S. cbn [Regex.seq_of Regex.alt_of] in S.
  plain_step S s1. plain_step S s2. plain_step S s3.
  rewrite rmatch_Cat in S.
  match type of S with
  | Regex.rmatch _ _ ?k _ _ = _ => set (REST := k) in S
  end.
  (* what follows the value *)
  assert (Rest : forall s value z,
            REST s value = Some z ->
            exists comment,
              snd z = comment ++ value
              /\ Forall (fun p : string * string => fst p = "comment") comment).
  { intros s value z R. unfold REST in R.
    plain_step R s4. rewrite ?rmatch_Cat in R.
    apply rmatch_adds in R as (s5 & comment & R & N & _).
    rewrite rmatch_Eol in R. destruct s5; [|discriminate].
    unfold Regex.final in R. injection R as <-. exists comment.
    split; [reflexivity|].
    eapply Forall_impl; [exact N|]. intros p [P|[]]. now symmetry. }
  clearbody REST.
  first_alternative S Str.
  { injection S as ->.
    plain_step Str s4. named_step Str s5 text L.
    plain_step Str s6. plain_step Str s7.
    apply Rest in Str as (comment & G & N). cbn [snd] in G. subst groups.
    exists comment, [("value_str", text)]. split; [reflexivity|].
    split; [exact N|]. left. eauto. }
  first_alternative S Bool.
  { injection S as ->.
    named_step Bool s5 text L.
    apply Rest in Bool as (comment & G & N). cbn [snd] in G. subst groups.
    exists comment, [("value_bool", text)]. split; [reflexivity|].
    split; [exact N|]. right. left. eauto. }
  first_alternative S Real.
  { injection S as ->.
    named_step Real s5 text L.
    apply Rest in Real as (comment & G & N). cbn [snd] in G. subst groups.
    exists comment, [("value_real", text)]. split; [reflexivity|].
    split; [exact N|]. right. right. left. eauto. }
  plain_step S s4. plain_step S s5. named_step S s6 re Lr.
  plain_step S s7. plain_step S s8. plain_step S s9.
  named_step S s10 im Li. plain_step S s11. plain_step S s12.
  apply Rest in S as (comment & G & N). cbn [snd] in G. subst groups.
  exists comment, [("value_cplx_i", im); ("value_cplx_r", re)].
  split; [reflexivity|]. split; [exact N|]. right. right. right. eauto.
Qed.

Lemma group_under_comment (comment value : Regex.captures) (name : string) :
  Forall (fun p : string * string => fst p = "comment") comment ->
  name <> "comment" ->
  Regex.group (comment ++ value) name = Regex.group value name.
Proof.
  intros C N. apply group_skip.
  eapply Forall_impl; [exact C|]. intros p P. congruence.
Qed.

(** [Card.fromString] keeps the record as it is given (padded to 80
    characters when asked to), and the card it returns always has a value:
    a string, a logical, a number or a complex number, never [null]. *)
Theorem fromString_value_is_defined (parseFloat : string -> Card.number)
  (image : string) (pad : bool) (card : Card.Card) :
  Card.fromString parseFloat image pad = Ok card ->
  Card.value card <> Card.VNull
  /\ Card.image card = (if pad then Js.padEnd image Card.CARD_LENGTH else image)
  /\ (80 <= String.length (Card.image card))%nat.
Proof.
  unfold Card.fromString.
  assert (Len : forall padded,
            (if pad then Ok (Js.padEnd image Card.CARD_LENGTH)
             else if negb (Card.len image =? Card.CARD_LENGTH)
                  then Throw ImageLength else Ok image) = Ok padded ->
            padded = (if pad then Js.padEnd image Card.CARD_LENGTH else image)
            /\ (80 <= String.length padded)%nat).
  { intros padded. destruct pad.
    - intros [= <-]. split; [reflexivity|].
      pose proof (len_padEnd image Card.CARD_LENGTH) as P.
      unfold Card.len, Card.CARD_LENGTH in P |- *. lia.
    - destruct (Z.eqb_spec (Card.len image) Card.CARD_LENGTH) as [E|]; [|discriminate].
      intros [= <-]. split; [reflexivity|].
      unfold Card.len, Card.CARD_LENGTH in E. lia. }
  destruct (if pad then _ else _) as [padded|e]; cbn [rbind]; [|discriminate].
  destruct (Len padded eq_refl) as [-> L]. clear Len.
  set (padded := if pad then _ else _) in *.
  destruct (Card.includes _ _).
  { intros [= <-]. cbn. repeat split; [discriminate|exact L]. }
  destruct (if String.eqb _ "HIERARCH" then _ else _) as [keyword valueComment].
  destruct (Regex.exec _ _) as [groups|] eqn:X; [|discriminate].
  apply exec_valueCommentRegex in X as (comment & value & -> & C & V).
  rewrite !(group_under_comment comment value) by (exact C || discriminate).
  assert (Defined :
            match Regex.group value "value_str" with
            | Some s => Card.VString s
            | None =>
                match Card.truthy (Regex.group value "value_bool") with
                | Some b => Card.VBool (String.eqb b "T")
                | None =>
                    match Card.truthy (Regex.group value "value_real") with
                    | Some r => Card.VNumber (Card.stringToReal parseFloat r)
                    | None =>
                        match Card.truthy (Regex.group value "value_cplx_r"),
                              Card.truthy (Regex.group value "value_cplx_i") with
                        | Some r, Some i =>
                            Card.VComplex (Card.stringToReal parseFloat r)
                              (Card.stringToReal parseFloat i)
                        | _, _ => Card.VNull
                        end
                    end
                end
            end <> Card.VNull).
  { destruct V as [(text & ->)|[(text & T & ->)|[(text & T & ->)|(re & im & R & I & ->)]]];
      cbn [Regex.group String.eqb Ascii.eqb Bool.eqb].
    - discriminate.
    - rewrite (truthy_text _ T). discriminate.
    - rewrite (truthy_text _ T). discriminate.
    - rewrite (truthy_text _ R), (truthy_text _ I). discriminate. }
  destruct (_ && _); [discriminate|].
  intros [= <-]. cbn. repeat split; [exact Defined|exact L].
Qed.

Lemma fromString_value_is_defined_witness :
  Card.VString "ABCDEFG&" <> Card.VNull
  /\ Js.padEnd Examples.record_TTYPE1 80
     = Js.padEnd Examples.record_TTYPE1 Card.CARD_LENGTH
  /\ (80 <= String.length (Js.padEnd Examples.record_TTYPE1 80))%nat.
Proof.
  apply (fromString_value_is_defined Examples.parseFloat_whole
           Examples.record_TTYPE1 true Examples.card_TTYPE1).
  vm_compute. reflexivity.
Defined.

(** ** The order of the data *)



Lemma points_from (axes : list Z) (acc : Z) :
  fold_left Z.mul axes acc = acc * FITSData.points axes.
Proof.
  unfold FITSData.points. revert acc.
  induction axes as [|a axes IH]; intros acc; cbn; [lia|].
  rewrite IH, (IH (1 * a)). lia.
Qed.

Lemma points_cons (a : Z) (axes : list Z) :
  FITSData.points (a :: axes) = a * FITSData.points axes.
Proof. unfold FITSData.points at 1. cbn. rewrite points_from. lia. Qed.

Lemma readPoint_at (d : FITSData.FITSData) (off : Z) :
  FITSData.BITPIX d <> FITSData.B64 ->
  0 <= off ->
  off + FITSData.wordBytes (FITSData.BITPIX d) <= FITSData.byteLength d ->
  exists w, FITSData.readPoint d (FITSData.Num off) = Ok w.
Proof.
  unfold FITSData.readPoint, FITSData.byteLength, DataView.getInt,
    DataView.getBits, DataView.bytesAt, FITSData.toIndex.
  intros B P L.
  destruct (FITSData.BITPIX d); try contradiction;
    match type of L with
    | _ + ?w <= _ => let v := eval vm_compute in w in change w with v in L
    end;
    match goal with
    | |- context [?a || ?b] =>
        replace (a || b) with false
          by (symmetry; apply orb_false_iff; split;
              [apply Z.ltb_ge; lia|apply Z.ltb_ge; cbn; lia])
    end; cbn; eauto.
Qed.


Lemma linear_nonneg (axes coords : list Z) :
  Forall (fun n => 0 < n) axes ->
  Forall (fun c => 0 <= c) coords ->
  0 <= FITSData.linear axes coords.
Proof.
  intros P. revert coords.
  induction P as [|a axes Pa P IH]; intros coords C; [reflexivity|].
  destruct C as [|c coords Pc C]; [reflexivity|].
  cbn [FITSData.linear]. specialize (IH coords C). nia.
Qed.

Lemma abs_nonneg_all (coords : list Z) :
  Forall (fun c => 0 <= c) (map Z.abs coords).
Proof. induction coords; constructor; [lia|assumption]. Qed.

Lemma linear_abs (axes coords : list Z) :
  Forall (fun n => 0 < n) axes ->
  Z.abs (FITSData.linear axes coords) <= FITSData.linear axes (map Z.abs coords).
Proof.
  intros P. revert coords.
  induction P as [|a axes Pa P IH]; intros coords; [reflexivity|].
  destruct coords as [|c coords]; [reflexivity|].
  cbn [map FITSData.linear]. specialize (IH coords).
  pose proof (linear_nonneg axes (map Z.abs coords) P (abs_nonneg_all coords)).
  nia.
Qed.

(** The loop of [getPoint] on integer coordinates, as long as every number
    it meets has at most 53 bits: the arithmetic is exact. *)
Lemma offset_loop_exact (d : FITSData.FITSData) :
  Forall (fun n => 0 < n) (FITSData.NAXISn d) ->
  forall (coords : list Z) (i : nat) (m o : Z),
    (i + length coords <= length (FITSData.NAXISn d))%nat ->
    0 < m ->
    m * FITSData.points (take (length coords) (drop i (FITSData.NAXISn d)))
    < 2 ^ 53 ->
    Z.abs o + m * FITSData.linear (drop i (FITSData.NAXISn d)) (map Z.abs coords)
    < 2 ^ 53 ->
    FITSData.offset_loop d (map Double.ofZ coords) i
      (Double.exact m) (Double.exact o)
    = Double.exact (o + m * FITSData.linear (drop i (FITSData.NAXISn d)) coords).
Proof.
  intros Pos.
  induction coords as [|c coords IH]; intros i m o Len Pm Mul Sum;
    cbn [map FITSData.offset_loop].
  - f_equal. destruct (drop i (FITSData.NAXISn d)); cbn; lia.
  - simpl in Len.
    unfold FITSData.axis.
    destruct (FITSData.NAXISn d !! i) as [a|] eqn:A;
      [|apply lookup_ge_None in A; lia].
    rewrite (drop_S _ _ _ A) in Mul, Sum |- *.
    cbn [length take map FITSData.linear] in Mul, Sum |- *.
    rewrite points_cons in Mul.
    assert (Pa : 0 < a).
    { rewrite Forall_forall in Pos. apply Pos, list_elem_of_lookup. eauto. }
    assert (Prest : Forall (fun n => 0 < n) (drop (S i) (FITSData.NAXISn d)))
      by now apply Forall_drop.
    assert (Pp : 0 < FITSData.points
                       (take (length coords) (drop (S i) (FITSData.NAXISn d))))
      by now apply points_pos, Forall_take.
    pose proof (linear_nonneg _ _ Prest (abs_nonneg_all coords)) as Pl.
    set (pts := FITSData.points (take (length coords)
                                   (drop (S i) (FITSData.NAXISn d)))) in *.
    set (lin := FITSData.linear (drop (S i) (FITSData.NAXISn d))
                  (map Z.abs coords)) in *.
    assert (Ma : m * a < 2 ^ 53) by nia.
    assert (Sa : a < 2 ^ 53) by nia.
    assert (Al : 0 <= m * (a * lin)) by nia.
    assert (Mc : Z.abs (c * m) = m * Z.abs c) by (rewrite Z.abs_mul; lia).
    assert (Sum' : Z.abs o + m * Z.abs c + m * (a * lin) < 2 ^ 53).
    { replace (Z.abs o + m * Z.abs c + m * (a * lin))
        with (Z.abs o + m * (Z.abs c + a * lin)) by ring.
      exact Sum. }
    assert (Sc : Z.abs c < 2 ^ 53) by nia.
    rewrite (ofZ_exact a), (ofZ_exact c) by lia.
    rewrite (mul_exact m a) by (rewrite ?Z.abs_mul; lia).
    rewrite (mul_exact c m) by lia.
    rewrite (add_exact o (c * m)) by lia.
    rewrite IH.
    + f_equal. ring.
    + lia.
    + lia.
    + fold pts. replace (m * a * pts) with (m * (a * pts)) by ring. exact Mul.
    + fold lin. replace (m * a * lin) with (m * (a * lin)) by ring. lia.
Qed.

(** The byte offset [getPoint] computes from such coordinates. *)
Lemma offset_of_coords (d : FITSData.FITSData) (coords : list Z) :
  FITSData.wellShaped d ->
  Z.of_nat (length coords) = FITSData.NAXIS d ->
  FITSData.exactFor d coords ->
  FITSData.byteOffset d (map Double.ofZ coords)
  = Double.exact (FITSData.linear (FITSData.NAXISn d) coords
                  * FITSData.wordBytes (FITSData.BITPIX d))
    /\ Z.abs (FITSData.linear (FITSData.NAXISn d) coords
              * FITSData.wordBytes (FITSData.BITPIX d)) < 2 ^ 53.
Proof.
  intros (Shape & Pos & Len) A (Small & Safe).
  pose proof (wordBytes_pos (FITSData.BITPIX d)) as W.
  pose proof (points_pos _ Pos) as Pts.
  pose proof (linear_abs _ coords Pos) as Abs.
  pose proof (linear_nonneg _ _ Pos (abs_nonneg_all coords)) as Nonneg.
  set (wb := FITSData.wordBytes (FITSData.BITPIX d)) in *.
  set (k := FITSData.linear (FITSData.NAXISn d) coords) in *.
  set (ka := FITSData.linear (FITSData.NAXISn d) (map Z.abs coords)) in *.
  assert (K : Z.abs (k * wb) < 2 ^ 53) by (rewrite Z.abs_mul; nia).
  split; [|exact K].
  unfold FITSData.byteOffset.
  change (Double.ofZ 1) with (Double.exact 1).
  change (Double.ofZ 0) with (Double.exact 0).
  rewrite (offset_loop_exact d Pos coords 0 1 0);
    rewrite ?drop_0; fold k ka; try lia.
  - rewrite (ofZ_exact (FITSData.wordBytes (FITSData.BITPIX d))) by (fold wb; nia).
    fold wb. replace (0 + 1 * k) with k by lia.
    apply mul_exact; [exact K|lia].
  - rewrite take_ge by lia. nia.
Qed.

(** [getPoint] on integer coordinates on which its arithmetic is exact:
    the out-of-bounds check is the one on the number of the word. *)
Lemma getPoint_of_integers (d : FITSData.FITSData) (coords : list Z) :
  FITSData.wellShaped d ->
  1 <= FITSData.NAXIS d ->
  Z.of_nat (length coords) = FITSData.NAXIS d ->
  FITSData.exactFor d coords ->
  let offset := FITSData.linear (FITSData.NAXISn d) coords
                * FITSData.wordBytes (FITSData.BITPIX d) in
  FITSData.getPoint d (map Double.ofZ coords)
  = if (offset <? 0) || (FITSData.byteLength d <=? offset)
    then Throw OutOfBounds
    else FITSData.readPoint d (FITSData.Num offset).
Proof.
  intros WS N A Exact offset.
  destruct (offset_of_coords d coords WS A Exact) as [O K]. fold offset in O, K.
  destruct Exact as [Small _].
  assert (L : 0 <= FITSData.byteLength d) by (unfold FITSData.byteLength; lia).
  rewrite getPoint_checked by (rewrite ?length_map; lia).
  rewrite O. change (Double.ofZ 0) with (Double.exact 0).
  rewrite (ofZ_exact (FITSData.byteLength d)) by lia.
  rewrite ltb_exact, geb_exact by (cbn; lia).
  destruct (Z.ltb_spec offset 0); [reflexivity|].
  destruct (Z.leb_spec (FITSData.byteLength d) offset); [reflexivity|].
  cbn [orb]. apply readPointAt_index, toIndex_exact. lia.
Qed.

(** On a well-shaped matrix [getPoint] takes its coordinates as zero-based,
    integer coordinates on which its arithmetic is exact. *)
Theorem getPoint_reads_word_number (d : FITSData.FITSData) (coords : list Z) :
  FITSData.wellShaped d ->
  1 <= FITSData.NAXIS d ->
  Z.of_nat (length coords) = FITSData.NAXIS d ->
  FITSData.exactFor d coords ->
  (FITSData.linear (FITSData.NAXISn d) coords < 0
   \/ FITSData.points (FITSData.NAXISn d) <= FITSData.linear (FITSData.NAXISn d) coords ->
   FITSData.getPoint d (map Double.ofZ coords) = Throw OutOfBounds)
  /\ (0 <= FITSData.linear (FITSData.NAXISn d) coords < FITSData.points (FITSData.NAXISn d) ->
      FITSData.getPoint d (map Double.ofZ coords)
      = FITSData.readPoint d
          (FITSData.Num (FITSData.linear (FITSData.NAXISn d) coords
                         * FITSData.wordBytes (FITSData.BITPIX d)))
      /\ (FITSData.BITPIX d <> FITSData.B64 ->
          exists w, FITSData.getPoint d (map Double.ofZ coords) = Ok w)).
Proof.
  intros WS N A Exact. pose proof WS as (Shape & Pos & Len).
  pose proof (wordBytes_pos (FITSData.BITPIX d)) as W.
  rewrite (getPoint_of_integers d coords WS N A Exact). cbn zeta. rewrite Len.
  set (k := FITSData.linear (FITSData.NAXISn d) coords).
  set (wb := FITSData.wordBytes (FITSData.BITPIX d)) in *.
  set (pts := FITSData.points (FITSData.NAXISn d)) in *.
  split.
  - intros [Neg|Big].
    + replace (k * wb <? 0) with true by (symmetry; apply Z.ltb_lt; nia).
      reflexivity.
    + replace (pts * wb <=? k * wb) with true by (symmetry; apply Z.leb_le; nia).
      now rewrite orb_true_r.
  - intros [Lo Hi].
    replace (k * wb <? 0) with false by (symmetry; apply Z.ltb_ge; nia).
    replace (pts * wb <=? k * wb) with false by (symmetry; apply Z.leb_gt; nia).
    cbn [orb]. split; [reflexivity|].
    intros B. apply readPoint_at; [exact B|nia|]. rewrite Len. fold wb pts. nia.
Qed.

(** Beyond these coordinates the arithmetic of doubles shows: on the
    matrix of one byte with three axes, the coordinates [2^53], 1 and
    [-2^53] address no point, and the sum of their strides is 1, but the
    sum the loop rounds is 0 and the byte is returned; and on a row of two
    16-bit words the coordinate 1.75 passes the check of [getPoint] and
    fails in [DataView]. *)
Lemma getPoint_beyond_exact_integers :
  FITSData.getPoint (FITSData.mkData FITSData.B8 3 [1; 1; 1] [Byte.x07])
    (map Double.ofZ [2 ^ 53; 1; - 2 ^ 53])
  = Ok (FITSData.Int 7)
  /\ FITSData.linear [1; 1; 1] [2 ^ 53; 1; - 2 ^ 53] = 1
  /\ FITSData.getPoint
       (FITSData.mkData FITSData.B16 1 [2]
          [Byte.x00; Byte.x01; Byte.x00; Byte.x02])
       [Double.dyadic 7 (-2)]
     = Throw DataViewRange
  /\ FITSData.getPoint (FITSData.mkData FITSData.B8 1 [2] [Byte.x0a; Byte.x14])
       [Double.NaN]
     = Ok (FITSData.Int 10).
Proof. repeat split; vm_compute; reflexivity. Qed.

(** The coordinates of the last point of a well-shaped matrix, the axis
    lengths themselves, are out of bounds for [getPoint]. *)
Lemma linear_lengths (axes : list Z) :
  Forall (fun n => 0 < n) axes ->
  axes <> [] ->
  FITSData.points axes <= FITSData.linear axes axes.
Proof.
  induction 1 as [|a axes Pa P IH]; intros NE; [contradiction|].
  rewrite points_cons. cbn [FITSData.linear].
  destruct axes as [|b axes].
  - unfold FITSData.points. cbn. lia.
  - specialize (IH ltac:(discriminate)). nia.
Qed.

Lemma getPoint_at_axis_lengths (d : FITSData.FITSData) :
  FITSData.wellShaped d ->
  1 <= FITSData.NAXIS d ->
  FITSData.exactFor d (FITSData.NAXISn d) ->
  FITSData.getPoint d (map Double.ofZ (FITSData.NAXISn d)) = Throw OutOfBounds.
Proof.
  intros WS N Exact. pose proof WS as (Shape & Pos & Len).
  rewrite (getPoint_of_integers d _ WS N) by (assumption || lia). cbn zeta.
  pose proof (wordBytes_pos (FITSData.BITPIX d)) as W.
  pose proof (points_pos _ Pos) as Pts.
  assert (L : FITSData.points (FITSData.NAXISn d)
              <= FITSData.linear (FITSData.NAXISn d) (FITSData.NAXISn d)).
  { apply linear_lengths; [exact Pos|].
    destruct (FITSData.NAXISn d); [simpl in Shape; lia|discriminate]. }
  replace (FITSData.byteLength d
           <=? FITSData.linear (FITSData.NAXISn d) (FITSData.NAXISn d)
               * FITSData.wordBytes (FITSData.BITPIX d))
    with true by (symmetry; apply Z.leb_le; nia).
  now rewrite orb_true_r.
Qed.

(** With every coordinate 1, the strides of all axes add up: the number of
    the word is not 0. *)
Lemma linear_ones (axes : list Z) :
  Forall (fun n => 0 < n) axes ->
  axes <> [] ->
  1 <= FITSData.linear axes (repeat 1 (length axes)).
Proof.
  intros P NE. destruct P as [|a axes Pa P]; [contradiction|].
  cbn [length repeat FITSData.linear].
  assert (0 <= FITSData.linear axes (repeat 1 (length axes))).
  { apply linear_nonneg; [exact P|].
    induction (length axes); cbn; constructor; [lia|assumption]. }
  nia.
Qed.

(** [getPoint] on the coordinates of the first point [getData] yields
    does not read byte offset 0: it reads some words further, or throws. *)
Lemma getPoint_at_ones (d : FITSData.FITSData) :
  FITSData.wellShaped d ->
  1 <= FITSData.NAXIS d ->
  FITSData.exactFor d (repeat 1 (Z.to_nat (FITSData.NAXIS d))) ->
  exists s,
    1 <= s
    /\ FITSData.getPoint d
         (map Double.ofZ (repeat 1 (Z.to_nat (FITSData.NAXIS d))))
       = if FITSData.byteLength d <=? s * FITSData.wordBytes (FITSData.BITPIX d)
         then Throw OutOfBounds
         else FITSData.readPoint d
                (FITSData.Num (s * FITSData.wordBytes (FITSData.BITPIX d))).
Proof.
  intros WS N Exact. pose proof WS as (Shape & Pos & Len).
  exists (FITSData.linear (FITSData.NAXISn d)
            (repeat 1 (Z.to_nat (FITSData.NAXIS d)))).
  assert (One : 1 <= FITSData.linear (FITSData.NAXISn d)
                       (repeat 1 (Z.to_nat (FITSData.NAXIS d)))).
  { rewrite Shape, Nat2Z.id. apply linear_ones; [exact Pos|].
    destruct (FITSData.NAXISn d); [simpl in Shape; lia|discriminate]. }
  split; [exact One|].
  rewrite (getPoint_of_integers d _ WS N) by (rewrite ?repeat_length; assumption || lia).
  cbn zeta. pose proof (wordBytes_pos (FITSData.BITPIX d)) as W.
  replace (_ * _ <? 0) with false by (symmetry; apply Z.ltb_ge; nia).
  reflexivity.
Qed.

(** ** The order of [getData] *)

Lemma incr_at (pre rest : list FITSData.num) (c : FITSData.num) :
  FITSData.incr (pre ++ c :: rest) (length pre)
  = pre ++ FITSData.nadd c (FITSData.Num 1) :: rest.
Proof.
  unfold FITSData.incr.
  rewrite lookup_app_r by lia. rewrite Nat.sub_diag. cbn [lookup list_lookup].
  rewrite insert_app_r_alt by lia. rewrite Nat.sub_diag. reflexivity.
Qed.

(** One more on the first axis, and the carries that follow: the
    coordinates of the next point. *)
Lemma carry_next :
  forall (axes : list Z) (pre : list FITSData.num) (k : Z),
    Forall (fun n => 0 < n) axes ->
    0 <= k -> k + 1 < FITSData.points axes ->
    FITSData.carry axes
      (FITSData.incr (pre ++ map FITSData.Num (FITSData.coordinatesOf axes k)) (length pre))
      (length pre)
    = pre ++ map FITSData.Num (FITSData.coordinatesOf axes (k + 1)).
Proof.
  induction axes as [|n axes IH]; intros pre k Pos K Next.
  - unfold FITSData.points in Next. cbn in Next. lia.
  - apply Forall_cons in Pos as [Pn Pos]. rewrite points_cons in Next.
    cbn [FITSData.coordinatesOf map]. rewrite incr_at.
    cbn [FITSData.nadd FITSData.carry].
    unfold FITSData.coord. rewrite lookup_app_r by lia. rewrite Nat.sub_diag.
    cbn [lookup list_lookup FITSData.ngt FITSData.nlt].
    pose proof (Z.mod_pos_bound k n Pn) as M.
    pose proof (Z.div_mod k n ltac:(lia)) as DM.
    destruct (Z.ltb_spec n (1 + k mod n + 1)) as [Carry|Stay].
    + assert (Q : (k + 1) / n = k / n + 1).
      { symmetry. apply (Z.div_unique (k + 1) n (k / n + 1) 0); lia. }
      assert (R : (k + 1) mod n = 0).
      { symmetry. apply (Z.mod_unique (k + 1) n (k / n + 1) 0); lia. }
      rewrite Q, R.
      assert (Next' : k / n + 1 < FITSData.points axes) by nia.
      assert (K' : 0 <= k / n) by (apply Z.div_pos; lia).
      rewrite insert_app_r_alt by lia. rewrite Nat.sub_diag. cbn [insert list_insert].
      change (pre ++ FITSData.Num 1 :: map FITSData.Num (FITSData.coordinatesOf axes (k / n)))
        with (pre ++ [FITSData.Num 1] ++ map FITSData.Num (FITSData.coordinatesOf axes (k / n))).
      rewrite app_assoc.
      replace (S (length pre)) with (length (pre ++ [FITSData.Num 1]))
        by (rewrite length_app; simpl; lia).
      rewrite (IH (pre ++ [FITSData.Num 1]) (k / n) Pos K' Next').
      rewrite <- app_assoc. reflexivity.
    + assert (Q : (k + 1) / n = k / n).
      { symmetry. apply (Z.div_unique (k + 1) n (k / n) (k mod n + 1)); lia. }
      assert (R : (k + 1) mod n = k mod n + 1).
      { symmetry. apply (Z.mod_unique (k + 1) n (k / n) (k mod n + 1)); lia. }
      rewrite Q, R. do 3 f_equal. lia.
Qed.

Lemma coordinatesOf_zero (axes : list Z) :
  map FITSData.Num (FITSData.coordinatesOf axes 0) = repeat (FITSData.Num 1) (length axes).
Proof.
  induction axes as [|n axes IH]; [reflexivity|].
  cbn [FITSData.coordinatesOf map length repeat]. rewrite Zmod_0_l, Zdiv_0_l, IH. reflexivity.
Qed.

Lemma sweep_from (d : FITSData.FITSData) :
  FITSData.wellShaped d ->
  FITSData.BITPIX d <> FITSData.B64 ->
  forall (left : nat) (fuel : nat) (k : Z)
         (yielded : list (list FITSData.num * FITSData.word)),
    0 <= k ->
    k + Z.of_nat left = FITSData.points (FITSData.NAXISn d) ->
    (0 < left <= fuel)%nat ->
    exists more,
      FITSData.sweep fuel d (map FITSData.Num (FITSData.coordinatesOf (FITSData.NAXISn d) k))
        (k * FITSData.wordBytes (FITSData.BITPIX d)) yielded
      = (yielded ++ more, FITSData.Done)
      /\ length more = left
      /\ forall j : nat,
           (j < left)%nat ->
           exists w,
             FITSData.readPoint d
               (FITSData.Num ((k + Z.of_nat j) * FITSData.wordBytes (FITSData.BITPIX d)))
             = Ok w
             /\ more !! j
                = Some (map FITSData.Num
                          (FITSData.coordinatesOf (FITSData.NAXISn d) (k + Z.of_nat j)), w).
Proof.
  intros (Shape & Pos & Len) B.
  pose proof (wordBytes_pos (FITSData.BITPIX d)) as W.
  set (wb := FITSData.wordBytes (FITSData.BITPIX d)) in *.
  induction left as [|left IH]; intros fuel k yielded K Sum F; [lia|].
  destruct fuel as [|fuel]; [lia|]. cbn [FITSData.sweep]. fold wb.
  destruct (readPoint_at d (k * wb) B) as [w R]; [nia|fold wb; rewrite Len; nia|].
  rewrite R.
  destruct (Z.ltb_spec (k * wb + wb) (FITSData.byteLength d)) as [More|Last].
  - assert (L1 : (0 < left)%nat) by (rewrite Len in More; nia).
    pose proof (carry_next (FITSData.NAXISn d) [] k Pos K ltac:(lia)) as C.
    cbn [app length] in C. rewrite C.
    replace (k * wb + wb) with ((k + 1) * wb) by lia.
    destruct (IH fuel (k + 1)
                (yielded ++ [(map FITSData.Num (FITSData.coordinatesOf (FITSData.NAXISn d) k), w)]))
      as (more & E & L & Each); [lia|lia|lia|].
    exists ((map FITSData.Num (FITSData.coordinatesOf (FITSData.NAXISn d) k), w) :: more).
    split; [rewrite E, <- app_assoc; reflexivity|]. split; [simpl; lia|].
    intros [|j] J.
    + exists w. rewrite Z.add_0_r. split; [exact R|reflexivity].
    + destruct (Each j ltac:(lia)) as (w' & R' & L').
      exists w'. replace (k + Z.of_nat (S j)) with (k + 1 + Z.of_nat j) by lia.
      split; [exact R'|exact L'].
  - assert (L1 : left = O) by (rewrite Len in Last; nia). subst left.
    exists [(map FITSData.Num (FITSData.coordinatesOf (FITSData.NAXISn d) k), w)].
    split; [reflexivity|]. split; [reflexivity|].
    intros [|j] J; [|lia]. exists w. rewrite Z.add_0_r. split; [exact R|reflexivity].
Qed.

(** [getData] on a well-shaped matrix: every point once, in buffer order. *)
Theorem getData_enumerates (d : FITSData.FITSData) :
  FITSData.wellShaped d ->
  1 <= FITSData.NAXIS d ->
  FITSData.BITPIX d <> FITSData.B64 ->
  exists yielded,
    FITSData.getData d = (yielded, FITSData.Done)
    /\ Z.of_nat (length yielded) = FITSData.points (FITSData.NAXISn d)
    /\ forall k : nat,
         (k < length yielded)%nat ->
         exists w,
           FITSData.readPoint d
             (FITSData.Num (Z.of_nat k * FITSData.wordBytes (FITSData.BITPIX d)))
           = Ok w
           /\ yielded !! k
              = Some (map FITSData.Num
                        (FITSData.coordinatesOf (FITSData.NAXISn d) (Z.of_nat k)), w).
Proof.
  intros WS N B. pose proof WS as (Shape & Pos & Len).
  pose proof (points_pos _ Pos) as Pts.
  pose proof (wordBytes_pos (FITSData.BITPIX d)) as W.
  unfold FITSData.getData.
  destruct (Z.eqb_spec (FITSData.NAXIS d) 0); [lia|].
  rewrite Shape, Nat2Z.id, <- coordinatesOf_zero.
  destruct (sweep_from d WS B (Z.to_nat (FITSData.points (FITSData.NAXISn d)))
              (S (length (FITSData.dataBuffer d))) 0 [])
    as (more & E & L & Each); [lia|lia| |].
  { unfold FITSData.byteLength in Len. nia. }
  change (0 * FITSData.wordBytes (FITSData.BITPIX d)) with 0 in E.
  exists more. split; [exact E|]. split; [lia|].
  intros k K. destruct (Each k ltac:(lia)) as (w & R & Lk).
  exists w. split; assumption.
Qed.


Lemma length_coordinatesOf (axes : list Z) (k : Z) :
  length (FITSData.coordinatesOf axes k) = length axes.
Proof.
  revert k. induction axes as [|n axes IH]; intros k; [reflexivity|].
  cbn. now rewrite IH.
Qed.

Lemma linear_coordinatesOf (axes : list Z) :
  Forall (fun n => 0 < n) axes ->
  forall k : Z,
    0 <= k < FITSData.points axes ->
    FITSData.linear axes (map (fun c => c - 1) (FITSData.coordinatesOf axes k)) = k.
Proof.
  induction 1 as [|n axes Pn Pos IH]; intros k K.
  - unfold FITSData.points in K. cbn in *. lia.
  - rewrite points_cons in K. cbn [FITSData.coordinatesOf map FITSData.linear].
    pose proof (Z.mod_pos_bound k n Pn) as M.
    pose proof (Z.div_mod k n ltac:(lia)) as DM.
    rewrite IH; [lia|].
    split; [apply Z.div_pos; lia|].
    apply Z.div_lt_upper_bound; lia.
Qed.

Lemma coordinatesOf_zero_based (axes : list Z) :
  Forall (fun n => 0 < n) axes ->
  forall k : Z,
    map Z.abs (map (fun c => c - 1) (FITSData.coordinatesOf axes k))
    = map (fun c => c - 1) (FITSData.coordinatesOf axes k).
Proof.
  induction 1 as [|n axes Pn Pos IH]; intros k; [reflexivity|].
  cbn [FITSData.coordinatesOf map]. rewrite IH. f_equal.
  pose proof (Z.mod_pos_bound k n Pn). lia.
Qed.

(** The coordinates [getData] yields are one more, on every axis, than the
    ones [getPoint] takes for the same word; the buffer has fewer than
    [2^53] bytes, as every buffer of the language has. *)
Theorem getData_is_getPoint_shifted (d : FITSData.FITSData) :
  FITSData.wellShaped d ->
  1 <= FITSData.NAXIS d ->
  FITSData.BITPIX d <> FITSData.B64 ->
  FITSData.byteLength d < 2 ^ 53 ->
  Forall (fun y : list FITSData.num * FITSData.word =>
            exists coords : list Z,
              fst y = map FITSData.Num coords
              /\ FITSData.getPoint d (map (fun c => Double.ofZ (c - 1)) coords)
                 = Ok (snd y))
    (fst (FITSData.getData d)).
Proof.
  intros WS N B Small. pose proof WS as (Shape & Pos & Len).
  pose proof (wordBytes_pos (FITSData.BITPIX d)) as W.
  pose proof (points_pos _ Pos) as Pts.
  unfold FITSData.getData.
  destruct (Z.eqb_spec (FITSData.NAXIS d) 0); [lia|].
  rewrite Shape, Nat2Z.id, <- coordinatesOf_zero.
  destruct (sweep_from d WS B (Z.to_nat (FITSData.points (FITSData.NAXISn d)))
              (S (length (FITSData.dataBuffer d))) 0 [])
    as (yielded & E & L & Each); [lia|lia| |].
  { unfold FITSData.byteLength in Len. nia. }
  change (0 * FITSData.wordBytes (FITSData.BITPIX d)) with 0 in E.
  rewrite E. cbn [fst app]. apply Forall_lookup_2. intros k [coords w] Y.
  pose proof (lookup_lt_Some _ _ _ Y) as K.
  destruct (Each k ltac:(lia)) as (w' & R & Y'). cbn [Z.add] in R, Y'.
  rewrite Y in Y'. injection Y' as -> ->.
  exists (FITSData.coordinatesOf (FITSData.NAXISn d) (Z.of_nat k)). split; [reflexivity|].
  cbn [snd]. rewrite <- (map_map (fun c => c - 1) Double.ofZ).
  assert (Lin : FITSData.linear (FITSData.NAXISn d)
                  (map (fun c => c - 1)
                     (FITSData.coordinatesOf (FITSData.NAXISn d) (Z.of_nat k)))
                = Z.of_nat k)
    by (apply linear_coordinatesOf; [assumption|lia]).
  rewrite (getPoint_of_integers d _ WS N).
  - cbn zeta. rewrite Lin, Len.
    replace (Z.of_nat k * FITSData.wordBytes (FITSData.BITPIX d) <? 0) with false
      by (symmetry; apply Z.ltb_ge; nia).
    replace (FITSData.points (FITSData.NAXISn d)
               * FITSData.wordBytes (FITSData.BITPIX d)
             <=? Z.of_nat k * FITSData.wordBytes (FITSData.BITPIX d))
      with false by (symmetry; apply Z.leb_gt; nia).
    exact R.
  - rewrite length_map, length_coordinatesOf. lia.
  - split; [exact Small|].
    rewrite coordinatesOf_zero_based, Lin by assumption. nia.
Qed.

(** ** The range of the words *)






(** ** Headers made from nothing *)

Lemma test_of_regex (r : Regex.regex) (get : RegexState -> nat)
  (set : nat -> RegexState -> RegexState) (input : string) (st : RegexState) :
  exists b st', test r get set input st = (Ok b, st').
Proof. unfold test. destruct (Regex.test_g _ _ _). eauto. Qed.

(** The first card of [copyWith]: made, or refused for its keyword or for
    its comment, as [lastIndex] of [keywordRegex] and of [asciiRegex] have
    it. *)
Lemma fromValue_SIMPLE (st : RegexState) :
  (exists card st',
     Card.fromValue "SIMPLE" (Card.VBool true) (Some "Fits standard") st
     = (Ok card, st')
     /\ keywordRegex_lastIndex st' = 6%nat)
  \/ (exists e st',
        Card.fromValue "SIMPLE" (Card.VBool true) (Some "Fits standard") st
        = (Throw e, st')
        /\ (e = InvalidKeyword \/ e = NonAsciiComment)).
Proof.
  destruct (Card.fromValue "SIMPLE" (Card.VBool true) (Some "Fits standard") st)
    as [[card|e] st'] eqn:F.
  - left. exists card, st'. split; [reflexivity|].
    now apply fromValue_leaves_lastIndex in F as [-> _].
  - right. exists e, st'. split; [reflexivity|]. revert F.
    unfold Card.fromValue, bind, throw, lift, ret.
    change (Js.trimEnd "SIMPLE") with "SIMPLE".
    destruct (test_of_regex Card.hierarchRegex hierarchRegex_lastIndex
                (fun i st => mkRegexState (keywordRegex_lastIndex st) i
                   (asciiRegex_lastIndex st) (fitsCardIntegerRegExp_lastIndex st)
                   (fitsCardRealRegExp_lastIndex st) (fitsCardStringRegExp_lastIndex st)
                   (fitsCardLogicalRegExp_lastIndex st)) "SIMPLE" st)
      as (h & st1 & H).
    fold (Card.test_hierarchRegex "SIMPLE" st) in H. rewrite H.
    change (Card.CARD_LENGTH <? Card.len "SIMPLE") with false.
    rewrite andb_false_r.
    destruct (Card.test_keywordRegex "SIMPLE" st1) as [[[|]|e1] st2] eqn:K;
      cbn [negb].
    2:{ intros [= <- _]. now left. }
    2:{ unfold Card.test_keywordRegex, test in K.
        destruct (Regex.test_g _ _ _). discriminate K. }
    cbn [String.eqb Ascii.eqb Bool.eqb andb Card.is_string negb].
    destruct (Card.test_asciiRegex "Fits standard" st2) as [[[|]|e2] st3] eqn:A;
      cbn [negb].
    2:{ intros [= <- _]. now right. }
    2:{ unfold Card.test_asciiRegex, test in A.
        destruct (Regex.test_g _ _ _). discriminate A. }
    destruct (Card.test_hierarchRegex "SIMPLE" st3) as [[h2|e3] st4] eqn:H2.
    2:{ unfold Card.test_hierarchRegex, test in H2.
        destruct (Regex.test_g _ _ _). discriminate H2. }
    destruct h2; vm_compute; discriminate.
Qed.

Lemma copyWith_throws (h : FITSHeader.FITSHeader) (BITPIX : Z)
  (axes : list Z) (st : RegexState) :
  exists e st',
    FITSHeader.copyWith h BITPIX axes st = (Throw e, st')
    /\ ((e = UnexpectedBITPIX
         /\ existsb (Z.eqb BITPIX) [8; 16; 32; 64; -32; -64] = false)
        \/ e = UnexpectedAxis \/ e = InvalidKeyword \/ e = NonAsciiComment).
Proof.
  unfold FITSHeader.copyWith, bind, throw, lift.
  destruct (existsb _ _); cbn [negb].
  2:{ exists UnexpectedBITPIX, st. split; [reflexivity|]. now left. }
  unfold FITSHeader.check_axes. destruct (forallb _ _).
  2:{ exists UnexpectedAxis, st. split; [reflexivity|]. right. now left. }
  destruct (fromValue_SIMPLE st) as [(card & st1 & -> & L)|(e & st1 & -> & E)].
  - destruct (fromValue_busy "BITPIX" (Card.VNumber (FITSHeader.integer BITPIX))
                (Some "Bits per pixel") st1) as [st2 ->]; [lia|vm_compute; lia|].
    exists InvalidKeyword, st2. split; [reflexivity|]. right. right. now left.
  - exists e, st1. split; [reflexivity|]. destruct E as [-> | ->]; auto.
Qed.

(** [copyWith] never returns a header, and so neither does [basic]:
    whatever the receiver, the arguments and the state of the regexes, the
    call throws.  With a valid BITPIX and positive axis lengths, the first
    card is refused, or else the second one is, for what the first left in
    [keywordRegex.lastIndex]. *)
Theorem copyWith_never_returns (h : FITSHeader.FITSHeader) (BITPIX : Z)
  (axes : list Z) (st : RegexState) :
  (exists e st',
     FITSHeader.copyWith h BITPIX axes st = (Throw e, st')
     /\ (e = UnexpectedBITPIX \/ e = UnexpectedAxis
         \/ e = InvalidKeyword \/ e = NonAsciiComment))
  /\ (exists e st',
        FITSHeader.basic BITPIX axes st = (Throw e, st')
        /\ (e = UnexpectedBITPIX \/ e = UnexpectedAxis
            \/ e = InvalidKeyword \/ e = NonAsciiComment)).
Proof.
  split; [|unfold FITSHeader.basic];
    edestruct copyWith_throws as (e & st' & C & E);
    exists e, st'; (split; [exact C|]);
    destruct E as [[E _]|[E|[E|E]]]; auto.
Qed.

(** [FITS.fromDataArray] never returns a file: making the header throws
    before the data are looked at. *)
Theorem fromDataArray_never_returns (number : Type)
  (NumericToRawBytes : FITSData.FITSBITPIX -> number -> DataView.buffer)
  (points : list number) (BITPIX : FITSData.FITSBITPIX) (axes : list Z)
  (copyHeader : option FITSHeader.FITSHeader) (st : RegexState) :
  exists e st',
    FITS.fromDataArray number NumericToRawBytes points BITPIX axes copyHeader st
    = (Throw e, st')
    /\ (e = UnexpectedAxis \/ e = InvalidKeyword \/ e = NonAsciiComment).
Proof.
  unfold FITS.fromDataArray, FITSHeader.basic, bind.
  destruct (copyWith_throws
              (match copyHeader with Some h => h | None => FITSHeader.mkHeader [] end)
              (FITSData.bitpix BITPIX) axes st) as (e & st' & C & E).
  exists e, st'. split.
  - destruct copyHeader; rewrite C; reflexivity.
  - destruct E as [[_ B]|E]; [|exact E]. now destruct BITPIX.
Qed.

(** ** Reading a header *)


(** What the loop of [getValues] has collected when it goes through. *)
Lemma collect_values (all : list Card.Card) :
  forall (ms : list (Card.Card * nat)) (acc vs : list Card.FITSCardValue)
         (st st' : RegexState),
    FITSHeader.collect all ms acc st = (Ok vs, st') ->
    vs = acc ++ map (fun p : Card.Card * nat =>
                       match Card.value (fst p) with
                       | Card.VString v =>
                           Card.VString (FITSHeader.resolve v (drop (S (snd p)) all))
                       | other => other
                       end) ms.
Proof.
  induction ms as [|[card index] ms IH]; intros acc vs st st'.
  - cbn. intros [= <- _]. now rewrite app_nil_r.
  - cbn [FITSHeader.collect]. unfold bind.
    destruct (FITSHeader.validate card st) as [[[]|e] st1]; [|discriminate].
    cbn [map fst snd].
    destruct (Card.value card) as [v| | | |]; intros H; apply IH in H;
      rewrite H, <- app_assoc; reflexivity.
Qed.

(** Whenever [getValues] returns, it returns one value for each card whose
    keyword is the argument, trimmed and in upper case, in the order of the
    cards: a value that is not a string as the card holds it, a string
    joined with the CONTINUE cards that follow it.  The state of the
    regexes decides whether a call throws, never what it returns. *)
Theorem getValues_returns_the_values (h : FITSHeader.FITSHeader) (keyword : string)
  (st st' : RegexState) (vs : list Card.FITSCardValue) :
  FITSHeader.getValues h keyword st = (Ok vs, st') ->
  vs = map (fun p : Card.Card * nat =>
              match Card.value (fst p) with
              | Card.VString v =>
                  Card.VString
                    (FITSHeader.resolve v (drop (S (snd p)) (FITSHeader.cards h)))
              | other => other
              end)
         match Js.toUpperCase (Js.trim keyword) with
         | Some k => FITSHeader.matching k (FITSHeader.cards h)
         | None => []
         end.
Proof.
  unfold FITSHeader.getValues.
  destruct (Js.toUpperCase (Js.trim keyword)) as [k|].
  - destruct (_ || _); [discriminate|].
    intros H. now apply collect_values in H.
  - now intros [= <- _].
Qed.

Lemma getValues_returns_the_values_witness :
  Js.toUpperCase (Js.trim " ttype1 ") = Some "TTYPE1"
  /\ [Card.VString "ABCDEFG  HIJK"]
     = map (fun p : Card.Card * nat =>
              match Card.value (fst p) with
              | Card.VString v =>
                  Card.VString
                    (FITSHeader.resolve v
                       (drop (S (snd p)) (FITSHeader.cards Examples.header_TTYPE1)))
              | other => other
              end)
         match Js.toUpperCase (Js.trim " ttype1 ") with
         | Some k => FITSHeader.matching k (FITSHeader.cards Examples.header_TTYPE1)
         | None => []
         end.
Proof.
  split; [reflexivity|].
  apply (getValues_returns_the_values Examples.header_TTYPE1 " ttype1 "
           freshRegexState (mkRegexState 0 0 0 0 0 6 0)).
  vm_compute. reflexivity.
Defined.

(** A keyword no card has: when the argument, trimmed and in upper case,
    is not CONTINUE, not empty and the keyword of no card, [getValues]
    returns the empty list and [getValue] returns [undefined], and no regex
    is touched. *)
Theorem getValues_of_a_missing_keyword (h : FITSHeader.FITSHeader)
  (keyword : string) (st : RegexState) :
  Js.toUpperCase (Js.trim keyword) <> Some "CONTINUE" ->
  Js.toUpperCase (Js.trim keyword) <> Some EmptyString ->
  Forall (fun c => Js.toUpperCase (Js.trim keyword) <> Some (Card.keyword c))
    (FITSHeader.cards h) ->
  FITSHeader.getValues h keyword st = (Ok [], st)
  /\ FITSHeader.getValue h keyword st = (Ok None, st).
Proof.
  intros NC NE Missing.
  assert (G : FITSHeader.getValues h keyword st = (Ok [], st)).
  { unfold FITSHeader.getValues.
    destruct (Js.toUpperCase (Js.trim keyword)) as [k|]; [|reflexivity].
    assert (NC' : k <> "CONTINUE") by congruence.
    assert (NE' : k <> EmptyString) by congruence.
    apply String.eqb_neq in NC', NE'. rewrite NC', NE'. cbn [orb].
    unfold FITSHeader.matching, FITSHeader.indexed.
    rewrite matching_none; [reflexivity|].
    eapply Forall_impl; [exact Missing|]. cbn. intros c N E. apply N.
    now rewrite E. }
  split; [exact G|]. unfold FITSHeader.getValue, bind. rewrite G. reflexivity.
Qed.

Lemma getValues_of_a_missing_keyword_witness :
  FITSHeader.getValues Examples.header_TTYPE1 "bitpix" freshRegexState
  = (Ok [], freshRegexState)
  /\ FITSHeader.getValue Examples.header_TTYPE1 "bitpix" freshRegexState
     = (Ok None, freshRegexState).
Proof.
  apply (getValues_of_a_missing_keyword Examples.header_TTYPE1 "bitpix"
           freshRegexState).
  - vm_compute. discriminate.
  - vm_compute. discriminate.
  - repeat constructor; vm_compute; discriminate.
Defined.

(** [setValue] never replaces and never removes a card.  A call that
    throws leaves the cards of the receiver as they are; with an index
    above the number of cards with the keyword every call throws, before it
    touches anything; a call that returns had an index at most that number,
    and either no value was given, the result is -1 and nothing has
    changed, or the card [Card.fromValue] makes was appended and the result
    is its position. *)
Theorem setValue_only_appends (keyword : string)
  (value : option Card.FITSCardValue) (index : Z) (w w' : FITSHeader.World)
  (r : result Z) :
  FITSHeader.setValue keyword value index w = (r, w') ->
  let count :=
    Z.of_nat (length (FITSHeader.matching keyword
                        (FITSHeader.cards (FITSHeader.this w)))) in
  (count < index ->
   w' = w /\ (r = Throw KeywordNotMutable \/ r = Throw UndefinedProperty))
  /\ match r with
     | Throw e =>
         FITSHeader.cards (FITSHeader.this w')
         = FITSHeader.cards (FITSHeader.this w)
     | Ok n =>
         index <= count
         /\ match value with
            | None => n = -1 /\ w' = w
            | Some v =>
                exists card,
                  Card.fromValue keyword v None (FITSHeader.regexes w)
                  = (Ok card, FITSHeader.regexes w')
                  /\ FITSHeader.cards (FITSHeader.this w')
                     = FITSHeader.cards (FITSHeader.this w) ++ [card]
                  /\ n = Z.of_nat (length (FITSHeader.cards (FITSHeader.this w)))
            end
     end.
Proof.
  intros H count. unfold FITSHeader.setValue in H.
  destruct (_ || _).
  { injection H as <- <-. split; [auto|reflexivity]. }
  unfold bind, FITSHeader.getCards, FITSHeader.setCards, FITSHeader.liftR,
    ret, throw in H.
  fold count in H.
  destruct (Z.leb_spec index count) as [In_range|Past].
  - split; [lia|].
    destruct value as [v|]; cbn beta iota in H.
    + destruct (Card.fromValue keyword v None (FITSHeader.regexes w))
        as [[card|e] st] eqn:F; cbn in H; injection H as <- <-.
      * split; [exact In_range|]. cbn. exists card. split; [reflexivity|].
        split; [reflexivity|]. rewrite length_app. simpl. lia.
      * reflexivity.
    + injection H as <- <-. split; [exact In_range|].
      split; [reflexivity|]. now destruct w.
  - rewrite at_index_past_end in H by exact Past.
    injection H as <- <-. split; [auto|reflexivity].
Qed.

Lemma setValue_only_appends_witness :
  (Z.of_nat (length (FITSHeader.matching "OBJECT"
                       (FITSHeader.cards (FITSHeader.this Examples.world_SIMPLE))))
   < 0 ->
   FITSHeader.mkWorld (mkRegexState 6 0 3 0 0 0 0)
     (FITSHeader.mkHeader [Examples.card_SIMPLE; Examples.card_OBJECT])
   = Examples.world_SIMPLE
   /\ (Ok 1 = Throw KeywordNotMutable \/ Ok 1 = Throw UndefinedProperty))
  /\ 0 <= Z.of_nat (length (FITSHeader.matching "OBJECT"
                              (FITSHeader.cards (FITSHeader.this Examples.world_SIMPLE))))
  /\ exists card,
       Card.fromValue "OBJECT" (Card.VString "M31") None freshRegexState
       = (Ok card, mkRegexState 6 0 3 0 0 0 0)
       /\ [Examples.card_SIMPLE; Examples.card_OBJECT] = [Examples.card_SIMPLE] ++ [card]
       /\ 1 = 1.
Proof.
  apply (setValue_only_appends "OBJECT" (Some (Card.VString "M31")) 0
           Examples.world_SIMPLE
           (FITSHeader.mkWorld (mkRegexState 6 0 3 0 0 0 0)
              (FITSHeader.mkHeader [Examples.card_SIMPLE; Examples.card_OBJECT]))
           (Ok 1)).
  vm_compute. reflexivity.
Defined.

Lemma toJSON_from (k : string) (l : list Card.Card) :
  forall entries : gmap string (list Card.FITSCardValue),
    fold_left FITSHeader.record l entries !! k
    = match entries !! k,
            map Card.value (List.filter (fun c => String.eqb (Card.keyword c) k) l) with
      | None, [] => None
      | None, vs => Some vs
      | Some old, vs => Some (old ++ vs)
      end.
Proof.
  induction l as [|card l IH]; intros entries; cbn [fold_left List.filter map].
  - destruct (entries !! k); [now rewrite app_nil_r|reflexivity].
  - rewrite IH. unfold FITSHeader.record.
    destruct (String.eqb_spec (Card.keyword card) k) as [->|N].
    + destruct (entries !! k) as [old|] eqn:M; rewrite lookup_insert_eq; cbn [List.map].
      * now rewrite <- app_assoc.
      * reflexivity.
    + destruct (entries !! Card.keyword card);
        rewrite lookup_insert_ne by exact N; reflexivity.
Qed.

(** The object [toJSON] returns has a property for a keyword exactly when
    a card has the keyword, and the property holds the values of these
    cards as the cards hold them, in their order. *)
Theorem toJSON_groups_by_keyword (h : FITSHeader.FITSHeader) (k : string) :
  FITSHeader.toJSON h !! k
  = match List.filter (fun c => String.eqb (Card.keyword c) k) (FITSHeader.cards h) with
    | [] => None
    | matching => Some (map Card.value matching)
    end.
Proof.
  unfold FITSHeader.toJSON. rewrite toJSON_from, lookup_empty.
  now destruct (List.filter _ _).
Qed.

(** ** Serializing at rest *)

Lemma utf8_char_ascii (c : ascii) :
  Js.between 0 127 c = true -> FITSHeader.utf8_char c = [byte_of_ascii c].
Proof.
  destruct c as [[] [] [] [] [] [] [] []]; intros H;
    try discriminate H; reflexivity.
Qed.

Lemma encode_ascii (s : string) :
  forallb (Js.between 0 127) (Js.chars s) = true ->
  FITSHeader.encode s = map byte_of_ascii (Js.chars s).
Proof.
  unfold FITSHeader.encode.
  induction (Js.chars s) as [|c l IH]; [reflexivity|]. cbn [forallb map concat].
  intros H. apply andb_true_iff in H as [C H].
  now rewrite (utf8_char_ascii c C), IH.
Qed.

Lemma ascii_records (l : list Card.Card) :
  Forall (fun c => String.length (Card.image c) = 80%nat
                   /\ forallb (Js.between 0 127) (Js.chars (Card.image c)) = true) l ->
  Forall (fun c => length (FITSHeader.encode (Card.image c)) = 80%nat) l
  /\ map (fun c => FITSHeader.encode (Card.image c)) l
     = map (fun c => map byte_of_ascii (Js.chars (Card.image c))) l.
Proof.
  induction 1 as [|c l [L A] _ [IH1 IH2]]; [split; [constructor|reflexivity]|].
  split.
  - constructor; [|exact IH1].
    now rewrite (encode_ascii _ A), length_map, length_chars.
  - cbn [map]. now rewrite (encode_ascii _ A), IH2.
Qed.

(** While [keywordRegex.lastIndex] is 0, a header whose cards hold records
    of 80 ASCII characters is serialized to these records, one byte for a
    character, followed by the END record: 80 bytes for each card and 80
    more.  The call leaves 3 in [keywordRegex.lastIndex]. *)
Theorem header_toBuffer_at_rest (h : FITSHeader.FITSHeader) (st : RegexState) :
  keywordRegex_lastIndex st = O ->
  Forall (fun c => String.length (Card.image c) = 80%nat
                   /\ forallb (Js.between 0 127) (Js.chars (Card.image c)) = true)
    (FITSHeader.cards h) ->
  exists buffer st',
    FITSHeader.toBuffer h st = (Ok buffer, st')
    /\ buffer
       = concat (map (fun c => map byte_of_ascii (Js.chars (Card.image c)))
                   (FITSHeader.cards h))
         ++ map byte_of_ascii (Js.chars (Js.padEnd "END" 80))
    /\ length buffer = (80 * (length (FITSHeader.cards h) + 1))%nat
    /\ keywordRegex_lastIndex st' = 3%nat.
Proof.
  intros Z Ascii. destruct (ascii_records _ Ascii) as [Images Bytes].
  destruct (header_toBuffer_first h st Z Images) as [st' H].
  eexists. exists st'. split; [exact H|]. split; [|split].
  - rewrite map_app, concat_app, Bytes. cbn [map concat]. rewrite app_nil_r.
    f_equal.
  - rewrite map_app, concat_app, length_app. cbn [map concat]. rewrite app_nil_r.
    assert (L : forall l,
              Forall (fun c => length (FITSHeader.encode (Card.image c)) = 80%nat) l ->
              length (concat (map (fun c => FITSHeader.encode (Card.image c)) l))
              = (80 * length l)%nat).
    { induction 1 as [|c l C _ IH]; [reflexivity|].
      cbn [map concat length]. rewrite length_app, C, IH. lia. }
    rewrite (L _ Images).
    change (length (FITSHeader.encode (Card.image Examples.card_END))) with 80%nat.
    lia.
  - exact (header_toBuffer_leaves_lastIndex _ _ _ _ H).
Qed.

(** While [keywordRegex.lastIndex] is 0, [FITS.toBuffer] on a file whose
    header holds records of 80 ASCII characters returns the serialized
    header, blanks up to the next multiple of 2880, the data bytes and zero
    bytes up to the next multiple of 2880: a whole number of blocks. *)
Theorem toBuffer_at_rest (f : FITS.FITS) (st : RegexState) :
  keywordRegex_lastIndex st = O ->
  Forall (fun c => String.length (Card.image c) = 80%nat
                   /\ forallb (Js.between 0 127) (Js.chars (Card.image c)) = true)
    (FITSHeader.cards (FITS.header f)) ->
  exists buffer headerBuffer st',
    FITS.toBuffer f st = (Ok buffer, st')
    /\ FITSHeader.toBuffer (FITS.header f) st = (Ok headerBuffer, st')
    /\ buffer
       = headerBuffer
         ++ repeat Byte.x20
              (FITS.blockAligned (length headerBuffer) - length headerBuffer)
         ++ FITSData.dataBuffer (FITS.data f)
         ++ repeat Byte.x00
              (FITS.blockAligned (length (FITSData.dataBuffer (FITS.data f)))
               - length (FITSData.dataBuffer (FITS.data f)))
    /\ (length buffer mod 2880 = 0)%nat.
Proof.
  intros Z Ascii. destruct (ascii_records _ Ascii) as [Images _].
  destruct (toBuffer_first f st Z Images) as (buffer & st' & T & _).
  destruct (toBuffer_layout f st st' buffer T) as (hb & H & B & M).
  exists buffer, hb, st'. repeat split; assumption.
Qed.

Lemma square_1234_wellShaped : FITSData.wellShaped Examples.square_1234.
Proof. unfold FITSData.wellShaped. cbn. repeat split. repeat constructor. Qed.

Lemma square_1234_exactFor (coords : list Z) :
  FITSData.linear [2; 2] (map Z.abs coords) < 2 ^ 52 ->
  FITSData.exactFor Examples.square_1234 coords.
Proof.
  intros H. split; [reflexivity|].
  change (FITSData.NAXISn Examples.square_1234) with [2; 2].
  change (FITSData.wordBytes (FITSData.BITPIX Examples.square_1234)) with 2.
  lia.
Qed.

Lemma getPoint_reads_word_number_witness :
  FITSData.getPoint Examples.square_1234 (map Double.ofZ [1; 0])
  = Ok (FITSData.Int 2)
  /\ FITSData.getPoint Examples.square_1234 (map Double.ofZ [2; 1])
     = Throw OutOfBounds.
Proof.
  split.
  - destruct (getPoint_reads_word_number Examples.square_1234 [1; 0])
      as [_ In_range].
    + exact square_1234_wellShaped.
    + cbn. lia.
    + reflexivity.
    + apply square_1234_exactFor. reflexivity.
    + destruct In_range as [G _]; [vm_compute; split; [discriminate|reflexivity]|].
      rewrite G. reflexivity.
  - destruct (getPoint_reads_word_number Examples.square_1234 [2; 1])
      as [Out _].
    + exact square_1234_wellShaped.
    + cbn. lia.
    + reflexivity.
    + apply square_1234_exactFor. reflexivity.
    + apply Out. right. vm_compute. discriminate.
Defined.

Lemma getData_enumerates_witness :
  exists yielded,
    FITSData.getData Examples.square_1234 = (yielded, FITSData.Done)
    /\ Z.of_nat (length yielded) = 4
    /\ forall k : nat,
         (k < length yielded)%nat ->
         exists w,
           FITSData.readPoint Examples.square_1234
             (FITSData.Num (Z.of_nat k * 2)) = Ok w
           /\ yielded !! k
              = Some (map FITSData.Num
                        (FITSData.coordinatesOf [2; 2] (Z.of_nat k)), w).
Proof.
  apply (getData_enumerates Examples.square_1234).
  - exact square_1234_wellShaped.
  - cbn. lia.
  - discriminate.
Defined.

Lemma getData_is_getPoint_shifted_witness :
  Forall (fun y : list FITSData.num * FITSData.word =>
            exists coords : list Z,
              fst y = map FITSData.Num coords
              /\ FITSData.getPoint Examples.square_1234
                   (map (fun c => Double.ofZ (c - 1)) coords) = Ok (snd y))
    (fst (FITSData.getData Examples.square_1234)).
Proof.
  apply (getData_is_getPoint_shifted Examples.square_1234).
  - exact square_1234_wellShaped.
  - cbn. lia.
  - discriminate.
  - reflexivity.
Defined.


Lemma header_toBuffer_at_rest_witness :
  exists buffer st',
    FITSHeader.toBuffer (FITSHeader.mkHeader [Examples.card_SIMPLE]) freshRegexState
    = (Ok buffer, st')
    /\ buffer
       = concat (map (fun c => map byte_of_ascii (Js.chars (Card.image c)))
                   [Examples.card_SIMPLE])
         ++ map byte_of_ascii (Js.chars (Js.padEnd "END" 80))
    /\ length buffer = (80 * (1 + 1))%nat
    /\ keywordRegex_lastIndex st' = 3%nat.
Proof.
  apply (header_toBuffer_at_rest (FITSHeader.mkHeader [Examples.card_SIMPLE])
           freshRegexState).
  - reflexivity.
  - repeat constructor.
Defined.

Lemma toBuffer_at_rest_witness :
  exists buffer headerBuffer st',
    FITS.toBuffer Examples.file_row freshRegexState = (Ok buffer, st')
    /\ FITSHeader.toBuffer (FITS.header Examples.file_row) freshRegexState
       = (Ok headerBuffer, st')
    /\ buffer
       = headerBuffer
         ++ repeat Byte.x20
              (FITS.blockAligned (length headerBuffer) - length headerBuffer)
         ++ FITSData.dataBuffer (FITS.data Examples.file_row)
         ++ repeat Byte.x00
              (FITS.blockAligned (length (FITSData.dataBuffer (FITS.data Examples.file_row)))
               - length (FITSData.dataBuffer (FITS.data Examples.file_row)))
    /\ (length buffer mod 2880 = 0)%nat.
Proof.
  apply (toBuffer_at_rest Examples.file_row freshRegexState).
  - reflexivity.
  - repeat constructor.
Defined.

(** ** Parsing a file *)

(** What the loop over the records returns: the cards of the records
    before the first END record, and the offset of that record. *)
Lemma read_records_returns (parseFloat : string -> Card.number)
  (decode : DataView.buffer -> string) (file : DataView.buffer) :
  forall (fuel offset : nat) (cards read : list Card.Card) (bytesRead : nat),
    FITSHeader.read_records parseFloat decode fuel file offset cards
    = Ok (read, bytesRead) ->
    exists more endCard,
      read = cards ++ more
      /\ bytesRead = (offset + 80 * length more)%nat
      /\ (bytesRead + 80 <= length file)%nat
      /\ (forall (j : nat) (card : Card.Card),
            more !! j = Some card ->
            Card.fromString parseFloat
              (decode (take 80 (drop (offset + 80 * j) file))) true = Ok card
            /\ Card.keyword card <> "END")
      /\ Card.fromString parseFloat (decode (take 80 (drop bytesRead file))) true
         = Ok endCard
      /\ Card.keyword endCard = "END".
Proof.
  induction fuel as [|fuel IH]; intros offset cards read bytesRead; [discriminate|].
  cbn [FITSHeader.read_records].
  destruct (Nat.ltb_spec (length (take 80 (drop offset file))) 80) as [|Whole];
    [discriminate|].
  destruct (Card.fromString _ _ _) as [card|e] eqn:P; cbn [rbind]; [|discriminate].
  destruct (String.eqb_spec (Card.keyword card) "END") as [End|Go].
  - intros [= <- <-]. exists [], card. rewrite app_nil_r.
    rewrite length_take, length_drop in Whole.
    split; [reflexivity|]. split; [simpl; lia|]. split; [lia|].
    split; [intros j c J; discriminate J|]. split; [exact P|exact End].
  - intros H. apply IH in H as (more & endCard & -> & -> & Fits & Each & E & K).
    exists (card :: more), endCard. rewrite <- app_assoc.
    split; [reflexivity|]. split; [simpl; lia|]. split; [lia|].
    split; [|split; [exact E|exact K]].
    intros [|j] c J.
    + injection J as <-. now rewrite Nat.mul_0_r, Nat.add_0_r.
    + destruct (Each j c J) as [Pj Kj].
      now replace (offset + 80 * S j)%nat with (offset + 80 + 80 * j)%nat by lia.
Qed.

Lemma read_records_short (parseFloat : string -> Card.number)
  (decode : DataView.buffer -> string) (file : DataView.buffer) (fuel : nat)
  (cards : list Card.Card) :
  (length file < 80)%nat ->
  FITSHeader.read_records parseFloat decode fuel file 0 cards
  = Throw UnexpectedEndOfFile.
Proof.
  intros Short. destruct fuel; [reflexivity|]. cbn [FITSHeader.read_records].
  destruct (Nat.ltb_spec (length (take 80 (drop 0 file))) 80) as [|Whole];
    [reflexivity|].
  rewrite length_take, length_drop in Whole. lia.
Qed.

(** The checks of [fromBuffer], one after the other. *)
Lemma fromBuffer_checked (parseFloat : string -> Card.number)
  (decode : DataView.buffer -> string) (file : DataView.buffer)
  (st st' : RegexState) (header : FITSHeader.FITSHeader) (bytesRead : nat) :
  FITSHeader.fromBuffer parseFloat decode file st = (Ok (header, bytesRead), st') ->
  exists cards simple bitpix naxis count st1 st2 st3,
    FITSHeader.read_records parseFloat decode (S (length file / 80)) file 0 []
    = Ok (cards, bytesRead)
    /\ header = FITSHeader.mkHeader (FITSHeader.trimBlanks cards)
    /\ FITSHeader.getValues header "SIMPLE" st = (Ok [simple], st1)
    /\ FITSHeader.is_true simple = true
    /\ FITSHeader.getValues header "BITPIX" st1 = (Ok [bitpix], st2)
    /\ FITSHeader.is_BITPIX bitpix = true
    /\ FITSHeader.getValues header "NAXIS" st2 = (Ok [naxis], st3)
    /\ FITSHeader.as_NAXIS naxis = Some count
    /\ FITSHeader.check_NAXISn header 1 count st3 = (Ok tt, st').
Proof.
  unfold FITSHeader.fromBuffer, bind, lift, ret.
  destruct (FITSHeader.read_records _ _ _ _ _ _) as [[cards offset]|e];
    [|discriminate].
  set (h := FITSHeader.mkHeader (FITSHeader.trimBlanks cards)).
  destruct (FITSHeader.getValues h "SIMPLE" st) as [[simple|e] st1] eqn:S;
    [|discriminate].
  destruct simple as [|simple [|]]; try discriminate.
  destruct (FITSHeader.is_true simple) eqn:St; [|discriminate].
  destruct (FITSHeader.getValues h "BITPIX" st1) as [[bitpix|e] st2] eqn:B;
    [|discriminate].
  destruct bitpix as [|bitpix [|]]; try discriminate.
  destruct (FITSHeader.is_BITPIX bitpix) eqn:Bt; [|discriminate].
  destruct (FITSHeader.getValues h "NAXIS" st2) as [[naxis|e] st3] eqn:N;
    [|discriminate].
  destruct naxis as [|naxis [|]]; try discriminate.
  destruct (FITSHeader.as_NAXIS naxis) as [count|] eqn:Nt; [|discriminate].
  destruct (FITSHeader.check_NAXISn h 1 count st3) as [[[]|e] st4] eqn:A;
    [|discriminate].
  intros [= <- <- <-].
  exists cards, simple, bitpix, naxis, count, st1, st2, st3.
  repeat split; assumption.
Qed.

(** A character that [trim] and [toUpperCase] leave alone. *)
Lemma digit_is_plain (c : ascii) :
  Js.between 48 57 c = true -> Js.whitespace c = false /\ Js.upper c = Some [c].
Proof.
  destruct c as [[] [] [] [] [] [] [] []]; intros H;
    try discriminate H; split; reflexivity.
Qed.

Lemma dropWhile_none {A} (p : A -> bool) (l : list A) :
  forallb (fun x => negb (p x)) l = true -> Js.dropWhile p l = l.
Proof.
  destruct l as [|x l]; [reflexivity|]. cbn. intros H.
  apply andb_true_iff in H as [H _]. apply negb_true_iff in H. now rewrite H.
Qed.

Lemma normal_keyword (s : string) :
  forallb (fun c => negb (Js.whitespace c)) (Js.chars s) = true ->
  Js.upper_all (Js.chars s) = Some (Js.chars s) ->
  Js.toUpperCase (Js.trim s) = Some s.
Proof.
  intros W U.
  assert (E : Js.trimEnd s = s).
  { unfold Js.trimEnd. rewrite dropWhile_none.
    - now rewrite rev_involutive, str_chars.
    - rewrite forallb_forall in W |- *. intros x X. apply W.
      rewrite in_rev. exact X. }
  unfold Js.trim. rewrite E. unfold Js.trimStart.
  rewrite (dropWhile_none _ _ W), str_chars.
  unfold Js.toUpperCase. rewrite U. cbn [option_map]. now rewrite str_chars.
Qed.

Lemma upper_all_app (a b : list ascii) :
  Js.upper_all (a ++ b)
  = match Js.upper_all a, Js.upper_all b with
    | Some x, Some y => Some (x ++ y)
    | _, _ => None
    end.
Proof.
  induction a as [|c a IH]; cbn [app Js.upper_all].
  - now destruct (Js.upper_all b).
  - rewrite IH. destruct (Js.upper c), (Js.upper_all a), (Js.upper_all b);
      try reflexivity. now rewrite app_assoc.
Qed.

Lemma decimal_digits (d : Decimal.uint) :
  forallb (Js.between 48 57) (Js.chars (DecimalString.NilEmpty.string_of_uint d))
  = true.
Proof. induction d; cbn; auto. Qed.

Lemma NAXISn_is_normal (i : nat) :
  Js.toUpperCase (Js.trim ("NAXIS" +:+ FITSHeader.decimal i))
  = Some ("NAXIS" +:+ FITSHeader.decimal i).
Proof.
  assert (D : forallb (Js.between 48 57) (Js.chars (FITSHeader.decimal i)) = true).
  { unfold FITSHeader.decimal, DecimalString.NilZero.string_of_uint.
    destruct (Nat.to_uint i); try apply decimal_digits. reflexivity. }
  apply normal_keyword; rewrite chars_append.
  - rewrite forallb_app. apply andb_true_iff. split; [reflexivity|].
    rewrite forallb_forall in D |- *. intros c C.
    now destruct (digit_is_plain c (D c C)) as [-> _].
  - assert (U : Js.upper_all (Js.chars (FITSHeader.decimal i))
                = Some (Js.chars (FITSHeader.decimal i))).
    { induction (Js.chars (FITSHeader.decimal i)) as [|c l IH]; [reflexivity|].
      cbn in D |- *. apply andb_true_iff in D as [C D].
      destruct (digit_is_plain c C) as [_ ->]. now rewrite (IH D). }
    rewrite upper_all_app, U. reflexivity.
Qed.

Lemma matching_cards (k : string) (l : list Card.Card) (i : nat) :
  map fst (List.filter (fun p => String.eqb (Card.keyword (fst p)) k)
             (FITSHeader.indexed_from i l))
  = List.filter (fun c => String.eqb (Card.keyword c) k) l.
Proof.
  revert i. induction l as [|c l IH]; intros i; [reflexivity|]. cbn.
  destruct (String.eqb _ _); cbn; now rewrite IH.
Qed.

(** A call of [getValues] that returns one value: one card has the
    keyword, and unless this card holds a string the value is the one it
    holds. *)
Lemma getValues_single (h : FITSHeader.FITSHeader) (keyword : string)
  (st st' : RegexState) (v : Card.FITSCardValue) :
  FITSHeader.getValues h keyword st = (Ok [v], st') ->
  exists k card,
    Js.toUpperCase (Js.trim keyword) = Some k
    /\ List.filter (fun c => String.eqb (Card.keyword c) k)
         (FITSHeader.cards h) = [card]
    /\ (Card.is_string v = false -> Card.value card = v).
Proof.
  unfold FITSHeader.getValues.
  destruct (Js.toUpperCase (Js.trim keyword)) as [k|]; [|discriminate].
  destruct (_ || _); [discriminate|].
  intros H. apply collect_values in H. cbn [app] in H.
  unfold FITSHeader.matching, FITSHeader.indexed in H.
  exists k. rewrite <- (matching_cards _ _ 0).
  destruct (List.filter _ (FITSHeader.indexed_from _ _)) as [|[card i] [|]];
    try discriminate H.
  injection H as ->. exists card. split; [reflexivity|]. split; [reflexivity|].
  cbn [fst snd]. destruct (Card.value card); try reflexivity. discriminate.
Qed.

Lemma check_NAXISn_checked (header : FITSHeader.FITSHeader) :
  forall (count i : nat) (st st' : RegexState),
    FITSHeader.check_NAXISn header i count st = (Ok tt, st') ->
    forall j : nat,
      (i <= j < i + count)%nat ->
      exists card,
        List.filter (fun c => String.eqb (Card.keyword c)
                                ("NAXIS" +:+ FITSHeader.decimal j))
          (FITSHeader.cards header) = [card]
        /\ FITSHeader.is_axis_length (Card.value card) = true.
Proof.
  induction count as [|count IH]; intros i st st' H j J; [lia|].
  cbn [FITSHeader.check_NAXISn] in H. unfold bind, lift in H.
  destruct (FITSHeader.getValues header _ st) as [[values|e] st1] eqn:G;
    [|discriminate H].
  destruct values as [|v [|]]; try discriminate H.
  destruct (FITSHeader.is_axis_length v) eqn:A; [|discriminate H].
  destruct (Nat.eq_dec j i) as [->|Later].
  - apply getValues_single in G as (k & card & K & F & V).
    rewrite NAXISn_is_normal in K. injection K as <-.
    exists card. split; [exact F|].
    rewrite V; [exact A|]. now destruct v.
  - apply (IH (S i) st1 st' H). lia.
Qed.

(** Every header [fromBuffer] returns has the mandatory keywords, each
    on one card only: SIMPLE with the value true, BITPIX with one of the
    six numbers, NAXIS with an integer from 0 to 999, and for every axis up
    to NAXIS its NAXISn with a positive integer. *)
Theorem fromBuffer_mandatory_keywords (parseFloat : string -> Card.number)
  (decode : DataView.buffer -> string) (file : DataView.buffer)
  (st st' : RegexState) (header : FITSHeader.FITSHeader) (bytesRead : nat) :
  FITSHeader.fromBuffer parseFloat decode file st = (Ok (header, bytesRead), st') ->
  (exists card,
     List.filter (fun c => String.eqb (Card.keyword c) "SIMPLE")
       (FITSHeader.cards header) = [card]
     /\ Card.value card = Card.VBool true)
  /\ (exists card,
        List.filter (fun c => String.eqb (Card.keyword c) "BITPIX")
          (FITSHeader.cards header) = [card]
        /\ FITSHeader.is_BITPIX (Card.value card) = true)
  /\ (exists card count,
        List.filter (fun c => String.eqb (Card.keyword c) "NAXIS")
          (FITSHeader.cards header) = [card]
        /\ FITSHeader.as_NAXIS (Card.value card) = Some count
        /\ (count <= 999)%nat
        /\ forall j : nat,
             (1 <= j <= count)%nat ->
             exists axis,
               List.filter (fun c => String.eqb (Card.keyword c)
                                       ("NAXIS" +:+ FITSHeader.decimal j))
                 (FITSHeader.cards header) = [axis]
               /\ FITSHeader.is_axis_length (Card.value axis) = true).
Proof.
  intros H.
  apply fromBuffer_checked in H
    as (cards & simple & bitpix & naxis & count & st1 & st2 & st3
        & _ & _ & S & St & B & Bt & N & Nt & A).
  split; [|split].
  - apply getValues_single in S as (k & card & K & F & V).
    injection K as <-. exists card.
    split; [exact F|]. rewrite V by now destruct simple.
    now destruct simple as [| | |[|]|].
  - apply getValues_single in B as (k & card & K & F & V).
    injection K as <-. exists card.
    split; [exact F|]. rewrite V by now destruct bitpix. exact Bt.
  - apply getValues_single in N as (k & card & K & F & V).
    injection K as <-. exists card, count.
    split; [exact F|]. rewrite V by now destruct naxis.
    split; [exact Nt|]. split.
    + unfold FITSHeader.as_NAXIS in Nt. destruct naxis; try discriminate Nt.
      destruct (FITSHeader.toZ n) as [z|]; [|discriminate Nt].
      destruct (Z.leb_spec 0 z); cbn [andb] in Nt; [|discriminate Nt].
      destruct (Z.leb_spec z 999); [|discriminate Nt].
      injection Nt as <-. lia.
    + intros j J. apply (check_NAXISn_checked header count 1 st3 st' A). lia.
Qed.

(** [fromBuffer] reads whole records of 80 bytes up to the first END
    record, which has to be there: [bytesRead] is the offset of that
    record, 80 bytes for each card before it, and the header holds these
    cards without the blank ones at their end. *)
Theorem fromBuffer_reads_up_to_END (parseFloat : string -> Card.number)
  (decode : DataView.buffer -> string) (file : DataView.buffer)
  (st st' : RegexState) (header : FITSHeader.FITSHeader) (bytesRead : nat) :
  FITSHeader.fromBuffer parseFloat decode file st = (Ok (header, bytesRead), st') ->
  exists cards endCard,
    bytesRead = (80 * length cards)%nat
    /\ (bytesRead + 80 <= length file)%nat
    /\ (forall (j : nat) (card : Card.Card),
          cards !! j = Some card ->
          Card.fromString parseFloat (decode (take 80 (drop (80 * j) file))) true
          = Ok card
          /\ Card.keyword card <> "END")
    /\ Card.fromString parseFloat (decode (take 80 (drop bytesRead file))) true
       = Ok endCard
    /\ Card.keyword endCard = "END"
    /\ FITSHeader.cards header = FITSHeader.trimBlanks cards.
Proof.
  intros H.
  apply fromBuffer_checked in H
    as (cards & simple & bitpix & naxis & count & st1 & st2 & st3
        & R & -> & _).
  apply read_records_returns in R as (more & endCard & -> & -> & Fits & Each & E & K).
  exists more, endCard. cbn [app Nat.add] in *.
  split; [reflexivity|]. split; [exact Fits|]. split; [exact Each|].
  split; [exact E|]. split; [exact K|reflexivity].
Qed.

Lemma fromBuffer_reads_up_to_END_witness :
  exists cards endCard,
    320%nat = (80 * length cards)%nat
    /\ (320 + 80 <= length Examples.buffer_row)%nat
    /\ (forall (j : nat) (card : Card.Card),
          cards !! j = Some card ->
          Card.fromString Examples.parseFloat_whole
            (Examples.decode_ascii (take 80 (drop (80 * j) Examples.buffer_row))) true
          = Ok card
          /\ Card.keyword card <> "END")
    /\ Card.fromString Examples.parseFloat_whole
         (Examples.decode_ascii (take 80 (drop 320 Examples.buffer_row))) true
       = Ok endCard
    /\ Card.keyword endCard = "END"
    /\ map Card.keyword (FITSHeader.trimBlanks cards)
       = ["SIMPLE"; "BITPIX"; "NAXIS"; "NAXIS1"].
Proof.
  assert (E : exists header st',
             FITSHeader.fromBuffer Examples.parseFloat_whole Examples.decode_ascii
               Examples.buffer_row freshRegexState = (Ok (header, 320%nat), st')
             /\ map Card.keyword (FITSHeader.cards header)
                = ["SIMPLE"; "BITPIX"; "NAXIS"; "NAXIS1"]).
  { eexists. eexists. split; vm_compute; reflexivity. }
  destruct E as (header & st' & E & Keys).
  destruct (fromBuffer_reads_up_to_END _ _ _ _ _ _ _ E)
    as (cards & endCard & L & Fits & Each & P & K & C).
  exists cards, endCard. rewrite <- C.
  split; [exact L|]. split; [exact Fits|]. split; [exact Each|].
  split; [exact P|]. split; [exact K|exact Keys].
Defined.

Lemma fromString_throws (parseFloat : string -> Card.number) (image : string)
  (e : exn) :
  Card.fromString parseFloat image true = Throw e ->
  e = MalformedCard \/ e = ContinueNotString.
Proof.
  unfold Card.fromString. cbn [rbind].
  destruct (Card.includes _ _); [discriminate|].
  destruct (if String.eqb _ "HIERARCH" then _ else _) as [keyword valueComment].
  destruct (Regex.exec _ _); [|intros [= <-]; now left].
  destruct (_ && _); [intros [= <-]; now right|discriminate].
Qed.

Lemma read_records_throws (parseFloat : string -> Card.number)
  (decode : DataView.buffer -> string) (file : DataView.buffer) :
  forall (fuel offset : nat) (cards : list Card.Card) (e : exn),
    FITSHeader.read_records parseFloat decode fuel file offset cards = Throw e ->
    e = UnexpectedEndOfFile \/ e = MalformedCard \/ e = ContinueNotString.
Proof.
  induction fuel as [|fuel IH]; intros offset cards e.
  - intros [= <-]. now left.
  - cbn [FITSHeader.read_records].
    destruct (_ <? _)%nat; [intros [= <-]; now left|].
    destruct (Card.fromString _ _ _) as [card|e'] eqn:P; cbn [rbind].
    + destruct (String.eqb _ _); [discriminate|]. apply IH.
    + intros [= <-]. right. now apply fromString_throws in P.
Qed.

(** A file without END record is refused: when none of its whole records
    of 80 bytes parses to a card with the keyword END, [fromBuffer] throws,
    for the end of the file or for a record that does not parse, and leaves
    the regexes as they are. *)
Theorem fromBuffer_without_END (parseFloat : string -> Card.number)
  (decode : DataView.buffer -> string) (file : DataView.buffer)
  (st : RegexState) :
  (forall (j : nat) (card : Card.Card),
     (80 * j + 80 <= length file)%nat ->
     Card.fromString parseFloat (decode (take 80 (drop (80 * j) file))) true
     = Ok card ->
     Card.keyword card <> "END") ->
  exists e,
    FITSHeader.fromBuffer parseFloat decode file st = (Throw e, st)
    /\ (e = UnexpectedEndOfFile \/ e = MalformedCard \/ e = ContinueNotString).
Proof.
  intros NoEnd. unfold FITSHeader.fromBuffer, bind, lift.
  destruct (FITSHeader.read_records _ _ _ _ _ _) as [[cards offset]|e] eqn:R.
  - exfalso.
    apply read_records_returns in R as (more & endCard & _ & -> & Fits & _ & E & K).
    cbn [Nat.add] in *. exact (NoEnd (length more) endCard Fits E K).
  - exists e. split; [reflexivity|]. exact (read_records_throws _ _ _ _ _ _ _ R).
Qed.

Lemma fromBuffer_without_END_witness :
  exists e,
    FITSHeader.fromBuffer Examples.parseFloat_whole Examples.decode_ascii
      (take 320 Examples.buffer_row) freshRegexState = (Throw e, freshRegexState)
    /\ (e = UnexpectedEndOfFile \/ e = MalformedCard \/ e = ContinueNotString).
Proof.
  apply (fromBuffer_without_END Examples.parseFloat_whole Examples.decode_ascii
           (take 320 Examples.buffer_row) freshRegexState).
  intros j card J.
  assert (L : length (take 320 Examples.buffer_row) = 320%nat) by reflexivity.
  rewrite L in J.
  destruct j as [|[|[|[|j]]]]; [| | | |lia];
    vm_compute; intros [= <-]; discriminate.
Defined.

(** ** Parsing header and data *)

Lemma getValue_returns (h : FITSHeader.FITSHeader) (keyword : string)
  (st st' : RegexState) (v : option Card.FITSCardValue) :
  FITSHeader.getValue h keyword st = (Ok v, st') ->
  exists vs, FITSHeader.getValues h keyword st = (Ok vs, st') /\ v = head vs.
Proof.
  unfold FITSHeader.getValue, bind, ret.
  destruct (FITSHeader.getValues h keyword st) as [[vs|e] st1]; [|discriminate].
  intros [= <- <-]. eauto.
Qed.

(** Two calls of [getValues] that return, return the same values. *)
Lemma getValues_agree (h : FITSHeader.FITSHeader) (keyword : string)
  (st1 st1' st2 st2' : RegexState) (vs1 vs2 : list Card.FITSCardValue) :
  FITSHeader.getValues h keyword st1 = (Ok vs1, st1') ->
  FITSHeader.getValues h keyword st2 = (Ok vs2, st2') ->
  vs1 = vs2.
Proof.
  unfold FITSHeader.getValues.
  destruct (Js.toUpperCase (Js.trim keyword));
    [|now intros [= <- _] [= <- _]].
  destruct (_ || _); [discriminate|].
  intros H1 H2. apply collect_values in H1, H2. congruence.
Qed.

(** The value [getValue] returns for a keyword that one card has, a card
    that holds no string. *)
Lemma getValue_single (h : FITSHeader.FITSHeader) (keyword k : string)
  (st st' : RegexState) (v : option Card.FITSCardValue) (card : Card.Card) :
  FITSHeader.getValue h keyword st = (Ok v, st') ->
  Js.toUpperCase (Js.trim keyword) = Some k ->
  List.filter (fun c => String.eqb (Card.keyword c) k)
    (FITSHeader.cards h) = [card] ->
  Card.is_string (Card.value card) = false ->
  v = Some (Card.value card).
Proof.
  intros G K F NS. apply getValue_returns in G as (vs & G & ->).
  unfold FITSHeader.getValues in G. rewrite K in G.
  destruct (_ || _); [discriminate|].
  apply collect_values in G. cbn [app] in G. subst vs.
  unfold FITSHeader.matching, FITSHeader.indexed.
  rewrite <- (matching_cards _ _ 0) in F.
  destruct (List.filter _ (FITSHeader.indexed_from _ _)) as [|[c i] [|]];
    try discriminate F.
  injection F as ->. cbn [map head fst snd].
  destruct (Card.value card); try reflexivity. discriminate NS.
Qed.

Lemma axis_length_value (v : Card.FITSCardValue) :
  FITSHeader.is_axis_length v = true ->
  Card.is_string v = false /\ 0 < FITS.the_integer (Some v).
Proof.
  unfold FITSHeader.is_axis_length, FITS.the_integer.
  destruct v as [|n| | |]; try discriminate.
  destruct (FITSHeader.toZ n); [|discriminate].
  intros H. apply Z.ltb_lt in H. split; [reflexivity|exact H].
Qed.

Lemma axes_of_checked (h : FITSHeader.FITSHeader) :
  forall (count i : nat) (st st' : RegexState) (axes : list Z),
    FITS.axes_of h i count st = (Ok axes, st') ->
    (forall j : nat,
       (i + 1 <= j <= i + count)%nat ->
       exists axis,
         List.filter (fun c => String.eqb (Card.keyword c)
                                 ("NAXIS" +:+ FITSHeader.decimal j))
           (FITSHeader.cards h) = [axis]
         /\ FITSHeader.is_axis_length (Card.value axis) = true) ->
    length axes = count /\ Forall (fun n => 0 < n) axes.
Proof.
  induction count as [|count IH]; intros i st st' axes; cbn [FITS.axes_of].
  - intros [= <- _] _. split; [reflexivity|constructor].
  - unfold bind, ret.
    destruct (FITSHeader.getValue h _ st) as [[v|e] st1] eqn:G; [|discriminate].
    destruct (FITS.axes_of h (S i) count st1) as [[rest|e] st2] eqn:A;
      [|discriminate].
    intros [= <- _] Checked.
    destruct (Checked (S i) ltac:(lia)) as (axis & F & L).
    destruct (axis_length_value _ L) as [NS Pos].
    rewrite (getValue_single _ _ _ _ _ _ _ G (NAXISn_is_normal (S i)) F NS).
    destruct (IH (S i) st1 st2 rest A) as [Len All].
    { intros j J. apply Checked. lia. }
    split; [simpl; lia|]. constructor; assumption.
Qed.

Lemma as_FITSBITPIX_of (v : Card.FITSCardValue) :
  FITSHeader.is_BITPIX v = true ->
  Card.is_string v = false
  /\ exists n,
       v = Card.VNumber n
       /\ FITSHeader.toZ n
          = Some (FITSData.bitpix (FITS.as_FITSBITPIX (FITS.the_integer (Some v)))).
Proof.
  unfold FITSHeader.is_BITPIX, FITS.the_integer.
  destruct v as [|n| | |]; try discriminate.
  destruct (FITSHeader.toZ n) as [z|] eqn:T; [|discriminate].
  intros H. split; [reflexivity|]. exists n. split; [reflexivity|].
  rewrite T. f_equal. apply existsb_exists in H as (x & Mem & E).
  apply Z.eqb_eq in E. subst x.
  cbn [List.In] in Mem.
  destruct Mem as [<-|[<-|[<-|[<-|[<-|[<-|[]]]]]]]; reflexivity.
Qed.

Lemma as_NAXIS_of (v : Card.FITSCardValue) (count : nat) :
  FITSHeader.as_NAXIS v = Some count ->
  Card.is_string v = false
  /\ FITS.the_integer (Some v) = Z.of_nat count /\ (count <= 999)%nat.
Proof.
  unfold FITSHeader.as_NAXIS, FITS.the_integer.
  destruct v as [|n| | |]; try discriminate.
  destruct (FITSHeader.toZ n) as [z|]; [|discriminate].
  destruct (Z.leb_spec 0 z); cbn [andb]; [|discriminate].
  destruct (Z.leb_spec z 999); [|discriminate].
  intros [= <-]. split; [reflexivity|]. lia.
Qed.

(** Every file [FITS.fromBuffer] returns holds the header
    [FITSHeader.fromBuffer] parses and a data matrix read off this header:
    BITPIX is the number of the BITPIX card, NAXIS the number of axis
    lengths and the forced one if one is given, the lengths are positive,
    the buffer is the part of the file from the first block boundary at or
    after the END record's offset on and is as long as the lengths and the
    word size say, none if NAXIS is 0.  With an axis, the matrix keeps the
    invariant of the data. *)
Theorem fromBuffer_reads_the_data (parseFloat : string -> Card.number)
  (decode : DataView.buffer -> string) (file : DataView.buffer)
  (forceNaxis : option Z) (st st' : RegexState) (f : FITS.FITS) :
  FITS.fromBuffer parseFloat decode file forceNaxis st = (Ok f, st') ->
  let d := FITS.data f in
  exists (bytesRead : nat) (st1 : RegexState),
    FITSHeader.fromBuffer parseFloat decode file st
    = (Ok (FITS.header f, bytesRead), st1)
    /\ (exists card n,
          List.filter (fun c => String.eqb (Card.keyword c) "BITPIX")
            (FITSHeader.cards (FITS.header f)) = [card]
          /\ Card.value card = Card.VNumber n
          /\ FITSHeader.toZ n = Some (FITSData.bitpix (FITSData.BITPIX d)))
    /\ FITSData.NAXIS d = Z.of_nat (length (FITSData.NAXISn d))
    /\ FITSData.NAXIS d <= 999
    /\ (forall n, forceNaxis = Some n -> FITSData.NAXIS d = n)
    /\ Forall (fun n => 0 < n) (FITSData.NAXISn d)
    /\ FITSData.byteLength d
       = (if FITSData.NAXIS d =? 0 then 0
          else FITSData.points (FITSData.NAXISn d)
               * FITSData.wordBytes (FITSData.BITPIX d))
    /\ FITSData.dataBuffer d
       = take (Z.to_nat (FITSData.byteLength d))
           (drop (FITS.blockAligned bytesRead) file)
    /\ (1 <= FITSData.NAXIS d -> FITSData.wellShaped d).
Proof.
  unfold FITS.fromBuffer, bind.
  destruct (FITSHeader.fromBuffer parseFloat decode file st)
    as [[[header bytesRead]|e] st1] eqn:HB; [|discriminate].
  destruct (FITSHeader.getValue header "BITPIX" st1) as [[B|e] st2] eqn:GB;
    [|discriminate].
  destruct (FITSHeader.getValue header "NAXIS" st2) as [[N|e] st3] eqn:GN;
    [|discriminate].
  destruct (FITS.axes_of header 0 _ st3) as [[NAXISn|e] st4] eqn:GA;
    [|discriminate].
  destruct (match forceNaxis with Some _ => _ | None => _ end) eqn:Forced;
    [discriminate|].
  destruct (negb _) eqn:Len; [discriminate|].
  intros [= <- _]. cbn zeta. cbn [FITS.data FITS.header].
  apply negb_false_iff, Z.eqb_eq in Len.
  apply fromBuffer_checked in HB as Checked.
  destruct Checked as (cards & simple & bitpix & naxis & count & sa & sb & sc
                       & _ & _ & _ & _ & CB & Bt & CN & Nt & CA).
  (* the values this call reads are the ones the header's checks read *)
  apply getValue_returns in GB as (vb & GB & ->).
  rewrite (getValues_agree _ _ _ _ _ _ _ _ GB CB) in *. cbn [head] in *.
  apply getValue_returns in GN as (vn & GN & ->).
  rewrite (getValues_agree _ _ _ _ _ _ _ _ GN CN) in *. cbn [head] in *.
  destruct (as_NAXIS_of _ _ Nt) as (_ & NV & Small).
  rewrite NV in *. rewrite Nat2Z.id in GA.
  destruct (axes_of_checked header count 0 st3 st4 NAXISn GA) as [Count Pos].
  { intros j J. apply (check_NAXISn_checked header count 1 sc st1 CA). lia. }
  destruct (as_FITSBITPIX_of _ Bt) as (NS & n & -> & TZ).
  apply getValues_single in CB as (k & card & K & F & V).
  injection K as <-.
  unfold FITSData.byteLength.
  cbn [FITSData.BITPIX FITSData.NAXIS FITSData.NAXISn FITSData.dataBuffer].
  assert (Bytes : Z.of_nat (length (take
                     (Z.to_nat (if Z.of_nat count =? 0 then 0
                                else fold_left Z.mul NAXISn
                                       (FITSData.wordBytes
                                          (FITS.as_FITSBITPIX
                                             (FITS.the_integer
                                                (Some (Card.VNumber n)))))))
                     (drop (FITS.blockAligned bytesRead) file)))
                  = if Z.of_nat count =? 0 then 0
                    else FITSData.points NAXISn
                         * FITSData.wordBytes
                             (FITS.as_FITSBITPIX
                                (FITS.the_integer (Some (Card.VNumber n))))).
  { rewrite Len. destruct (_ =? 0); [reflexivity|]. rewrite points_from. lia. }
  exists bytesRead, st1. split; [reflexivity|]. split.
  { exists card, n. split; [exact F|]. split; [now apply V|exact TZ]. }
  split; [lia|]. split; [lia|]. split.
  { intros m ->. cbn beta iota in Forced.
    now apply negb_false_iff, Z.eqb_eq in Forced. }
  split; [exact Pos|]. split; [exact Bytes|]. split.
  { rewrite Len. reflexivity. }
  intros One. unfold FITSData.wellShaped, FITSData.byteLength.
  cbn [FITSData.BITPIX FITSData.NAXIS FITSData.NAXISn FITSData.dataBuffer].
  split; [lia|]. split; [exact Pos|]. rewrite Bytes.
  destruct (Z.eqb_spec (Z.of_nat count) 0); [lia|reflexivity].
Qed.

Lemma fromBuffer_mandatory_keywords_witness :
  exists header st',
    FITSHeader.fromBuffer Examples.parseFloat_whole Examples.decode_ascii
      Examples.buffer_row freshRegexState = (Ok (header, 320%nat), st')
    /\ (exists card,
          List.filter (fun c => String.eqb (Card.keyword c) "SIMPLE")
            (FITSHeader.cards header) = [card]
          /\ Card.value card = Card.VBool true)
    /\ (exists card,
          List.filter (fun c => String.eqb (Card.keyword c) "BITPIX")
            (FITSHeader.cards header) = [card]
          /\ FITSHeader.is_BITPIX (Card.value card) = true)
    /\ (exists card count,
          List.filter (fun c => String.eqb (Card.keyword c) "NAXIS")
            (FITSHeader.cards header) = [card]
          /\ FITSHeader.as_NAXIS (Card.value card) = Some count
          /\ (count <= 999)%nat
          /\ forall j : nat,
               (1 <= j <= count)%nat ->
               exists axis,
                 List.filter (fun c => String.eqb (Card.keyword c)
                                         ("NAXIS" +:+ FITSHeader.decimal j))
                   (FITSHeader.cards header) = [axis]
                 /\ FITSHeader.is_axis_length (Card.value axis) = true).
Proof.
  assert (E : exists header st',
             FITSHeader.fromBuffer Examples.parseFloat_whole Examples.decode_ascii
               Examples.buffer_row freshRegexState = (Ok (header, 320%nat), st')).
  { eexists. eexists. vm_compute. reflexivity. }
  destruct E as (header & st' & E). exists header, st'.
  split; [exact E|].
  exact (fromBuffer_mandatory_keywords _ _ _ _ _ _ _ E).
Defined.

Lemma fromBuffer_reads_the_data_witness :
  exists f st',
    FITS.fromBuffer Examples.parseFloat_whole Examples.decode_ascii
      Examples.buffer_row (Some 1) freshRegexState = (Ok f, st')
    /\ FITS.data f
       = FITSData.mkData FITSData.B8 1 [2] [Byte.x0a; Byte.x14]
    /\ exists (bytesRead : nat) (st1 : RegexState),
         FITSHeader.fromBuffer Examples.parseFloat_whole Examples.decode_ascii
           Examples.buffer_row freshRegexState
         = (Ok (FITS.header f, bytesRead), st1)
         /\ FITSData.NAXIS (FITS.data f)
            = Z.of_nat (length (FITSData.NAXISn (FITS.data f)))
         /\ FITSData.dataBuffer (FITS.data f)
            = take (Z.to_nat (FITSData.byteLength (FITS.data f)))
                (drop (FITS.blockAligned bytesRead) Examples.buffer_row)
         /\ FITSData.wellShaped (FITS.data f).
Proof.
  assert (E : exists f st',
             FITS.fromBuffer Examples.parseFloat_whole Examples.decode_ascii
               Examples.buffer_row (Some 1) freshRegexState = (Ok f, st')
             /\ FITS.data f
                = FITSData.mkData FITSData.B8 1 [2] [Byte.x0a; Byte.x14]).
  { eexists. eexists. split; vm_compute; reflexivity. }
  destruct E as (f & st' & E & D). exists f, st'.
  split; [exact E|]. split; [exact D|].
  destruct (fromBuffer_reads_the_data _ _ _ _ _ _ _ E)
    as (bytesRead & st1 & H & _ & N & _ & _ & _ & _ & B & W).
  exists bytesRead, st1.
  split; [exact H|]. split; [exact N|]. split; [exact B|].
  apply W. rewrite D. cbn. lia.
Defined.

(** ** Blank cards *)

(** A greedy repetition of a class takes a text of the class whole, when
    what follows accepts the end of the text. *)
Lemma rmatch_class_all (total : nat) (p : ascii -> bool) (k : Regex.cont)
  (c : Regex.captures) z :
  k [] c = Some z ->
  forall (mn : nat) (s : list ascii),
    (mn <= length s)%nat ->
    forallb p s = true ->
    Regex.rmatch total (Regex.Repeat true mn None (Regex.Class p)) k s c = Some z.
Proof.
  intros K mn s. simpl.
  assert (Fuel : (length s < mn + length s + 1)%nat) by lia. revert Fuel.
  generalize (mn + length s + 1)%nat as fuel. intros fuel.
  revert mn s.
  induction fuel as [|fuel IHf]; intros mn s Fuel Min All; [lia|].
  cbn beta iota. cbn [Regex.max_is_zero].
  destruct s as [|a s].
  - cbn [length] in Min. replace mn with O by lia. cbn. exact K.
  - cbn [forallb] in All. apply andb_true_iff in All as [Pa All]. rewrite Pa.
    replace ((length s =? length (a :: s))%nat) with false
      by (symmetry; apply Nat.eqb_neq; cbn [length]; lia).
    rewrite andb_false_r. cbn [option_map].
    cbn [length] in Fuel, Min.
    rewrite (IHf (Nat.pred mn) s) by (try assumption; lia).
    now destruct (negb _).
Qed.

Lemma isBlank_image (card : Card.Card) :
  Card.isBlank card = true
  <-> Card.image card <> ""
      /\ forallb Js.whitespace (Js.chars (Card.image card)) = true.
Proof.
  unfold Card.isBlank, Regex.exec.
  set (s := Js.chars (Card.image card)).
  assert (Empty : Card.image card = "" <-> s = []).
  { subst s. destruct (Card.image card); cbn; split; congruence. }
  cbn [Regex.seq_of]. split.
  - destruct (Regex.search _ _ _) as [[e c]|] eqn:S; [intros _|discriminate].
    apply search_found in S as (n & S).
    rewrite rmatch_Cat, rmatch_Bol in S.
    destruct (Nat.eqb_spec (length (drop n s)) (length s)) as [L|]; [|discriminate S].
    assert (D : drop n s = s).
    { rewrite length_drop in L. destruct n; [reflexivity|].
      destruct s; [reflexivity|]. cbn [length] in L. lia. }
    rewrite D, rmatch_Cat in S.
    apply rmatch_min in S as Long. destruct Long as (s' & c' & _ & Long).
    cbn in Long.
    apply rmatch_class_run in S as (m & All & S).
    rewrite rmatch_Eol in S.
    destruct (drop m s) eqn:Rest; [|discriminate S].
    assert (T : take m s = s).
    { rewrite <- (take_drop m s) at 2. rewrite Rest. now rewrite app_nil_r. }
    rewrite T in All. split; [|exact All].
    rewrite Empty. intros ->. cbn [length] in Long. lia.
  - intros [NE All]. rewrite Empty in NE.
    destruct s as [|a s'] eqn:Es; [congruence|]. rewrite <- Es in *.
    assert (M : Regex.rmatch (length s)
                  (Regex.Cat Regex.Bol
                     (Regex.Cat (Regex.plus (Regex.Class Js.whitespace)) Regex.Eol))
                  (Regex.final (length s)) s []
                = Some ((length s - 0)%nat, [])).
    { rewrite rmatch_Cat, rmatch_Bol, Nat.eqb_refl, rmatch_Cat.
      apply rmatch_class_all; [reflexivity| |exact All].
      rewrite Es. cbn [length]. lia. }
    rewrite Es in M |- *. cbn [Regex.search]. rewrite <- Es in M |- *.
    now rewrite M.
Qed.

(** [isBlank] holds of the cards whose image is white space and nothing
    else, one character at least. *)
Theorem isBlank_is_all_white_space (card : Card.Card) :
  Card.isBlank card = true
  <-> Card.image card <> ""
      /\ forall c, In c (Js.chars (Card.image card)) -> Js.whitespace c = true.
Proof.
  rewrite isBlank_image, forallb_forall. reflexivity.
Qed.

(** ** Trailing blank records *)

Lemma dropWhile_split {A} (p : A -> bool) (l : list A) :
  exists pre, l = pre ++ Js.dropWhile p l /\ Forall (fun x => p x = true) pre.
Proof.
  induction l as [|x l (pre & E & All)]; [exists []; split; [reflexivity|constructor]|].
  cbn [Js.dropWhile]. destruct (p x) eqn:Px.
  - exists (x :: pre). split; [cbn; now f_equal|]. now constructor.
  - exists []. split; [reflexivity|constructor].
Qed.

Lemma dropWhile_head {A} (p : A -> bool) (l : list A) (x : A) :
  head (Js.dropWhile p l) = Some x -> p x = false.
Proof.
  induction l as [|y l IH]; [discriminate|]. cbn [Js.dropWhile].
  destruct (p y) eqn:Py; [exact IH|]. now intros [= <-].
Qed.

Lemma last_of_rev {A} (l : list A) : last (rev l) = head l.
Proof.
  destruct l as [|x l]; [reflexivity|]. cbn [rev head]. apply last_snoc.
Qed.

Lemma trimBlanks_trims (cards : list Card.Card) :
  (exists blanks,
     cards = FITSHeader.trimBlanks cards ++ blanks
     /\ Forall (fun c => Card.isBlank c = true) blanks)
  /\ forall card,
       last (FITSHeader.trimBlanks cards) = Some card -> Card.isBlank card = false.
Proof.
  unfold FITSHeader.trimBlanks. split.
  - destruct (dropWhile_split Card.isBlank (rev cards)) as (pre & E & All).
    exists (rev pre). split.
    + rewrite <- rev_app_distr, <- E. now rewrite rev_involutive.
    + now apply List.Forall_rev.
  - intros card. rewrite last_of_rev. apply dropWhile_head.
Qed.

(** [fromBuffer] drops the blank records at the end of the header and no
    others: the records before the END record are the cards of the header
    and then cards that are blank, and the last card of the header is not
    blank. *)
Theorem fromBuffer_drops_trailing_blanks (parseFloat : string -> Card.number)
  (decode : DataView.buffer -> string) (file : DataView.buffer)
  (st st' : RegexState) (header : FITSHeader.FITSHeader) (bytesRead : nat) :
  FITSHeader.fromBuffer parseFloat decode file st = (Ok (header, bytesRead), st') ->
  (exists blanks,
     Forall (fun c => Card.isBlank c = true) blanks
     /\ bytesRead = (80 * length (FITSHeader.cards header ++ blanks))%nat
     /\ forall (j : nat) (card : Card.Card),
          (FITSHeader.cards header ++ blanks) !! j = Some card ->
          Card.fromString parseFloat (decode (take 80 (drop (80 * j) file))) true
          = Ok card)
  /\ forall card,
       last (FITSHeader.cards header) = Some card -> Card.isBlank card = false.
Proof.
  intros H.
  apply fromBuffer_checked in H
    as (cards & simple & bitpix & naxis & count & st1 & st2 & st3
        & R & -> & _).
  cbn [FITSHeader.cards].
  destruct (trimBlanks_trims cards) as [(blanks & E & All) Last].
  split; [|exact Last].
  exists blanks. rewrite <- E. split; [exact All|].
  apply read_records_returns in R as (more & endCard & C & -> & _ & Each & _).
  cbn [app] in C. subst more. cbn [Nat.add].
  split; [reflexivity|].
  intros j card J. now apply Each.
Qed.

Lemma fromBuffer_drops_trailing_blanks_witness :
  exists header st',
    FITSHeader.fromBuffer Examples.parseFloat_whole Examples.decode_ascii
      Examples.buffer_full freshRegexState = (Ok (header, 2880%nat), st')
    /\ length (FITSHeader.cards header) = 4%nat
    /\ (exists blanks,
          Forall (fun c => Card.isBlank c = true) blanks
          /\ 2880%nat = (80 * length (FITSHeader.cards header ++ blanks))%nat
          /\ forall (j : nat) (card : Card.Card),
               (FITSHeader.cards header ++ blanks) !! j = Some card ->
               Card.fromString Examples.parseFloat_whole
                 (Examples.decode_ascii
                    (take 80 (drop (80 * j) Examples.buffer_full))) true
               = Ok card)
    /\ forall card,
         last (FITSHeader.cards header) = Some card -> Card.isBlank card = false.
Proof.
  assert (E : exists header st',
             FITSHeader.fromBuffer Examples.parseFloat_whole Examples.decode_ascii
               Examples.buffer_full freshRegexState = (Ok (header, 2880%nat), st')
             /\ length (FITSHeader.cards header) = 4%nat).
  { eexists. eexists. split; vm_compute; reflexivity. }
  destruct E as (header & st' & E & L). exists header, st'.
  split; [exact E|]. split; [exact L|].
  exact (fromBuffer_drops_trailing_blanks _ _ _ _ _ _ _ E).
Defined.

(** ** Where the data are read *)

Lemma blockAligned_block (n : nat) :
  (n mod 2880 = 0)%nat -> FITS.blockAligned n = n.
Proof.
  intros Z. unfold FITS.blockAligned. change FITS.BLOCK_SIZE with 2880%nat.
  pose proof (Nat.div_mod_eq n 2880) as D. rewrite Z in D.
  set (q := (n / 2880)%nat) in D.
  replace (n + (2880 - 1))%nat with (2879 + q * 2880)%nat by lia.
  rewrite Nat.div_add by lia.
  change (2879 / 2880)%nat with 0%nat. lia.
Qed.

Lemma take_length_take {A} (n : nat) (l : list A) :
  take n l = take (length (take n l)) l.
Proof.
  rewrite length_take. destruct (Nat.le_ge_cases n (length l)).
  - now rewrite Nat.min_l.
  - rewrite Nat.min_r by assumption. now rewrite !take_ge by lia.
Qed.

(** The data of a returned file are a part of the input that begins at the
    aligned offset of the header. *)
Lemma fromBuffer_data_offset (parseFloat : string -> Card.number)
  (decode : DataView.buffer -> string) (file : DataView.buffer)
  (forceNaxis : option Z) (st st' : RegexState) (f : FITS.FITS) :
  FITS.fromBuffer parseFloat decode file forceNaxis st = (Ok f, st') ->
  exists (bytesRead : nat) (st1 : RegexState),
    FITSHeader.fromBuffer parseFloat decode file st
    = (Ok (FITS.header f, bytesRead), st1)
    /\ FITSData.dataBuffer (FITS.data f)
       = take (length (FITSData.dataBuffer (FITS.data f)))
           (drop (FITS.blockAligned bytesRead) file).
Proof.
  unfold FITS.fromBuffer, bind.
  destruct (FITSHeader.fromBuffer parseFloat decode file st)
    as [[[header bytesRead]|e] st1]; [|discriminate].
  destruct (FITSHeader.getValue header "BITPIX" st1) as [[B|e] st2];
    [|discriminate].
  destruct (FITSHeader.getValue header "NAXIS" st2) as [[N|e] st3];
    [|discriminate].
  destruct (FITS.axes_of header 0 _ st3) as [[NAXISn|e] st4]; [|discriminate].
  destruct (match forceNaxis with Some _ => _ | None => _ end); [discriminate|].
  destruct (negb _); [discriminate|].
  intros [= <- _]. cbn [FITS.data FITS.header FITSData.dataBuffer].
  exists bytesRead, st1. split; [reflexivity|]. apply take_length_take.
Qed.

(** The offset of the data is taken from the offset of the END record, not
    from its end: when the records before END fill whole blocks, so that
    the END record is the first of a block, the data [fromBuffer] returns
    are read from the END record on. *)
Theorem fromBuffer_data_over_END (parseFloat : string -> Card.number)
  (decode : DataView.buffer -> string) (file : DataView.buffer)
  (forceNaxis : option Z) (st st' st1 : RegexState) (f : FITS.FITS)
  (header : FITSHeader.FITSHeader) (bytesRead : nat) :
  FITSHeader.fromBuffer parseFloat decode file st = (Ok (header, bytesRead), st1) ->
  (bytesRead mod 2880 = 0)%nat ->
  FITS.fromBuffer parseFloat decode file forceNaxis st = (Ok f, st') ->
  exists endCard,
    Card.fromString parseFloat (decode (take 80 (drop bytesRead file))) true
    = Ok endCard
    /\ Card.keyword endCard = "END"
    /\ FITSData.dataBuffer (FITS.data f)
       = take (length (FITSData.dataBuffer (FITS.data f))) (drop bytesRead file).
Proof.
  intros H Block F.
  apply fromBuffer_data_offset in F as (bytesRead' & st1' & H' & D).
  rewrite H in H'. injection H' as _ <- _.
  rewrite (blockAligned_block _ Block) in D.
  apply fromBuffer_checked in H
    as (cards & simple & bitpix & naxis & count & sa & sb & sc & R & _).
  apply read_records_returns in R as (more & endCard & _ & _ & _ & _ & P & K).
  exists endCard. split; [exact P|]. split; [exact K|exact D].
Qed.

Lemma fromBuffer_data_over_END_witness :
  exists f st' endCard,
    FITS.fromBuffer Examples.parseFloat_whole Examples.decode_ascii
      Examples.buffer_full None freshRegexState = (Ok f, st')
    /\ FITSData.dataBuffer (FITS.data f) = [Byte.x45; Byte.x4e; Byte.x44]
    /\ Card.fromString Examples.parseFloat_whole
         (Examples.decode_ascii (take 80 (drop 2880 Examples.buffer_full))) true
       = Ok endCard
    /\ Card.keyword endCard = "END"
    /\ FITSData.dataBuffer (FITS.data f)
       = take (length (FITSData.dataBuffer (FITS.data f)))
           (drop 2880 Examples.buffer_full).
Proof.
  assert (E : exists header st1,
             FITSHeader.fromBuffer Examples.parseFloat_whole Examples.decode_ascii
               Examples.buffer_full freshRegexState = (Ok (header, 2880%nat), st1)).
  { eexists. eexists. vm_compute. reflexivity. }
  assert (F : exists f st',
             FITS.fromBuffer Examples.parseFloat_whole Examples.decode_ascii
               Examples.buffer_full None freshRegexState = (Ok f, st')
             /\ FITSData.dataBuffer (FITS.data f)
                = [Byte.x45; Byte.x4e; Byte.x44]).
  { eexists. eexists. split; vm_compute; reflexivity. }
  destruct E as (header & st1 & E). destruct F as (f & st' & F & D).
  destruct (fromBuffer_data_over_END _ _ _ _ _ _ _ _ _ _ E eq_refl F)
    as (endCard & P & K & B).
  exists f, st', endCard.
  split; [exact F|]. split; [exact D|]. split; [exact P|].
  split; [exact K|exact B].
Defined.
